(** * Layout planner: page layouts for comic scripts

    A shallow embedding of [src/dev/layout_planner.py] and the properties of
    its layout engine.

    Conventions of the embedding.
    - A Python [float] is a primitive binary64 [float] of the kernel, so every
      product, quotient and comparison below is the IEEE 754 operation the
      interpreter performs, bit for bit.
    - A Python [int] is a [Z]; an index produced by [enumerate], [list.index]
      or [len] is a [nat].
    - A Python [str] is a [string] holding its UTF-8 encoding.  UTF-8 is
      self-synchronising, so [a in b] on code points and on the encodings
      agree.  [str.lower] is a parameter of the engine.
    - A builtin that can raise ([max] of an empty list, [list.index],
      indexing, [/], [//], [%], [int], [math.ceil], [math.sqrt]) returns a
      [result]; the engine is written in the error monad and nothing is
      assumed about reachability.  The class of an exception is the
      interpreter's; its message varies with the version of the interpreter
      and the types of the operands, and no theorem depends on it.
    - [sorted] is embedded on keys that [<] orders: on a list with a NaN
      coordinate the interpreter's merge sort and the insertion sort below
      can differ, and every theorem about an order asks for coordinates
      that are not NaN.
    - [random.random] is a parameter: a generator state and its step.
    - [LayoutFormatter.format_layout] is embedded as the text it builds;
      [str.upper] is a parameter of the report, the fixed-point formats
      [.1f] and [.2f] are computed on the exact value of the float, and the
      text of an integer is refused beyond 4300 digits, as the interpreter
      refuses it.  [main] is embedded up to its call of [print], which is a
      parameter. *)

From Stdlib Require Import ZArith List String Ascii Bool Lia QArith.
From Stdlib Require Import Permutation Sorted.
From Stdlib Require Import Floats.
From Stdlib Require Uint63.
From Stdlib Require DecimalString.
Import ListNotations.

Set Warnings "-inexact-float".
Local Open Scope string_scope.
Local Open Scope list_scope.
Local Open Scope Z_scope.

(* ================================================================== *)
(** * Python builtins *)
(* ================================================================== *)

Module Py.

(** ** Exceptions and the error monad *)

Inductive exn : Type :=
| ValueError (msg : string)
| IndexError (msg : string)
| ZeroDivisionError (msg : string)
| OverflowError (msg : string).

Inductive result (A : Type) : Type :=
| Ok (a : A)
| Raise (e : exn).
Arguments Ok {A} a.
Arguments Raise {A} e.

Definition bind {A B : Type} (r : result A) (k : A -> result B) : result B :=
  match r with
  | Ok a => k a
  | Raise e => Raise e
  end.

Definition returns {A : Type} (r : result A) : Prop := exists a, r = Ok a.

(** ** Floats *)

(** [float(n)] for [|n| < 2^63], which covers [len] (a [Py_ssize_t]) and
    every integer the engine converts.  [of_uint63] rounds to nearest even,
    as CPython does. *)
Definition float_of_int (n : Z) : float :=
  if n <? 0 then (- PrimFloat.of_uint63 (Uint63.of_Z (- n)))%float
  else PrimFloat.of_uint63 (Uint63.of_Z n).

(** [int(f)]: truncation toward zero; infinities and NaN raise. *)
Definition int_of_float (f : float) : result Z :=
  match Prim2SF f with
  | S754_zero _ => Ok 0
  | S754_finite s m e => Ok (cond_Zopp s (Z.shiftl (Zpos m) e))
  | S754_infinity _ => Raise (OverflowError "cannot convert float infinity to integer")
  | S754_nan => Raise (ValueError "cannot convert float NaN to integer")
  end.

(** [math.ceil(f)].  [Z.shiftl] by a negative amount is a flooring shift. *)
Definition ceil (f : float) : result Z :=
  match Prim2SF f with
  | S754_zero _ => Ok 0
  | S754_finite s m e => Ok (- Z.shiftl (cond_Zopp (negb s) (Zpos m)) e)
  | S754_infinity _ => Raise (OverflowError "cannot convert float infinity to integer")
  | S754_nan => Raise (ValueError "cannot convert float NaN to integer")
  end.

(** [round(f)] with one argument: to the nearest integer, ties to even. *)
Definition round (f : float) : result Z :=
  match Prim2SF f with
  | S754_zero _ => Ok 0
  | S754_finite s m e =>
      if 0 <=? e then Ok (cond_Zopp s (Z.shiftl (Zpos m) e))
      else
        let q := Z.shiftl (Zpos m) e in
        let r := Zpos m - Z.shiftl q (- e) in
        let half := Z.shiftl 1 (- e - 1) in
        let up := if r <? half then false
                  else if half <? r then true
                  else Z.odd q in
        Ok (cond_Zopp s (if up then q + 1 else q))
  | S754_infinity _ => Raise (OverflowError "cannot convert float infinity to integer")
  | S754_nan => Raise (ValueError "cannot convert float NaN to integer")
  end.

(** [x / y] on floats (an [int] operand is converted first). *)
Definition truediv (x y : float) : result float :=
  if PrimFloat.eqb y 0%float
  then Raise (ZeroDivisionError "float division by zero")
  else Ok (x / y)%float.

(** [math.sqrt(x)]. *)
Definition math_sqrt (x : float) : result float :=
  if PrimFloat.ltb x 0%float
  then Raise (ValueError "math domain error")
  else Ok (PrimFloat.sqrt x).

(** [max(a, b)] and [min(a, b)] on floats: the first argument unless the
    second is strictly greater (smaller). *)
Definition fmax (a b : float) : float := if PrimFloat.ltb a b then b else a.
Definition fmin (a b : float) : float := if PrimFloat.ltb b a then b else a.

(** The exact rational value of a finite float. *)
Definition value (f : float) : option Q :=
  match Prim2SF f with
  | S754_zero _ => Some (0 # 1)%Q
  | S754_finite s m e =>
      Some (if 0 <=? e
            then (cond_Zopp s (Zpos m * 2 ^ e) # 1)%Q
            else (cond_Zopp s (Zpos m) # Z.to_pos (2 ^ (- e)))%Q)
  | _ => None
  end.

(** ** Integers *)

(** [a // b] and [a % b]. *)
Definition floordiv (a b : Z) : result Z :=
  if b =? 0 then Raise (ZeroDivisionError "integer division or modulo by zero")
  else Ok (a / b).

Definition modulo (a b : Z) : result Z :=
  if b =? 0 then Raise (ZeroDivisionError "integer division or modulo by zero")
  else Ok (a mod b).

(** ** Strings *)

(** [needle in hay]. *)
Fixpoint contains (needle hay : string) : bool :=
  String.prefix needle hay ||
  match hay with
  | EmptyString => false
  | String _ rest => contains needle rest
  end.

(** A lowering that agrees with [str.lower] on ASCII and on the Cyrillic
    block U+0400..U+042F ([D0 80]..[D0 AF] in UTF-8); every other byte is
    kept.  It instantiates the engine's parameter in the examples. *)
Fixpoint lower_bytes (l : list N) : list N :=
  match l with
  | [] => []
  | 208%N :: c :: rest =>
      if ((128 <=? c) && (c <=? 143))%N then 209%N :: (c + 16)%N :: lower_bytes rest
      else if ((144 <=? c) && (c <=? 159))%N then 208%N :: (c + 32)%N :: lower_bytes rest
      else if ((160 <=? c) && (c <=? 175))%N then 209%N :: (c - 32)%N :: lower_bytes rest
      else 208%N :: c :: lower_bytes rest
  | c :: rest =>
      (if ((65 <=? c) && (c <=? 90))%N then (c + 32)%N else c) :: lower_bytes rest
  end.

Definition lower (s : string) : string :=
  string_of_list_ascii
    (map ascii_of_N (lower_bytes (map N_of_ascii (list_ascii_of_string s)))).

(** ** Lists *)

(** [max(l)] on integers. *)
Definition max (l : list Z) : result Z :=
  match l with
  | [] => Raise (ValueError "max() arg is an empty sequence")
  | a :: rest => Ok (fold_left (fun m v => if m <? v then v else m) rest a)
  end.

(** [max(l)] on floats. *)
Definition max_float (l : list float) : result float :=
  match l with
  | [] => Raise (ValueError "max() arg is an empty sequence")
  | a :: rest => Ok (fold_left fmax rest a)
  end.

(** [l.index(v)]. *)
Fixpoint index (v : Z) (l : list Z) : result nat :=
  match l with
  | [] => Raise (ValueError "x is not in list")
  | a :: rest =>
      if a =? v then Ok O
      else bind (index v rest) (fun i => Ok (S i))
  end.

(** [d.get(k, default)] on a dictionary with string keys, kept in insertion
    order. *)
Fixpoint dict_get {V : Type} (d : list (string * V)) (k : string) (default : V) : V :=
  match d with
  | [] => default
  | (k', v) :: rest => if String.eqb k' k then v else dict_get rest k default
  end.

(** [l[i]] and [l[i] = v] for [0 <= i]. *)
Definition getitem {A : Type} (l : list A) (i : nat) : result A :=
  match nth_error l i with
  | Some a => Ok a
  | None => Raise (IndexError "list index out of range")
  end.

Fixpoint setitem {A : Type} (l : list A) (i : nat) (v : A) : result (list A) :=
  match l, i with
  | [], _ => Raise (IndexError "list assignment index out of range")
  | _ :: rest, O => Ok (v :: rest)
  | a :: rest, S j => bind (setitem rest j v) (fun rest' => Ok (a :: rest'))
  end.

(** [enumerate(l)]. *)
Definition enumerate {A : Type} (l : list A) : list (nat * A) :=
  combine (seq 0 (List.length l)) l.

(** [range(n)]. *)
Definition range (n : Z) : list Z := map Z.of_nat (seq 0 (Z.to_nat n)).

(** [sorted(l, key=...)], by its contract: ascending for the [<] of the keys
    and stable.  [lt a b] is [key(a) < key(b)]. *)
Section Sorted.
Context {A : Type} (lt : A -> A -> bool).

Fixpoint insert (a : A) (l : list A) : list A :=
  match l with
  | [] => [a]
  | b :: rest => if lt a b then a :: b :: rest else b :: insert a rest
  end.

Definition sorted (l : list A) : list A :=
  fold_left (fun acc a => insert a acc) l [].

End Sorted.

(** [(a1, a2) < (b1, b2)] on pairs of floats: the first components that
    differ decide. *)
Definition pair_lt (a b : float * float) : bool :=
  if negb (PrimFloat.eqb (fst a) (fst b)) then PrimFloat.ltb (fst a) (fst b)
  else if negb (PrimFloat.eqb (snd a) (snd b)) then PrimFloat.ltb (snd a) (snd b)
  else false.

End Py.

Import Py.

Notation "x <- e ;; k" := (bind e (fun x => k))
  (at level 61, e at next level, right associativity).

(* ================================================================== *)
(** * Data model *)
(* ================================================================== *)

Inductive ReadingDirection : Type := WESTERN | MANGA.

Inductive AspectRatio : Type :=
| WIDESCREEN | CINEMATIC | STANDARD | SQUARE | PORTRAIT | VERTICAL
| EXTREME_VERTICAL.

Definition AspectRatio_value (a : AspectRatio) : Z * Z :=
  match a with
  | WIDESCREEN => (16, 9)
  | CINEMATIC => (47, 20)
  | STANDARD => (4, 3)
  | SQUARE => (1, 1)
  | PORTRAIT => (2, 3)
  | VERTICAL => (3, 4)
  | EXTREME_VERTICAL => (1, 2)
  end.

Definition AspectRatio_ratio (a : AspectRatio) : result float :=
  truediv (float_of_int (fst (AspectRatio_value a)))
          (float_of_int (snd (AspectRatio_value a))).

Module Panel.

Record t : Type := mk {
  id : Z;
  x : float;
  y : float;
  width : float;
  height : float;
  aspect_ratio : AspectRatio;
  content : string;
  is_bleed : bool;
  is_climax : bool
}.

Definition area (p : t) : float := (width p * height p)%float.

End Panel.

Module PageLayout.

Record t : Type := mk {
  panels : list Panel.t;
  reading_direction : ReadingDirection;
  mood : string;
  target_format : string;
  total_panels : Z
}.

End PageLayout.

(** A template slot: [(x, y, width, height)]. *)
Definition Rect : Type := (float * float * float * float)%type.

Definition rect_of (p : Panel.t) : Rect :=
  (Panel.x p, Panel.y p, Panel.width p, Panel.height p).

(* ================================================================== *)
(** * The layout engine *)
(* ================================================================== *)

Module LayoutEngine.

(** ** Tables *)

Definition LAYOUT_TEMPLATES : list (Z * list (list Rect)) :=
  [ (4%Z, [ [ (0.0, 0.0, 0.5, 0.5); (0.5, 0.0, 0.5, 0.5);
            (0.0, 0.5, 0.5, 0.5); (0.5, 0.5, 0.5, 0.5) ] ]);
    (5%Z, [ [ (0.0, 0.0, 0.6, 0.4); (0.6, 0.0, 0.4, 0.4);
            (0.0, 0.4, 1.0, 0.3);
            (0.0, 0.7, 0.5, 0.3); (0.5, 0.7, 0.5, 0.3) ] ]);
    (6%Z, [ [ (0.0, 0.0, 0.6, 0.3); (0.6, 0.0, 0.4, 0.3);
            (0.0, 0.3, 0.45, 0.25); (0.45, 0.3, 0.55, 0.25);
            (0.0, 0.55, 0.3, 0.45); (0.3, 0.55, 0.7, 0.45) ] ]) ]%float.

(** [LAYOUT_TEMPLATES[k]] when [k in LAYOUT_TEMPLATES]. *)
Fixpoint templates_lookup (d : list (Z * list (list Rect))) (k : Z)
  : option (list (list Rect)) :=
  match d with
  | [] => None
  | (k', v) :: rest => if k' =? k then Some v else templates_lookup rest k
  end.

Definition MOOD_STYLES : list (string * string) :=
  [ ("эпичный боевик", "dynamic");
    ("лирическая драма", "balanced");
    ("напряженный триллер", "tight");
    ("комедийный скетч", "varied") ].

Definition CONTENT_RATIOS : list (string * AspectRatio) :=
  [ ("установочный", WIDESCREEN);
    ("пейзаж", WIDESCREEN);
    ("город", WIDESCREEN);
    ("бежит", CINEMATIC);
    ("движение", CINEMATIC);
    ("погоня", CINEMATIC);
    ("крупный план", PORTRAIT);
    ("лицо", PORTRAIT);
    ("эмоция", PORTRAIT);
    ("высота", EXTREME_VERTICAL);
    ("падение", EXTREME_VERTICAL) ].

Definition mood_factors : list (string * float) :=
  [ ("эпичный боевик", 0.8);
    ("лирическая драма", 1.2);
    ("напряженный триллер", 1.0);
    ("комедийный скетч", 1.4) ]%float.

Definition format_limits : list (string * Z) :=
  [ ("веб-комикс", 9);
    ("печатная манга", 7);
    ("европейский альбом", 6);
    ("сториз для соцсетей", 4) ].

Definition climax_indicators : list (string * Z) :=
  [ ("взрыв", 10);
    ("кульминация", 9);
    ("решающий", 8);
    ("ключевой", 7);
    ("шокирующий", 8);
    ("неожиданный", 7);
    ("битва", 6) ].

(** ** Methods that use neither [str.lower] nor the generator *)

Definition _calculate_panel_count
  (scenes : list string) (mood target_format : string) : result Z :=
  let base_count := Z.of_nat (List.length scenes) in
  let mood_factor := dict_get mood_factors mood 1.0%float in
  let format_limit := dict_get format_limits target_format 8 in
  calculated <- int_of_float (float_of_int base_count * mood_factor)%float ;;
  Ok (Z.max 3 (Z.min format_limit calculated)).

(** The body of the loop of [_generate_grid_layout]. *)
Definition grid_cell (cols : Z) (cell_width cell_height : float) (i : Z)
  : result Rect :=
  row <- floordiv i cols ;;
  col <- modulo i cols ;;
  Ok ((float_of_int col * cell_width)%float,
      (float_of_int row * cell_height)%float,
      cell_width,
      cell_height).

Fixpoint grid_loop (cols : Z) (cell_width cell_height : float)
  (indices : list Z) (layout : list Rect) : result (list Rect) :=
  match indices with
  | [] => Ok layout
  | i :: rest =>
      cell <- grid_cell cols cell_width cell_height i ;;
      grid_loop cols cell_width cell_height rest (layout ++ [cell])
  end.

Definition _generate_grid_layout (panel_count : Z) : result (list Rect) :=
  root <- math_sqrt (float_of_int panel_count) ;;
  cols <- ceil root ;;
  quot <- truediv (float_of_int panel_count) (float_of_int cols) ;;
  rows <- ceil quot ;;
  cell_width <- truediv 1.0%float (float_of_int cols) ;;
  cell_height <- truediv 1.0%float (float_of_int rows) ;;
  grid_loop cols cell_width cell_height (range panel_count) [].

Definition _select_layout_template (panel_count : Z) (mood : string)
  : result (list Rect) :=
  templates <-
    match templates_lookup LAYOUT_TEMPLATES panel_count with
    | Some ts => Ok ts
    | None => grid <- _generate_grid_layout panel_count ;; Ok [grid]
    end ;;
  let style := dict_get MOOD_STYLES mood "balanced" in
  if String.eqb style "dynamic" && (1 <? List.length templates)%nat
  then getitem templates 1
  else getitem templates 0.

Definition normalize_rect (r : Rect) : Rect :=
  let '(x, y, w, h) := r in
  let x := fmax 0.0%float (fmin 1.0%float x) in
  let y := fmax 0.0%float (fmin 1.0%float y) in
  let w := fmax 0.1%float (fmin 1.0%float w) in
  let h := fmax 0.1%float (fmin 1.0%float h) in
  let w := if PrimFloat.ltb 1.0%float (x + w)%float then (1.0 - x)%float else w in
  let h := if PrimFloat.ltb 1.0%float (y + h)%float then (1.0 - y)%float else h in
  (x, y, w, h).

Definition _normalize_layout (layout : list Rect) : list Rect :=
  fold_left (fun normalized r => normalized ++ [normalize_rect r]) layout [].

Definition _adjust_for_climax (template : list Rect) (climax_index : nat)
  : result (list Rect) :=
  if (List.length template <=? climax_index)%nat then Ok template
  else
    let adjusted := template in
    climax_panel <- getitem adjusted climax_index ;;
    let '(x, y, w, h) := climax_panel in
    let w := (w * 1.3)%float in
    let h := (h * 1.3)%float in
    adjusted <- setitem adjusted climax_index (x, y, w, h) ;;
    Ok (_normalize_layout adjusted).

(** ** Methods that use [str.lower] and [random.random] *)

Section Engine.

Variable lower : string -> string.
Variable rng : Type.
Variable random : rng -> float * rng.

(** The body of the outer loop of [_find_climax]. *)
Definition scene_score (key_elements : list string) (scene : string) : Z :=
  let score := 0 in
  let scene_lower := lower scene in
  let score :=
    fold_left
      (fun score kw =>
         if contains (fst kw) scene_lower then score + snd kw else score)
      climax_indicators score in
  fold_left
    (fun score element =>
       if contains (lower element) scene_lower then score + 3 else score)
    key_elements score.

Definition climax_scores (scenes key_elements : list string) : list Z :=
  fold_left (fun scores scene => scores ++ [scene_score key_elements scene])
            scenes [].

Definition _find_climax (scenes key_elements : list string) : result nat :=
  let scores := climax_scores scenes key_elements in
  match scores with
  | [] => Ok (Nat.div (List.length scenes) 2)
  | _ :: _ => m <- Py.max scores ;; index m scores
  end.

(** [any(word in content_lower for word in words)]. *)
Definition any_in (words : list string) (content_lower : string) : bool :=
  existsb (fun word => contains word content_lower) words.

Fixpoint first_ratio (table : list (string * AspectRatio)) (content_lower : string)
  : option AspectRatio :=
  match table with
  | [] => None
  | (keyword, ratio) :: rest =>
      if contains keyword content_lower then Some ratio
      else first_ratio rest content_lower
  end.

Definition _determine_aspect_ratio (content : string) : AspectRatio :=
  let content_lower := lower content in
  match first_ratio CONTENT_RATIOS content_lower with
  | Some ratio => ratio
  | None =>
      if any_in ["эмоция"; "лицо"; "реакция"] content_lower then PORTRAIT
      else if any_in ["действие"; "движение"] content_lower then CINEMATIC
      else STANDARD
  end.

(** The loop of [_create_panels]; [random] is called for the climax panel
    only, because [and] short-circuits. *)
Fixpoint create_panels_loop (items : list (nat * Rect)) (scenes : list string)
  (climax_index : nat) (panels : list Panel.t) (g : rng)
  : result (list Panel.t * rng) :=
  match items with
  | [] => Ok (panels, g)
  | (i, (x, y, w, h)) :: rest =>
      if (List.length scenes <=? i)%nat then Ok (panels, g)
      else
        content <- getitem scenes i ;;
        let aspect_ratio := _determine_aspect_ratio content in
        let is_climax := Nat.eqb i climax_index in
        let '(is_bleed, g) :=
          if is_climax
          then let '(u, g') := random g in (PrimFloat.ltb 0.7%float u, g')
          else (false, g) in
        let panel :=
          Panel.mk (Z.of_nat i + 1) x y w h aspect_ratio content
                   is_bleed is_climax in
        create_panels_loop rest scenes climax_index (panels ++ [panel]) g
  end.

Definition _create_panels (template : list Rect) (scenes : list string)
  (climax_index : nat) (g : rng) : result (list Panel.t * rng) :=
  create_panels_loop (enumerate template) scenes climax_index [] g.

Definition generate_layout (scenes key_elements : list string)
  (mood target_format : string) (reading_direction : ReadingDirection)
  (g : rng) : result (PageLayout.t * rng) :=
  match scenes with
  | [] => Raise (ValueError "At least one scene required")
  | _ :: _ =>
      panel_count <- _calculate_panel_count scenes mood target_format ;;
      climax_index <- _find_climax scenes key_elements ;;
      layout_template <- _select_layout_template panel_count mood ;;
      adjusted_template <- _adjust_for_climax layout_template climax_index ;;
      created <- _create_panels adjusted_template scenes climax_index g ;;
      Ok (PageLayout.mk (fst created) reading_direction mood target_format
                        panel_count,
          snd created)
  end.

End Engine.

End LayoutEngine.

(* ================================================================== *)
(** * Presentation helpers *)
(* ================================================================== *)

Module LayoutFormatter.

Definition western_key (p : Panel.t) : float * float := (Panel.y p, Panel.x p).
Definition manga_key (p : Panel.t) : float * float :=
  ((- Panel.y p)%float, (- Panel.x p)%float).

Definition _sort_panels_by_reading_order
  (panels : list Panel.t) (direction : ReadingDirection) : list Panel.t :=
  match direction with
  | MANGA => sorted (fun p q => pair_lt (manga_key p) (manga_key q)) panels
  | WESTERN => sorted (fun p q => pair_lt (western_key p) (western_key q)) panels
  end.

End LayoutFormatter.

(** The two methods attached to [PageLayout] after its definition. *)

Definition _calculate_flow_pattern (self : PageLayout.t) : string :=
  match PageLayout.reading_direction self with
  | MANGA => "vertical_right_left"
  | WESTERN =>
      if (List.length (PageLayout.panels self) <=? 4)%nat then "z_pattern"
      else if existsb (String.eqb (PageLayout.mood self))
                      ["эпичный боевик"; "напряженный триллер"]
      then "diagonal_dynamic"
      else "modified_z"
  end.

(** [sum(areas)]: it starts from the integer [0] and adds from left to
    right.  (CPython 3.12 and later carry a compensation term through the
    loop; it can change the last bit of the sum, never whether it is zero.) *)
Definition sum_float (l : list float) : float :=
  fold_left (fun acc a => (acc + a)%float) l (float_of_int 0).

Definition _analyze_composition (self : PageLayout.t) : result string :=
  let areas := map Panel.area (PageLayout.panels self) in
  avg_area <- truediv (sum_float areas)
                      (float_of_int (Z.of_nat (List.length areas))) ;;
  max_area <- max_float areas ;;
  ratio <- truediv max_area avg_area ;;
  if PrimFloat.ltb 2.0%float ratio then Ok "pyramidal_focus"
  else if (List.length (PageLayout.panels self) <=? 5)%nat then Ok "balanced_grid"
  else Ok "rhythmic_mosaic".

Definition dominant_flow (self : PageLayout.t) : string :=
  _calculate_flow_pattern self.

Definition composition_type (self : PageLayout.t) : result string :=
  _analyze_composition self.

(* ================================================================== *)
(** * Vocabulary on floats *)
(* ================================================================== *)

(** A float that is zero, or finite with a mantissa below [2^D] and an
    exponent of at most [E]. *)
Definition SF_finite (x : spec_float) (D E : Z) : Prop :=
  match x with
  | S754_zero _ => True
  | S754_finite _ m e => Zpos m < 2 ^ D /\ e <= E
  | _ => False
  end.

(** An integer that orders the floats as [<] and [==] order them: exponent
    first, mantissa second, the zeros together and the infinities outside.
    It is meaningful on the floats that are not NaN. *)
Definition SF_rank (x : spec_float) : Z :=
  match x with
  | S754_zero _ => 0
  | S754_finite s m e => cond_Zopp s ((e + 1075) * 2 ^ 53 + Zpos m)
  | S754_infinity s => cond_Zopp s (3000 * 2 ^ 53)
  | S754_nan => 0
  end.

Definition rank (f : float) : Z := SF_rank (Prim2SF f).

(* ================================================================== *)
(** * Specification vocabulary *)
(* ================================================================== *)

Module Spec.

Import LayoutEngine.

(** The error the specification calls [InvalidInput]. *)
Definition InvalidInput : exn := ValueError "At least one scene required".

(** [clamp(v, lo, hi)]. *)
Definition clamp (v lo hi : Z) : Z := Z.max lo (Z.min hi v).

Definition mood_multiplier (mood : string) : float :=
  dict_get mood_factors mood 1.0%float.

Definition format_limit (target_format : string) : Z :=
  dict_get format_limits target_format 8.

(** The panel count as the specification words it: the product is rounded
    to the nearest integer. *)
Definition panel_count_rounded (n : nat) (mood target_format : string)
  : result Z :=
  calculated <- Py.round (float_of_int (Z.of_nat n) * mood_multiplier mood)%float ;;
  Ok (clamp calculated 3 (format_limit target_format)).

(** The panel count with the product truncated toward zero. *)
Definition panel_count_truncated (n : nat) (mood target_format : string)
  : result Z :=
  calculated <- int_of_float (float_of_int (Z.of_nat n) * mood_multiplier mood)%float ;;
  Ok (clamp calculated 3 (format_limit target_format)).

(** The mood multipliers, in tenths. *)
Definition mood_tenths : list (string * Z) :=
  [ ("эпичный боевик", 8);
    ("лирическая драма", 12);
    ("напряженный триллер", 10);
    ("комедийный скетч", 14) ].

Definition mood_tenths_of (mood : string) : Z := dict_get mood_tenths mood 10.

(** The panel count in integer arithmetic. *)
Definition panel_count_exact (n : nat) (mood target_format : string) : Z :=
  clamp (Z.of_nat n * mood_tenths_of mood / 10) 3
             (format_limit target_format).

(** The multipliers a mood can select, each with its tenths. *)
Definition mood_cases : list (float * Z) :=
  [ (1.0%float, 10); (0.8%float, 8); (1.2%float, 12); (1.4%float, 14) ].

(** Below 32 scenes the truncated float product and the integer quotient
    agree once capped at the largest format limit. *)
Definition small_counts_agree : bool :=
  forallb
    (fun ck =>
       forallb
         (fun n =>
            match int_of_float (float_of_int (Z.of_nat n) * fst ck)%float with
            | Ok t => Z.min 9 t =? Z.min 9 (Z.of_nat n * snd ck / 10)
            | Raise _ => false
            end)
         (seq 0 32))
    mood_cases.

(** The climax score of the two loops of [_find_climax]: the weights of
    the keywords found in the lowered scene, plus 3 for each key element
    whose lowered text is found there. *)
Definition keyword_points (lower : string -> string) (scene : string)
  (kw : string * Z) : Z :=
  if contains (fst kw) (lower scene) then snd kw else 0.

Definition element_points (lower : string -> string) (scene element : string) : Z :=
  if contains (lower element) (lower scene) then 3 else 0.

Definition sumZ (l : list Z) : Z := fold_right Z.add 0 l.

Definition score (lower : string -> string) (key_elements : list string)
  (scene : string) : Z :=
  sumZ (map (keyword_points lower scene) climax_indicators)
  + sumZ (map (element_points lower scene) key_elements).

(** [i] is the first index of [l] that carries the largest value. *)
Definition first_maximum (l : list Z) (i : nat) : Prop :=
  exists m,
    nth_error l i = Some m /\
    (forall j v, nth_error l j = Some v -> v <= m) /\
    (forall j v, (j < i)%nat -> nth_error l j = Some v -> v < m).

(** The number of panels flagged as climax. *)
Definition count_climax (panels : list Panel.t) : nat :=
  List.length (filter Panel.is_climax panels).

(** The tolerance of the boundary invariant: the unit roundoff of binary64. *)
Definition epsilon : Q := 1 # (2 ^ 53).

(** The boundary invariant on the exact values of the coordinates. *)
Definition within_page (p : Panel.t) : Prop :=
  exists x y w h : Q,
    value (Panel.x p) = Some x /\ value (Panel.y p) = Some y /\
    value (Panel.width p) = Some w /\ value (Panel.height p) = Some h /\
    (0 <= x)%Q /\ (x <= 1)%Q /\ (0 <= y)%Q /\ (y <= 1)%Q /\
    (x + w <= 1 + epsilon)%Q /\ (y + h <= 1 + epsilon)%Q /\
    (1 # 10 <= w)%Q /\ (1 # 10 <= h)%Q.

(** The boundary invariant as a test evaluates it, in float arithmetic and
    with no tolerance. *)
Definition within_page_float (p : Panel.t) : bool :=
  let x := Panel.x p in
  let y := Panel.y p in
  let w := Panel.width p in
  let h := Panel.height p in
  (PrimFloat.leb 0 x && PrimFloat.leb x 1 &&
   PrimFloat.leb 0 y && PrimFloat.leb y 1 &&
   PrimFloat.leb (x + w) 1 && PrimFloat.leb (y + h) 1 &&
   PrimFloat.leb 0.1 w && PrimFloat.leb 0.1 h)%float.

(** Both readings, decided on a template slot. *)
Definition rect_within_page (r : Rect) : bool :=
  let '(fx, fy, fw, fh) := r in
  (PrimFloat.leb 0 fx && PrimFloat.leb fx 1 &&
   PrimFloat.leb 0 fy && PrimFloat.leb fy 1 &&
   PrimFloat.leb (fx + fw) 1 && PrimFloat.leb (fy + fh) 1 &&
   PrimFloat.leb 0.1 fw && PrimFloat.leb 0.1 fh)%float &&
  match value fx, value fy, value fw, value fh with
  | Some x, Some y, Some w, Some h =>
      Qle_bool 0 x && Qle_bool x 1 && Qle_bool 0 y && Qle_bool y 1 &&
      Qle_bool (x + w) (1 + epsilon) && Qle_bool (y + h) (1 + epsilon) &&
      Qle_bool (1 # 10) w && Qle_bool (1 # 10) h
  | _, _, _, _ => false
  end.

(** The rectangles the engine hands to [_create_panels]: they depend on the
    panel count and on the climax index only (no template has a second
    variant, so the mood does not matter). *)
Definition layout_rects (panel_count : Z) (climax_index : nat)
  : result (list Rect) :=
  template <- _select_layout_template panel_count "" ;;
  _adjust_for_climax template climax_index.

(** [_analyze_composition] on the rectangles of the panels. *)
Definition analyze_rects (rects : list Rect) : result string :=
  _analyze_composition
    (PageLayout.mk
       (map (fun r => let '(x, y, w, h) := r in
                      Panel.mk 0 x y w h STANDARD "" false false) rects)
       WESTERN "" "" 0).

(** The panel counts the engine can reach and, for each, the climax indices
    that give different rectangles ([panel_count] stands for every index at
    or beyond the template). *)
Definition reachable_counts : list Z := [3; 4; 5; 6; 7; 8; 9].

Definition climax_cases (panel_count : Z) : list nat :=
  seq 0 (S (Z.to_nat panel_count)).

Definition is_ok {A : Type} (test : A -> bool) (r : result A) : bool :=
  match r with
  | Ok a => test a
  | Raise _ => false
  end.

(** A test on the rectangles, run over every reachable case. *)
Definition for_all_reachable (test : Z -> list Rect -> bool) : bool :=
  forallb
    (fun pc =>
       forallb (fun ci => is_ok (test pc) (layout_rects pc ci))
               (climax_cases pc))
    reachable_counts.

(** Every reachable rectangle passes [rect_within_page]. *)
Definition all_rects_within_page : bool :=
  for_all_reachable (fun _ rs => forallb rect_within_page rs).

(** Every reachable template has exactly [panel_count] slots. *)
Definition all_rects_counted : bool :=
  for_all_reachable (fun pc rs => Nat.eqb (List.length rs) (Z.to_nat pc)).

(** Every non-empty prefix of a reachable template has a composition type. *)
Definition all_compositions_defined : bool :=
  for_all_reachable
    (fun pc rs =>
       forallb (fun k => is_ok (fun _ => true) (analyze_rects (firstn k rs)))
               (seq 1 (Z.to_nat pc))).

(** What the engine builds, in terms of its parameters. *)
Section WithParameters.

Variable lower : string -> string.
Variable rng : Type.
Variable random : rng -> float * rng.

(** What the loop of [_create_panels] appends, slot by slot. *)
Definition panel_at (scenes : list string) (climax_index : nat)
  (i : nat) (r : Rect) (p : Panel.t) : Prop :=
  rect_of p = r /\
  Panel.id p = Z.of_nat i + 1 /\
  nth_error scenes i = Some (Panel.content p) /\
  Panel.aspect_ratio p = _determine_aspect_ratio lower (Panel.content p) /\
  Panel.is_climax p = Nat.eqb i climax_index /\
  (Panel.is_bleed p = true -> Panel.is_climax p = true).

(** A successful call, taken apart. *)
Record generated (scenes key_elements : list string) (mood target_format : string)
  (reading_direction : ReadingDirection) (g : rng)
  (layout : PageLayout.t) (g' : rng) (pc : Z) (ci : nat) (rs : list Rect) : Prop := {
  gen_scenes : scenes <> [];
  gen_count : _calculate_panel_count scenes mood target_format = Ok pc;
  gen_range : 3 <= pc <= Spec.format_limit target_format;
  gen_climax : _find_climax lower scenes key_elements = Ok ci;
  gen_climax_lt : (ci < List.length scenes)%nat;
  gen_climax_max : Spec.first_maximum (map (Spec.score lower key_elements) scenes) ci;
  gen_rects : Spec.layout_rects pc ci = Ok rs;
  gen_slots : List.length rs = Z.to_nat pc;
  gen_created : _create_panels lower rng random rs scenes ci g
                = Ok (PageLayout.panels layout, g');
  gen_length : List.length (PageLayout.panels layout)
               = Nat.min (Z.to_nat pc) (List.length scenes);
  gen_panels : forall j p, nth_error (PageLayout.panels layout) j = Some p ->
                 exists r, nth_error rs j = Some r /\ panel_at scenes ci j r p;
  gen_layout : layout = PageLayout.mk (PageLayout.panels layout) reading_direction
                                      mood target_format pc
}.

End WithParameters.

(** Positions are pairwise different for the comparison of the sort. *)
Definition same_position (p q : Panel.t) : bool :=
  PrimFloat.eqb (Panel.y p) (Panel.y q) && PrimFloat.eqb (Panel.x p) (Panel.x q).

Definition comparable (p : Panel.t) : bool :=
  negb (PrimFloat.is_nan (Panel.x p)) && negb (PrimFloat.is_nan (Panel.y p)).

(** The comparisons of the two reading orders. *)
Definition western_lt (p q : Panel.t) : bool :=
  pair_lt (LayoutFormatter.western_key p) (LayoutFormatter.western_key q).
Definition manga_lt (p q : Panel.t) : bool :=
  pair_lt (LayoutFormatter.manga_key p) (LayoutFormatter.manga_key q).

(** [test] holds between every element and every later one. *)
Fixpoint all_pairs {A : Type} (test : A -> A -> bool) (l : list A) : bool :=
  match l with
  | [] => true
  | a :: rest => forallb (test a) rest && all_pairs test rest
  end.

Definition rect_panel (r : Rect) : Panel.t :=
  let '(x, y, w, h) := r in Panel.mk 0 x y w h STANDARD "" false false.

(** Every reachable template has comparable, pairwise different positions. *)
Definition all_positions_distinct : bool :=
  for_all_reachable
    (fun _ rs =>
       forallb (fun r => comparable (rect_panel r)) rs &&
       all_pairs (fun r1 r2 => negb (same_position (rect_panel r1) (rect_panel r2)))
                 rs).

End Spec.

(** Inputs of the examples: the script of [main], a list-backed generator. *)

Module Example.

Definition scenes : list string :=
  [ "Ночной город, установочный план";
    "Протагонист бежит по крыше";
    "Крупный план: испуганное лицо";
    "Взрыв за спиной";
    "Падение обломков";
    "Уворот от падающей балки" ].

Definition key_elements : list string :=
  [ "персонаж смотрит на часы";
    "эмоция: паника";
    "динамика взрыва" ].

(** The generator replays a list of draws and gives [0.0] once exhausted. *)
Definition draws : Type := list float.

Definition next_draw (g : draws) : float * draws :=
  match g with
  | [] => (0%float, [])
  | u :: rest => (u, rest)
  end.

Definition generate := LayoutEngine.generate_layout Py.lower draws next_draw.

(** The page [main] prints, when the draw for the climax panel is [0.9]. *)
Definition main_layout : PageLayout.t :=
  Eval vm_compute in
    match generate scenes key_elements "эпичный боевик" "веб-комикс" WESTERN
                   [0.9%float] with
    | Ok (layout, _) => layout
    | Raise _ => PageLayout.mk [] WESTERN "" "" 0
    end.

(** Five scenes whose last one carries the strongest keyword, for a format
    limited to four panels. *)
Definition late_climax_scenes : list string :=
  [ "Утро в порту"; "Разговор на причале"; "Дорога домой"; "Тишина";
    "Взрыв на складе" ].

Definition two_scenes : list string := [ "Первая сцена"; "Вторая сцена" ].

(** Two panels drawn at the same position. *)
Definition stacked_panels : list Panel.t :=
  [ Panel.mk 1 0 0 0.5 0.5 STANDARD "нижний слой" false false;
    Panel.mk 2 0 0 0.5 0.5 STANDARD "верхний слой" false false ]%float.

End Example.

(* ================================================================== *)
(** * Vocabulary for the templates and the emphasis *)
(* ================================================================== *)

Module Slots.

Import LayoutEngine.

(** The decision list [_determine_aspect_ratio] amounts to: the table, then
    the two words of the defaults that the table does not already hold. *)
Definition ratio_table : list (string * AspectRatio) :=
  CONTENT_RATIOS ++ [ ("реакция", PORTRAIT); ("действие", CINEMATIC) ].

(** The slot of the climax panel, enlarged and not yet normalised. *)
Definition emphasized (r : Rect) : Rect :=
  let '(x, y, w, h) := r in (x, y, (w * 1.3)%float, (h * 1.3)%float).

(** [r] is not wider and not taller than [bound]. *)
Definition fits (r bound : Rect) : bool :=
  let '(_, _, w, h) := r in
  let '(_, _, wb, hb) := bound in
  PrimFloat.leb w wb && PrimFloat.leb h hb.

(** Two slots share a region of positive area, as float comparisons decide
    it. *)
Definition overlap (r1 r2 : Rect) : bool :=
  let '(x1, y1, w1, h1) := r1 in
  let '(x2, y2, w2, h2) := r2 in
  (PrimFloat.ltb x1 (x2 + w2) && PrimFloat.ltb x2 (x1 + w1) &&
   PrimFloat.ltb y1 (y2 + h2) && PrimFloat.ltb y2 (y1 + h1))%float.

(** The first slot is read before the second in the WESTERN order. *)
Definition slot_lt (r1 r2 : Rect) : bool :=
  Spec.western_lt (Spec.rect_panel r1) (Spec.rect_panel r2).

(** The position of a slot lies on the page, as float comparisons. *)
Definition position_on_page (r : Rect) : bool :=
  let '(x, y, _, _) := r in
  (PrimFloat.leb 0 x && PrimFloat.leb x 1 &&
   PrimFloat.leb 0 y && PrimFloat.leb y 1)%float.

(** What the template of a panel count is checked for: one slot per panel,
    every slot within the page, the slots listed in the WESTERN reading
    order and pairwise disjoint, and an emphasis that never exceeds the
    factor 1.3. *)
Definition template_ok (pc : Z) (template : list Rect) : bool :=
  Nat.eqb (List.length template) (Z.to_nat pc) &&
  forallb Spec.rect_within_page template &&
  Spec.all_pairs slot_lt template &&
  Spec.all_pairs (fun r1 r2 => negb (overlap r1 r2)) template &&
  forallb (fun r => fits (normalize_rect (emphasized r)) (emphasized r)) template.

(** The grid of [_generate_grid_layout] for [n] panels has [n] cells on the
    page, listed in the WESTERN reading order. *)
Definition grid_on_page (n : nat) : bool :=
  Spec.is_ok
    (fun cells =>
       Nat.eqb (List.length cells) n &&
       forallb Spec.rect_within_page cells &&
       Spec.all_pairs slot_lt cells)
    (_generate_grid_layout (Z.of_nat n)).

(** Every reachable template lists its slots in the WESTERN reading order,
    whichever slot is enlarged. *)
Definition all_rects_in_order : bool :=
  Spec.for_all_reachable (fun _ rs => Spec.all_pairs slot_lt rs).

(** A panel without its bleed flag, the one field that depends on the
    random draw. *)
Definition without_bleed (p : Panel.t) : Panel.t :=
  Panel.mk (Panel.id p) (Panel.x p) (Panel.y p) (Panel.width p) (Panel.height p)
           (Panel.aspect_ratio p) (Panel.content p) false (Panel.is_climax p).

(** The composition type of a layout of [k] panels whose largest panel is at
    most twice the average. *)
Definition even_composition (k : nat) : string :=
  if (k <=? 5)%nat then "balanced_grid" else "rhythmic_mosaic".

(** Every non-empty prefix of a reachable template is classified by its
    length alone. *)
Definition all_compositions_even : bool :=
  Spec.for_all_reachable
    (fun pc rs =>
       forallb (fun k => Spec.is_ok (String.eqb (even_composition k))
                                    (Spec.analyze_rects (firstn k rs)))
               (seq 1 (Z.to_nat pc))).

End Slots.

(** The climax score as claim C4 words it: the keywords are looked for in
    the lowered scene, each key element in the scene text as it is. *)
Module AsWorded.

Definition element_points (scene element : string) : Z :=
  if contains element scene then 3 else 0.

Definition score (lower : string -> string) (key_elements : list string)
  (scene : string) : Z :=
  Spec.sumZ (map (Spec.keyword_points lower scene) LayoutEngine.climax_indicators)
  + Spec.sumZ (map (element_points scene) key_elements).

End AsWorded.

Module Scripts.

(** Two scenes and a key element written with a capital letter. *)
Definition watch_scenes : list string :=
  [ "Тихое утро"; "Герой смотрит на часы" ].

Definition watch_elements : list string := [ "Часы" ].

(** Four scenes whose first one carries the strongest keyword. *)
Definition early_climax_scenes : list string :=
  [ "Взрыв на складе"; "Утро в порту"; "Разговор на причале"; "Дорога домой" ].

(** The page [main] prints when the draw for the climax panel is [0.1]. *)
Definition plain_layout : PageLayout.t :=
  Eval vm_compute in
    match Example.generate Example.scenes Example.key_elements
                           "эпичный боевик" "веб-комикс" WESTERN [0.1%float] with
    | Ok (layout, _) => layout
    | Raise _ => PageLayout.mk [] WESTERN "" "" 0
    end.

End Scripts.

(* ================================================================== *)
(** * The report *)
(* ================================================================== *)

(** What [format_layout] uses of Python's text formatting. *)

Module PyText.

(** The decimal text of an integer. *)
Definition str_of_int (n : Z) : string :=
  DecimalString.NilZero.string_of_int (Z.to_int n).

(** CPython converts no integer of more than 4300 decimal digits to text
    (the default of [sys.set_int_max_str_digits]): [int_max_str] is
    [10 ^ 4300], the least integer it refuses. *)
Definition int_max_str : Z := Eval vm_compute in 10 ^ 4300.

(** [str(n)], also the text of an integer in an f-string. *)
Definition str (n : Z) : result string :=
  if int_max_str <=? Z.abs n
  then Raise (ValueError "Exceeds the limit (4300 digits) for integer string conversion; use sys.set_int_max_str_digits() to increase the limit")
  else Ok (str_of_int n).

(** [sep.join(lines)]. *)
Fixpoint join (sep : string) (lines : list string) : string :=
  match lines with
  | [] => ""
  | [line] => line
  | line :: rest => (line ++ sep ++ join sep rest)%string
  end.

(** [s * n]. *)
Fixpoint times (s : string) (n : nat) : string :=
  match n with
  | O => ""
  | S n' => (s ++ times s n')%string
  end.

Definition newline : string := String (ascii_of_nat 10) "".

(** The last [d] decimal digits of [n]. *)
Fixpoint fraction_digits (d : nat) (n : Z) : string :=
  match d with
  | O => ""
  | S d' =>
      (fraction_digits d' (n / 10)
       ++ String (ascii_of_nat (48 + Z.to_nat (n mod 10))) "")%string
  end.

(** [m * 2^e * 10^d], rounded to the nearest integer, ties to even. *)
Definition scaled (m : positive) (e : Z) (d : nat) : Z :=
  let num := Zpos m * 10 ^ Z.of_nat d in
  if 0 <=? e then num * 2 ^ e
  else
    let den := 2 ^ (- e) in
    let q := num / den in
    let r := num mod den in
    if 2 * r <? den then q
    else if den <? 2 * r then q + 1
    else if Z.even q then q else q + 1.

(** [format(f, ".df")] for [1 <= d], the [{f:.df}] of an f-string: the
    decimal expansion correctly rounded at [d] digits, with the sign of the
    float, [inf], [-inf] and [nan]. *)
Definition format_fixed (d : nat) (f : float) : string :=
  match Prim2SF f with
  | S754_nan => "nan"
  | S754_infinity s => if s then "-inf" else "inf"
  | S754_zero s =>
      ((if s then "-" else "") ++ "0." ++ fraction_digits d 0)%string
  | S754_finite s m e =>
      let n := scaled m e d in
      ((if s then "-" else "") ++ str_of_int (n / 10 ^ Z.of_nat d) ++ "."
       ++ fraction_digits d n)%string
  end.

(** An uppercasing that agrees with [str.upper] on ASCII and on the Cyrillic
    letters U+0430..U+045F ([D0 B0]..[D1 9F] in UTF-8); every other byte is
    kept.  It instantiates the parameter of the report in the examples. *)
Fixpoint upper_bytes (l : list N) : list N :=
  match l with
  | [] => []
  | 208%N :: c :: rest =>
      if ((176 <=? c) && (c <=? 191))%N then 208%N :: (c - 32)%N :: upper_bytes rest
      else 208%N :: c :: upper_bytes rest
  | 209%N :: c :: rest =>
      if ((128 <=? c) && (c <=? 143))%N then 208%N :: (c + 32)%N :: upper_bytes rest
      else if ((144 <=? c) && (c <=? 159))%N then 208%N :: (c - 16)%N :: upper_bytes rest
      else 209%N :: c :: upper_bytes rest
  | c :: rest =>
      (if ((97 <=? c) && (c <=? 122))%N then (c - 32)%N else c) :: upper_bytes rest
  end.

Definition upper (s : string) : string :=
  string_of_list_ascii
    (map ascii_of_N (upper_bytes (map N_of_ascii (list_ascii_of_string s)))).

End PyText.

Definition AspectRatio_name (a : AspectRatio) : string :=
  match a with
  | WIDESCREEN => "WIDESCREEN"
  | CINEMATIC => "CINEMATIC"
  | STANDARD => "STANDARD"
  | SQUARE => "SQUARE"
  | PORTRAIT => "PORTRAIT"
  | VERTICAL => "VERTICAL"
  | EXTREME_VERTICAL => "EXTREME_VERTICAL"
  end.

Module Report.

Import PyText.

Section Formatter.

Variable upper : string -> string.

(** The body of the loop of [format_layout]: the seven lines of a panel. *)
Definition panel_lines (panel : Panel.t) : result (list string) :=
  let bleed := if Panel.is_bleed panel then " [BLEED]" else "" in
  let climax := if Panel.is_climax panel then " [CLIMAX]" else "" in
  id <- str (Panel.id panel) ;;
  ratio_width <- str (fst (AspectRatio_value (Panel.aspect_ratio panel))) ;;
  ratio_height <- str (snd (AspectRatio_value (Panel.aspect_ratio panel))) ;;
  Ok [ ("ПАНЕЛЬ " ++ id ++ ":")%string;
       ("  Позиция: (" ++ format_fixed 1 (Panel.x panel) ++ ", "
          ++ format_fixed 1 (Panel.y panel) ++ ")")%string;
       ("  Размер: " ++ format_fixed 1 (Panel.width panel) ++ " x "
          ++ format_fixed 1 (Panel.height panel))%string;
       ("  Соотношение: " ++ AspectRatio_name (Panel.aspect_ratio panel) ++ " ("
          ++ ratio_width ++ ":" ++ ratio_height ++ ")")%string;
       ("  Содержание: " ++ Panel.content panel ++ bleed ++ climax)%string;
       ("  Площадь: " ++ format_fixed 2 (Panel.area panel))%string;
       "" ].

(** The loop of [format_layout]. *)
Fixpoint panel_loop (panels : list Panel.t) (lines : list string)
  : result (list string) :=
  match panels with
  | [] => Ok lines
  | panel :: rest =>
      block <- panel_lines panel ;;
      panel_loop rest (lines ++ block)
  end.

(** The list [lines] of [format_layout] when it reaches its [return].
    [composition_type] is a property: it is computed, and can raise, each
    time the report reads it. *)
Definition format_lines (layout : PageLayout.t) : result (list string) :=
  let title := ("МАКЕТ СТРАНИЦЫ: " ++ upper (PageLayout.mood layout))%string in
  total <- str (PageLayout.total_panels layout) ;;
  let lines :=
    [ title;
      times "=" 50;
      ("Панелей: " ++ total ++ " | Настроение: " ++ PageLayout.mood layout)%string;
      ("Формат: " ++ PageLayout.target_format layout
         ++ " | Поток: " ++ dominant_flow layout)%string ] in
  composition <- composition_type layout ;;
  let lines := lines ++ [ ("Композиция: " ++ composition)%string; "" ] in
  let sorted_panels :=
    LayoutFormatter._sort_panels_by_reading_order
      (PageLayout.panels layout) (PageLayout.reading_direction layout) in
  lines <- panel_loop sorted_panels lines ;;
  composition <- composition_type layout ;;
  accent <-
    match sorted_panels with
    | first :: _ => str (Panel.id first)
    | [] => Ok "N/A"
    end ;;
  Ok (lines ++ [ "АНАЛИЗ КОМПОЗИЦИИ:";
                 ("- " ++ composition)%string;
                 ("- Доминирующий поток: " ++ dominant_flow layout)%string;
                 ("- Акцент на панели " ++ accent)%string;
                 "- Готов для художника" ]).

Definition format_layout (layout : PageLayout.t) : result string :=
  lines <- format_lines layout ;;
  Ok (join newline lines).

End Formatter.

(** [main]: the page of the example script, built, formatted and printed.
    [print] is a parameter: what writing a text to the standard output
    does, in a type of outcomes of its own, since it can raise what the
    engine never raises (a UnicodeEncodeError on a stream that cannot encode
    the text, an OSError).  [main] raises what the engine or the formatter
    raise before [print] is called, and ends as [print] ends. *)
Definition main (lower upper : string -> string) (rng : Type)
  (random : rng -> float * rng) (outcome : Type) (print : string -> outcome)
  (g : rng) : result (rng * outcome) :=
  generated <-
    LayoutEngine.generate_layout lower rng random Example.scenes
      Example.key_elements "эпичный боевик" "веб-комикс" WESTERN g ;;
  report <- format_layout upper (fst generated) ;;
  Ok (snd generated, print report).

End Report.

(* ================================================================== *)
(** * Facts about the builtins *)
(* ================================================================== *)

Module PyFacts.

Lemma bind_Ok {A B : Type} (r : result A) (k : A -> result B) (b : B) :
  bind r k = Ok b -> exists a, r = Ok a /\ k a = Ok b.
Proof.
  destruct r as [a | e]; simpl; intros H; [eauto | discriminate].
Qed.

Lemma bind_Raise {A B : Type} (r : result A) (k : A -> result B) (e : exn) :
  bind r k = Raise e -> r = Raise e \/ exists a, r = Ok a /\ k a = Raise e.
Proof.
  destruct r as [a | e']; simpl; intros H; [right; eauto | left; congruence].
Qed.

(** An appending loop builds the image of the list. *)
Lemma append_loop_map {A B : Type} (f : A -> B) (l : list A) (acc : list B) :
  fold_left (fun acc a => acc ++ [f a]) l acc = acc ++ map f l.
Proof.
  revert acc; induction l as [| a l IH]; intros acc; simpl.
  - now rewrite app_nil_r.
  - rewrite IH, <- app_assoc. reflexivity.
Qed.

(** A conditional accumulation is a sum of points. *)
Lemma accumulate_sum {A : Type} (test : A -> bool) (pts : A -> Z)
  (l : list A) (acc : Z) :
  fold_left (fun s a => if test a then s + pts a else s) l acc
  = acc + fold_right Z.add 0 (map (fun a => if test a then pts a else 0) l).
Proof.
  revert acc; induction l as [| a l IH]; intros acc; simpl.
  - lia.
  - rewrite IH. destruct (test a); lia.
Qed.

(** ** [max] and [index] *)

Lemma max_loop_spec (rest : list Z) (a : Z) :
  let m := fold_left (fun m v => if m <? v then v else m) rest a in
  a <= m /\ (forall v, In v rest -> v <= m) /\ (m = a \/ In m rest).
Proof.
  revert a; induction rest as [| b rest IH]; intros a; simpl.
  - repeat split; [lia | intros v [] | now left].
  - destruct (Z.ltb_spec a b) as [Hab | Hab].
    + destruct (IH b) as (H1 & H2 & H3).
      repeat split.
      * lia.
      * intros v [<- | Hv]; [exact H1 | now apply H2].
      * destruct H3 as [-> | H3]; right; [now left | now right].
    + destruct (IH a) as (H1 & H2 & H3).
      repeat split.
      * exact H1.
      * intros v [<- | Hv]; [lia | now apply H2].
      * destruct H3 as [-> | H3]; [now left | right; now right].
Qed.

Lemma max_spec (l : list Z) (m : Z) :
  Py.max l = Ok m -> In m l /\ forall v, In v l -> v <= m.
Proof.
  destruct l as [| a rest]; simpl; [discriminate |].
  intros H; injection H as <-.
  destruct (max_loop_spec rest a) as (H1 & H2 & H3).
  split.
  - destruct H3 as [-> | H3]; [now left | now right].
  - intros v [<- | Hv]; [exact H1 | now apply H2].
Qed.

Lemma max_returns (l : list Z) : l <> [] -> returns (Py.max l).
Proof.
  destruct l as [| a rest]; [congruence |]. intros _. eexists. reflexivity.
Qed.

Lemma index_spec (v : Z) (l : list Z) :
  In v l ->
  exists i, index v l = Ok i /\ nth_error l i = Some v /\
            forall j u, (j < i)%nat -> nth_error l j = Some u -> u <> v.
Proof.
  induction l as [| a l IH]; simpl; [intros [] |].
  intros Hin. destruct (Z.eqb_spec a v) as [-> | Hne].
  - exists O. repeat split. intros j u Hj. lia.
  - destruct Hin as [-> | Hin]; [congruence |].
    destruct (IH Hin) as (i & Hi & Hnth & Hfirst).
    exists (S i). rewrite Hi. simpl. repeat split; [exact Hnth |].
    intros [| j] u Hj; simpl.
    + intros [= <-]. exact Hne.
    + apply Hfirst. lia.
Qed.

(** ** [getitem], [setitem], [enumerate] *)

Lemma getitem_Ok {A : Type} (l : list A) (i : nat) (a : A) :
  getitem l i = Ok a <-> nth_error l i = Some a.
Proof.
  unfold getitem. destruct (nth_error l i); split; congruence.
Qed.

Lemma getitem_returns {A : Type} (l : list A) (i : nat) :
  (i < List.length l)%nat -> returns (getitem l i).
Proof.
  intros H. unfold getitem.
  destruct (nth_error l i) eqn:E; [eexists; reflexivity |].
  apply nth_error_None in E. lia.
Qed.

Lemma setitem_returns {A : Type} (l : list A) (i : nat) (v : A) :
  (i < List.length l)%nat ->
  exists l', setitem l i v = Ok l' /\ List.length l' = List.length l.
Proof.
  revert i; induction l as [| a l IH]; intros i; simpl; [lia |].
  destruct i as [| j]; intros H.
  - eexists. split; reflexivity.
  - destruct (IH j) as (l' & -> & Hlen); [lia |].
    simpl. eexists. split; [reflexivity |]. simpl. now rewrite Hlen.
Qed.

Lemma firstn_In {A : Type} (n : nat) (l : list A) (a : A) :
  In a (firstn n l) -> In a l.
Proof.
  intros H. rewrite <- (firstn_skipn n l). apply in_or_app. now left.
Qed.

(** ** Dictionaries *)

Lemma dict_get_cases {V : Type} (d : list (string * V)) (k : string) (default : V) :
  dict_get d k default = default \/ In (dict_get d k default) (map snd d).
Proof.
  induction d as [| [k' v] d IH]; simpl; [now left |].
  destruct (String.eqb k' k); [right; now left |].
  destruct IH as [IH | IH]; [now left | right; now right].
Qed.

End PyFacts.

(* ================================================================== *)
(** * Facts about binary64 arithmetic *)
(* ================================================================== *)

(** The engine converts the number of scenes to a float and multiplies it by
    a mood factor: the product must be shown finite for [int] to return.
    The bounds below are coarse; they only have to stay under the largest
    exponent of the format. *)

Module FloatFacts.

Lemma digits2_lower (p : positive) :
  2 ^ (Zpos (digits2_pos p) - 1) <= Zpos p.
Proof.
  induction p as [p IH | p IH |]; simpl digits2_pos.
  - rewrite Pos2Z.inj_succ.
    replace (Z.succ (Zpos (digits2_pos p)) - 1) with (Z.succ (Zpos (digits2_pos p) - 1)) by lia.
    rewrite Z.pow_succ_r by lia. lia.
  - rewrite Pos2Z.inj_succ.
    replace (Z.succ (Zpos (digits2_pos p)) - 1) with (Z.succ (Zpos (digits2_pos p) - 1)) by lia.
    rewrite Z.pow_succ_r by lia. lia.
  - simpl. lia.
Qed.

Lemma Zdigits2_bound (m D : Z) :
  0 <= m < 2 ^ D -> 0 <= D -> 0 <= Zdigits2 m <= D.
Proof.
  intros [Hm0 Hm] HD. destruct m as [| p | p]; simpl; [lia | | lia].
  split; [lia |].
  destruct (Z_le_gt_dec (Zpos (digits2_pos p)) D) as [H | H]; [exact H | exfalso].
  pose proof (digits2_lower p) as Hl.
  assert (2 ^ D <= 2 ^ (Zpos (digits2_pos p) - 1)) by (apply Z.pow_le_mono_r; lia).
  lia.
Qed.

Lemma shr_1_bound (mrs : shr_record) :
  0 <= shr_m mrs -> 0 <= shr_m (shr_1 mrs) <= shr_m mrs.
Proof.
  destruct mrs as [m r s]; simpl. intros Hm.
  destruct m as [| [p | p |] | p]; simpl; lia.
Qed.

Lemma iter_shr_1_bound (p : positive) (mrs : shr_record) :
  0 <= shr_m mrs -> 0 <= shr_m (iter_pos shr_1 p mrs) <= shr_m mrs.
Proof.
  revert mrs; induction p as [p IH | p IH |]; intros mrs Hm; simpl.
  - pose proof (shr_1_bound mrs Hm) as H1.
    pose proof (IH (shr_1 mrs) (proj1 H1)) as H2.
    pose proof (IH _ (proj1 H2)) as H3. lia.
  - pose proof (IH mrs Hm) as H2.
    pose proof (IH _ (proj1 H2)) as H3. lia.
  - now apply shr_1_bound.
Qed.

Lemma shr_fexp_bound (m e : Z) (l : location) (mrs : shr_record) (e' : Z) :
  shr_fexp prec emax m e l = (mrs, e') -> 0 <= m ->
  0 <= shr_m mrs <= m /\ (e' = e \/ e' = fexp prec emax (Zdigits2 m + e)).
Proof.
  unfold shr_fexp, shr. intros H Hm.
  assert (Hrec : shr_m (shr_record_of_loc m l) = m)
    by (destruct l as [| []]; reflexivity).
  destruct (fexp prec emax (Zdigits2 m + e) - e) as [| p | p] eqn:E;
    injection H as <- <-.
  - rewrite Hrec. split; [lia | now left].
  - split.
    + rewrite <- Hrec at 3. apply iter_shr_1_bound. rewrite Hrec. exact Hm.
    + right. lia.
  - rewrite Hrec. split; [lia | now left].
Qed.

Lemma round_nearest_even_bound (m : Z) (l : location) :
  m <= round_nearest_even m l <= m + 1.
Proof.
  destruct l as [| []]; simpl; try lia. destruct (Z.even m); lia.
Qed.

Lemma binary_round_aux_finite (sx : bool) (mx ex : Z) (lx : location) (D E : Z) :
  0 <= mx < 2 ^ D -> ex <= E -> 0 <= D ->
  D + 1 + Z.max (D + E) 0 <= 971 ->
  SF_finite (binary_round_aux prec emax sx mx ex lx)
            (D + 1) (D + 1 + Z.max (D + E) 0).
Proof.
  intros Hmx Hex HD Hfit. unfold binary_round_aux.
  destruct (shr_fexp prec emax mx ex lx) as [mrs' e'] eqn:E1.
  destruct (shr_fexp_bound _ _ _ _ _ E1 (proj1 Hmx)) as [Hm1 He1].
  pose proof (round_nearest_even_bound (shr_m mrs') (loc_of_shr_record mrs')) as Hr.
  set (m1 := round_nearest_even (shr_m mrs') (loc_of_shr_record mrs')) in *.
  destruct (shr_fexp prec emax m1 e' loc_Exact) as [mrs'' e''] eqn:E2.
  assert (Hm1' : 0 <= m1) by lia.
  destruct (shr_fexp_bound _ _ _ _ _ E2 Hm1') as [Hm2 He2].
  assert (Hpow : 2 ^ (D + 1) = 2 * 2 ^ D)
    by (rewrite Z.pow_add_r by lia; lia).
  pose proof (Zdigits2_bound mx D Hmx HD) as Hd.
  assert (Hd1 : 0 <= Zdigits2 m1 <= D + 1) by (apply Zdigits2_bound; lia).
  assert (He' : e' <= Z.max (D + E) 0).
  { destruct He1 as [-> | ->]; [lia |].
    unfold fexp, SpecFloat.emin, prec, emax. lia. }
  assert (He'' : e'' <= D + 1 + Z.max (D + E) 0).
  { destruct He2 as [-> | ->]; [lia |].
    unfold fexp, SpecFloat.emin, prec, emax. lia. }
  destruct (shr_m mrs'') as [| m | m] eqn:Em; [exact I | | simpl; lia].
  destruct (Z.leb_spec e'' (emax - prec)) as [_ | Hover].
  - simpl. split; lia.
  - unfold emax, prec in Hover. lia.
Qed.

Lemma iter_xO (p d : positive) : Zpos (Pos.iter xO p d) = Zpos p * 2 ^ Zpos d.
Proof.
  induction d as [| d IH] using Pos.peano_ind.
  - simpl. lia.
  - rewrite Pos.iter_succ, Pos2Z.inj_xO, IH, Pos2Z.inj_succ, Z.pow_succ_r by lia. lia.
Qed.

Lemma of_uint63_finite (i : Uint63.int) :
  SF_finite (Prim2SF (of_uint63 i)) 117 233.
Proof.
  rewrite of_uint63_spec.
  pose proof (Uint63.to_Z_bounded i) as Hb.
  change Uint63.wB with (2 ^ 63) in Hb.
  destruct (Uint63.to_Z i) as [| p | p]; simpl binary_normalize; [exact I | | lia].
  unfold binary_round.
  destruct (shl_align p 0 (fexp prec emax (Zpos (digits2_pos p) + 0))) as [mz ez] eqn:Es.
  assert (Hs : Zpos mz < 2 ^ 116 /\ ez <= 0).
  { unfold shl_align in Es.
    destruct (fexp prec emax (Zpos (digits2_pos p) + 0) - 0) as [| d | d] eqn:Ed;
      injection Es as <- <-.
    - split; [| lia].
      apply Z.lt_trans with (2 ^ 63); [exact (proj2 Hb) | apply Z.pow_lt_mono_r; lia].
    - split; [| lia].
      apply Z.lt_trans with (2 ^ 63); [exact (proj2 Hb) | apply Z.pow_lt_mono_r; lia].
    - rewrite iter_xO.
      unfold fexp, SpecFloat.emin, prec, emax in *.
      split; [| lia].
      assert (Hd : Zpos d <= 52) by lia.
      assert (2 ^ Zpos d <= 2 ^ 52) by (apply Z.pow_le_mono_r; lia).
      replace (2 ^ 116) with (2 ^ 63 * 2 ^ 53) by (rewrite <- Z.pow_add_r; [reflexivity | lia | lia]).
      assert (0 < 2 ^ Zpos d) by (apply Z.pow_pos_nonneg; lia).
      assert (2 ^ 52 < 2 ^ 53) by (apply Z.pow_lt_mono_r; lia).
      nia. }
  destruct Hs as [Hmz Hez].
  apply (binary_round_aux_finite false (Zpos mz) ez loc_Exact 116 0); lia.
Qed.

Lemma mul_finite (x c : float) (D1 E1 D2 E2 : Z) :
  SF_finite (Prim2SF x) D1 E1 -> SF_finite (Prim2SF c) D2 E2 ->
  0 <= D1 -> 0 <= D2 ->
  D1 + D2 + 1 + Z.max (D1 + D2 + (E1 + E2)) 0 <= 971 ->
  SF_finite (Prim2SF (x * c)%float)
            (D1 + D2 + 1) (D1 + D2 + 1 + Z.max (D1 + D2 + (E1 + E2)) 0).
Proof.
  intros Hx Hc HD1 HD2 Hfit. rewrite mul_spec. unfold SF64mul, SFmul.
  destruct (Prim2SF x) as [sx | sx | | sx mx ex];
    destruct (Prim2SF c) as [sc | sc | | sc mc ec];
    simpl in Hx, Hc; try contradiction; try exact I.
  destruct Hx as [Hmx Hex], Hc as [Hmc Hec].
  apply binary_round_aux_finite; try lia.
  rewrite Pos2Z.inj_mul, Z.pow_add_r by lia.
  assert (0 < 2 ^ D1) by (apply Z.pow_pos_nonneg; lia).
  assert (0 < 2 ^ D2) by (apply Z.pow_pos_nonneg; lia).
  nia.
Qed.

Lemma int_of_float_returns (f : float) (D E : Z) :
  SF_finite (Prim2SF f) D E -> Py.returns (Py.int_of_float f).
Proof.
  unfold Py.int_of_float, Py.returns.
  destruct (Prim2SF f); simpl; intros H; try contradiction; eexists; reflexivity.
Qed.

Lemma float_of_int_finite (n : Z) :
  0 <= n -> SF_finite (Prim2SF (Py.float_of_int n)) 117 233.
Proof.
  intros Hn. unfold Py.float_of_int.
  destruct (Z.ltb_spec n 0) as [Hneg | _]; [lia |].
  apply of_uint63_finite.
Qed.

(** ** Comparisons *)

Lemma digits2_upper (p : positive) : Zpos p < 2 ^ Zpos (digits2_pos p).
Proof.
  induction p as [p IH | p IH |]; simpl digits2_pos;
    try (rewrite Pos2Z.inj_succ, Z.pow_succ_r by lia; lia).
  reflexivity.
Qed.

Lemma valid_finite_bounds (s : bool) (m : positive) (e : Z) :
  valid_binary (S754_finite s m e) = true ->
  -1074 <= e <= 971 /\ Zpos m < 2 ^ 53.
Proof.
  unfold SpecFloat.valid_binary, bounded, canonical_mantissa, fexp, SpecFloat.emin, prec, emax.
  intros H. apply andb_true_iff in H. destruct H as [Hc He].
  apply Z.eqb_eq in Hc. apply Z.leb_le in He.
  split; [lia |].
  apply Z.lt_le_trans with (2 ^ Zpos (digits2_pos m)); [apply digits2_upper |].
  apply Z.pow_le_mono_r; lia.
Qed.

Lemma SFcompare_rank (x y : spec_float) :
  valid_binary x = true -> valid_binary y = true ->
  x <> S754_nan -> y <> S754_nan ->
  SFcompare x y = Some (SF_rank x ?= SF_rank y).
Proof.
  intros Hx Hy Hnx Hny.
  destruct x as [sx | sx | | sx mx ex]; [| | congruence |];
    destruct y as [sy | sy | | sy my ey]; try congruence;
    try (apply valid_finite_bounds in Hx); try (apply valid_finite_bounds in Hy);
    unfold SFcompare, SF_rank;
    change (2 ^ 53) with 9007199254740992 in *;
    f_equal; symmetry.
  all: try (destruct sx); try (destruct sy); cbn [cond_Zopp].
  all: try (apply Z.compare_eq_iff; lia).
  all: try (apply Z.compare_lt_iff; lia).
  all: try (apply Z.compare_gt_iff; lia).
  all: rewrite Pos.compare_cont_spec; cbn [Pos.switch_Eq];
    change (Pos.compare mx my) with (Zpos mx ?= Zpos my);
    destruct (Z.compare_spec ex ey) as [He | He | He];
    destruct (Z.compare_spec (Zpos mx) (Zpos my)) as [Hm | Hm | Hm]; cbn [CompOpp].
  all: try (apply Z.compare_eq_iff; lia).
  all: try (apply Z.compare_lt_iff; lia).
  all: try (apply Z.compare_gt_iff; lia).
Qed.

Lemma is_nan_Prim2SF (f : float) :
  is_nan f = false <-> Prim2SF f <> S754_nan.
Proof.
  unfold Prim2SF. destruct (is_nan f); split; try congruence.
  intros _.
  destruct (is_zero f); [discriminate |].
  destruct (is_infinity f); [discriminate |].
  destruct (Z.frexp f) as [r e].
  destruct (shr_fexp prec emax _ _ _) as [shr e'].
  destruct (shr_m shr); discriminate.
Qed.

Lemma ltb_rank (a b : float) :
  is_nan a = false -> is_nan b = false ->
  PrimFloat.ltb a b = (rank a <? rank b).
Proof.
  intros Ha Hb. rewrite ltb_spec. unfold SFltb, rank.
  rewrite SFcompare_rank;
    try apply Prim2SF_valid; try now apply is_nan_Prim2SF.
  unfold Z.ltb. destruct (_ ?= _); reflexivity.
Qed.

Lemma eqb_rank (a b : float) :
  is_nan a = false -> is_nan b = false ->
  PrimFloat.eqb a b = (rank a =? rank b).
Proof.
  intros Ha Hb. rewrite eqb_spec. unfold SFeqb, rank.
  rewrite SFcompare_rank;
    try apply Prim2SF_valid; try now apply is_nan_Prim2SF.
  rewrite Z.eqb_compare. reflexivity.
Qed.

Lemma opp_rank (a : float) : rank (- a)%float = - rank a.
Proof.
  unfold rank. rewrite opp_spec.
  destruct (Prim2SF a) as [s | s | | s m e]; simpl; try reflexivity;
    destruct s; simpl; lia.
Qed.

Lemma opp_is_nan (a : float) : is_nan a = false -> is_nan (- a)%float = false.
Proof.
  intros Ha. apply is_nan_Prim2SF. apply is_nan_Prim2SF in Ha.
  rewrite opp_spec. destruct (Prim2SF a); simpl; congruence.
Qed.

Lemma pair_lt_rank (a b : float * float) :
  is_nan (fst a) = false -> is_nan (snd a) = false ->
  is_nan (fst b) = false -> is_nan (snd b) = false ->
  Py.pair_lt a b = true <->
  rank (fst a) < rank (fst b) \/
  (rank (fst a) = rank (fst b) /\ rank (snd a) < rank (snd b)).
Proof.
  intros Ha1 Ha2 Hb1 Hb2. unfold Py.pair_lt.
  rewrite !eqb_rank, !ltb_rank by assumption.
  destruct (Z.eqb_spec (rank (fst a)) (rank (fst b)));
    destruct (Z.eqb_spec (rank (snd a)) (rank (snd b)));
    destruct (Z.ltb_spec (rank (fst a)) (rank (fst b)));
    destruct (Z.ltb_spec (rank (snd a)) (rank (snd b)));
    simpl; split; intros Hgoal; try discriminate; try reflexivity; lia.
Qed.

(** ** Magnitudes *)

Lemma digits2_of_bounds (p : positive) (k : Z) :
  2 ^ (k - 1) <= Zpos p < 2 ^ k -> Zpos (digits2_pos p) = k.
Proof.
  intros [Hlo Hhi].
  pose proof (digits2_lower p) as Hl. pose proof (digits2_upper p) as Hu.
  assert (Hk : 0 < k).
  { destruct (Z_lt_le_dec 0 k) as [H | H]; [exact H | exfalso].
    assert (2 ^ k <= 2 ^ 0) by (apply Z.pow_le_mono_r; lia).
    simpl in *. lia. }
  destruct (Z.lt_trichotomy (Zpos (digits2_pos p)) k) as [H | [H | H]]; [| exact H |].
  - assert (2 ^ Zpos (digits2_pos p) <= 2 ^ (k - 1)) by (apply Z.pow_le_mono_r; lia).
    lia.
  - assert (2 ^ k <= 2 ^ (Zpos (digits2_pos p) - 1)) by (apply Z.pow_le_mono_r; lia).
    lia.
Qed.

Lemma Zdigits2_bounds (m : Z) :
  0 < m -> 0 < Zdigits2 m /\ 2 ^ (Zdigits2 m - 1) <= m < 2 ^ Zdigits2 m.
Proof.
  destruct m as [| p | p]; try lia. intros _. simpl.
  split; [lia |]. split; [apply digits2_lower | apply digits2_upper].
Qed.

Lemma Zdigits2_of_bounds (m k : Z) :
  2 ^ (k - 1) <= m < 2 ^ k -> 0 < m -> Zdigits2 m = k.
Proof.
  destruct m as [| p | p]; try lia. intros H _. simpl. now apply digits2_of_bounds.
Qed.

Lemma Zdigits2_div_pow2 (m p : Z) :
  0 < m -> 0 <= p < Zdigits2 m ->
  0 < m / 2 ^ p /\ Zdigits2 (m / 2 ^ p) = Zdigits2 m - p.
Proof.
  intros Hm Hp. destruct (Zdigits2_bounds m Hm) as (Hd & Hlo & Hhi).
  set (d := Zdigits2 m) in *.
  assert (Hpp : 0 < 2 ^ p) by (apply Z.pow_pos_nonneg; lia).
  assert (H1 : 2 ^ (d - p - 1) <= m / 2 ^ p).
  { apply Z.div_le_lower_bound; [exact Hpp |].
    rewrite <- Z.pow_add_r by lia. now replace (p + (d - p - 1)) with (d - 1) by lia. }
  assert (H2 : m / 2 ^ p < 2 ^ (d - p)).
  { apply Z.div_lt_upper_bound; [exact Hpp |].
    rewrite <- Z.pow_add_r by lia. now replace (p + (d - p)) with d by lia. }
  assert (H0 : 0 < 2 ^ (d - p - 1)) by (apply Z.pow_pos_nonneg; lia).
  split; [lia |].
  apply Zdigits2_of_bounds; [| lia]. split; [exact H1 | exact H2].
Qed.

Lemma shr_1_m (mrs : shr_record) :
  0 <= shr_m mrs -> shr_m (shr_1 mrs) = shr_m mrs / 2.
Proof.
  destruct mrs as [m r s]; simpl. intros Hm.
  destruct m as [| [p | p |] | p]; cbn [shr_m]; try lia; try reflexivity.
  - apply Z.div_unique with 1; lia.
  - apply Z.div_unique with 0; lia.
Qed.

Lemma pow2_xO (p : positive) : 2 ^ Zpos p~0 = 2 ^ Zpos p * 2 ^ Zpos p.
Proof.
  assert (H : Zpos p~0 = Zpos p + Zpos p) by lia.
  rewrite H. apply Z.pow_add_r; lia.
Qed.

Lemma pow2_xI (p : positive) : 2 ^ Zpos p~1 = 2 * (2 ^ Zpos p * 2 ^ Zpos p).
Proof.
  assert (H : Zpos p~1 = Z.succ (Zpos p + Zpos p)) by lia.
  rewrite H, Z.pow_succ_r by lia. f_equal. apply Z.pow_add_r; lia.
Qed.

Lemma iter_shr_1_m (p : positive) (mrs : shr_record) :
  0 <= shr_m mrs ->
  shr_m (iter_pos shr_1 p mrs) = shr_m mrs / 2 ^ Zpos p.
Proof.
  revert mrs; induction p as [p IH | p IH |]; intros mrs Hm; simpl iter_pos.
  - pose proof (shr_1_bound mrs Hm) as H1.
    pose proof (iter_shr_1_bound p (shr_1 mrs) (proj1 H1)) as H2.
    rewrite IH by lia. rewrite IH by lia. rewrite shr_1_m by lia.
    assert (Hp : 0 < 2 ^ Zpos p) by (apply Z.pow_pos_nonneg; lia).
    rewrite !Z.div_div by lia. rewrite pow2_xI. f_equal; lia.
  - pose proof (iter_shr_1_bound p mrs Hm) as H2.
    rewrite IH by lia. rewrite IH by lia.
    assert (Hp : 0 < 2 ^ Zpos p) by (apply Z.pow_pos_nonneg; lia).
    rewrite !Z.div_div by lia. rewrite pow2_xO. reflexivity.
  - rewrite shr_1_m by lia. reflexivity.
Qed.

(** One step of [shr_fexp] keeps the magnitude [digits + exponent] of a
    positive mantissa in the normal range. *)
Lemma shr_fexp_magnitude (m e : Z) (l : location) (mrs : shr_record) (e' : Z) :
  shr_fexp prec emax m e l = (mrs, e') -> 0 < m ->
  -1021 <= Zdigits2 m + e ->
  0 < shr_m mrs /\
  Zdigits2 (shr_m mrs) + e' = Zdigits2 m + e /\
  e' = Z.max e (Zdigits2 m + e - 53).
Proof.
  unfold shr_fexp, shr. intros H Hm Hnormal.
  assert (Hrec : shr_m (shr_record_of_loc m l) = m)
    by (destruct l as [| []]; reflexivity).
  destruct (Zdigits2_bounds m Hm) as (Hd & _).
  assert (Hfexp : fexp prec emax (Zdigits2 m + e) = Zdigits2 m + e - 53)
    by (unfold fexp, SpecFloat.emin, prec, emax; lia).
  rewrite Hfexp in H.
  destruct (Zdigits2 m + e - 53 - e) as [| p | p] eqn:E; injection H as <- <-.
  - rewrite Hrec. lia.
  - rewrite iter_shr_1_m by (rewrite Hrec; lia). rewrite Hrec.
    destruct (Zdigits2_div_pow2 m (Zpos p) Hm) as [Hpos Hdig]; lia.
  - rewrite Hrec. lia.
Qed.

Lemma Zdigits2_le (a b : Z) : 0 < a <= b -> Zdigits2 a <= Zdigits2 b.
Proof.
  intros [Ha Hab].
  destruct (Zdigits2_bounds a Ha) as (Hda & Hla & _).
  destruct (Zdigits2_bounds b) as (Hdb & _ & Hub); [lia |].
  assert (H : 2 ^ (Zdigits2 a - 1) < 2 ^ Zdigits2 b) by lia.
  apply Z.pow_lt_mono_r_iff in H; lia.
Qed.

Lemma Zdigits2_succ (a b : Z) : 0 < a <= b -> b <= a + 1 -> Zdigits2 b <= Zdigits2 a + 1.
Proof.
  intros [Ha Hab] Hb.
  destruct (Zdigits2_bounds a Ha) as (Hda & _ & Hua).
  destruct (Zdigits2_bounds b) as (Hdb & Hlb & _); [lia |].
  assert (H : 2 ^ (Zdigits2 b - 1) < 2 ^ (Zdigits2 a + 1)).
  { rewrite (Z.pow_add_r 2 (Zdigits2 a) 1) by lia. simpl (2 ^ 1). lia. }
  apply Z.pow_lt_mono_r_iff in H; lia.
Qed.

(** Rounding keeps the magnitude, up to one binade. *)
Lemma binary_round_aux_magnitude (sx : bool) (mx ex : Z) (lx : location) :
  0 < mx -> -1021 <= Zdigits2 mx + ex -> ex <= 971 -> Zdigits2 mx + ex <= 1023 ->
  exists m e,
    binary_round_aux prec emax sx mx ex lx = S754_finite sx m e /\
    Zdigits2 mx + ex <= Zpos (digits2_pos m) + e <= Zdigits2 mx + ex + 1.
Proof.
  intros Hmx Hnormal Hex Hfit. unfold binary_round_aux.
  destruct (shr_fexp prec emax mx ex lx) as [mrs' e'] eqn:E1.
  destruct (shr_fexp_magnitude _ _ _ _ _ E1 Hmx Hnormal) as (Hm' & Hmag' & He').
  pose proof (round_nearest_even_bound (shr_m mrs') (loc_of_shr_record mrs')) as Hr.
  set (m1 := round_nearest_even (shr_m mrs') (loc_of_shr_record mrs')) in *.
  assert (Hd1 : Zdigits2 (shr_m mrs') <= Zdigits2 m1 <= Zdigits2 (shr_m mrs') + 1).
  { split; [apply Zdigits2_le | apply Zdigits2_succ]; lia. }
  destruct (shr_fexp prec emax m1 e' loc_Exact) as [mrs'' e''] eqn:E2.
  destruct (shr_fexp_magnitude _ _ _ _ _ E2) as (Hm'' & Hmag'' & He''); [lia | lia |].
  destruct (shr_m mrs'') as [| m | m] eqn:Em; try lia.
  exists m, e''.
  destruct (Z.leb_spec e'' (emax - prec)) as [_ | Hover].
  - split; [reflexivity |]. simpl Zdigits2 in Hmag''. lia.
  - unfold emax, prec in Hover. lia.
Qed.

Lemma digits2_iter_xO (p d : positive) :
  Zpos (digits2_pos (Pos.iter xO p d)) = Zpos (digits2_pos p) + Zpos d.
Proof.
  induction d as [| d IH] using Pos.peano_ind.
  - simpl. lia.
  - rewrite Pos.iter_succ. simpl digits2_pos. lia.
Qed.

Lemma of_uint63_magnitude (i : Uint63.int) :
  32 <= Uint63.to_Z i ->
  exists m e,
    Prim2SF (of_uint63 i) = S754_finite false m e /\
    6 <= Zpos (digits2_pos m) + e <= 64.
Proof.
  intros Hi. rewrite of_uint63_spec.
  pose proof (Uint63.to_Z_bounded i) as Hb.
  change Uint63.wB with (2 ^ 63) in Hb.
  destruct (Uint63.to_Z i) as [| p | p]; try lia. simpl binary_normalize.
  assert (Hd : 6 <= Zpos (digits2_pos p) <= 63).
  { pose proof (digits2_lower p) as Hl. pose proof (digits2_upper p) as Hu.
    split.
    - assert (H : 2 ^ 5 < 2 ^ Zpos (digits2_pos p)) by (change (2 ^ 5) with 32; lia).
      apply Z.pow_lt_mono_r_iff in H; lia.
    - assert (H : 2 ^ (Zpos (digits2_pos p) - 1) < 2 ^ 63) by lia.
      apply Z.pow_lt_mono_r_iff in H; lia. }
  unfold binary_round.
  set (f := fexp prec emax (Zpos (digits2_pos p) + 0)).
  assert (Hf : f = Z.max (Zpos (digits2_pos p) - 53) (-1074))
    by (unfold f, fexp, SpecFloat.emin, prec, emax; lia).
  clearbody f.
  destruct (shl_align p 0 f) as [mz ez] eqn:Es.
  assert (Hs : Zpos (digits2_pos mz) + ez = Zpos (digits2_pos p) /\ ez <= 0).
  { unfold shl_align in Es.
    destruct (f - 0) as [| d | d] eqn:Ed; injection Es as <- <-; try lia.
    rewrite digits2_iter_xO. lia. }
  destruct Hs as [Hmag Hez].
  destruct (binary_round_aux_magnitude false (Zpos mz) ez loc_Exact)
    as (m & e & Hr & Hm); simpl Zdigits2; try lia.
  exists m, e. split; [exact Hr |]. simpl Zdigits2 in Hm. lia.
Qed.

Lemma mul_magnitude (x c : float) (mx mc : positive) (ex ec : Z) :
  Prim2SF x = S754_finite false mx ex ->
  Prim2SF c = S754_finite false mc ec ->
  -400 <= Zpos (digits2_pos mx) + ex <= 400 ->
  -400 <= Zpos (digits2_pos mc) + ec <= 400 ->
  exists m e,
    Prim2SF (x * c)%float = S754_finite false m e /\
    Zpos (digits2_pos mx) + ex + (Zpos (digits2_pos mc) + ec) - 1
    <= Zpos (digits2_pos m) + e.
Proof.
  intros Hx Hc Hmx Hmc. rewrite mul_spec, Hx, Hc. unfold SF64mul, SFmul.
  cbn [xorb].
  pose proof (digits2_lower mx) as Hlx. pose proof (digits2_upper mx) as Hux.
  pose proof (digits2_lower mc) as Hlc. pose proof (digits2_upper mc) as Huc.
  set (dx := Zpos (digits2_pos mx)) in *. set (dc := Zpos (digits2_pos mc)) in *.
  assert (Hdx : 0 < dx) by (unfold dx; lia).
  assert (Hdc : 0 < dc) by (unfold dc; lia).
  assert (Hprod : 2 ^ (dx + dc - 2) <= Zpos (mx * mc) < 2 ^ (dx + dc)).
  { rewrite Pos2Z.inj_mul.
    replace (dx + dc - 2) with ((dx - 1) + (dc - 1)) by lia.
    rewrite !Z.pow_add_r by lia.
    assert (0 < 2 ^ (dx - 1)) by (apply Z.pow_pos_nonneg; lia).
    assert (0 < 2 ^ (dc - 1)) by (apply Z.pow_pos_nonneg; lia).
    split; nia. }
  assert (Hd : dx + dc - 1 <= Zdigits2 (Zpos (mx * mc)) <= dx + dc).
  { destruct (Zdigits2_bounds (Zpos (mx * mc))) as (Hd0 & Hl & Hu); [lia |].
    split.
    - assert (H : 2 ^ (dx + dc - 2) < 2 ^ Zdigits2 (Zpos (mx * mc))) by lia.
      apply Z.pow_lt_mono_r_iff in H; lia.
    - assert (H : 2 ^ (Zdigits2 (Zpos (mx * mc)) - 1) < 2 ^ (dx + dc)) by lia.
      apply Z.pow_lt_mono_r_iff in H; lia. }
  destruct (binary_round_aux_magnitude false (Zpos (mx * mc)) (ex + ec) loc_Exact)
    as (m & e & Hr & Hm); cbn [Zdigits2] in *; try lia.
  exists m, e. split; [exact Hr | lia].
Qed.

Lemma truncation_lower_bound (m : positive) (e k : Z) :
  0 <= k -> k + 1 <= Zpos (digits2_pos m) + e ->
  2 ^ k <= Z.shiftl (Zpos m) e.
Proof.
  intros Hk Hmag. pose proof (digits2_lower m) as Hl.
  set (d := Zpos (digits2_pos m)) in *.
  assert (Hd : 0 < d) by (unfold d; lia).
  destruct (Z_le_gt_dec 0 e) as [He | He].
  - rewrite Z.shiftl_mul_pow2 by lia.
    assert (H1 : 2 ^ k <= 2 ^ (d - 1 + e)) by (apply Z.pow_le_mono_r; lia).
    rewrite Z.pow_add_r in H1 by lia.
    assert (0 < 2 ^ e) by (apply Z.pow_pos_nonneg; lia).
    nia.
  - rewrite Z.shiftl_div_pow2 by lia.
    assert (Hp : 0 < 2 ^ (- e)) by (apply Z.pow_pos_nonneg; lia).
    apply Z.div_le_lower_bound; [exact Hp |].
    rewrite <- Z.pow_add_r by lia.
    apply Z.le_trans with (2 ^ (d - 1)); [| exact Hl].
    apply Z.pow_le_mono_r; lia.
Qed.

End FloatFacts.

(* ================================================================== *)
(** * Facts about the engine *)
(* ================================================================== *)

Module EngineFacts.

Import LayoutEngine PyFacts FloatFacts.

(** ** Panel count *)

Lemma format_limit_range (target_format : string) :
  4 <= Spec.format_limit target_format <= 9.
Proof.
  unfold Spec.format_limit.
  destruct (dict_get_cases format_limits target_format 8) as [-> | H]; [lia |].
  remember (dict_get format_limits target_format 8) as limit eqn:E. clear E.
  simpl in H. repeat (destruct H as [<- | H]; [lia |]). destruct H.
Qed.

Lemma mood_multiplier_finite (mood : string) :
  SF_finite (Prim2SF (Spec.mood_multiplier mood)) 53 0.
Proof.
  unfold Spec.mood_multiplier.
  destruct (dict_get_cases mood_factors mood 1.0%float) as [-> | H].
  - vm_compute. split; [reflexivity | discriminate].
  - remember (dict_get mood_factors mood 1.0%float) as factor eqn:E. clear E.
    simpl in H.
    repeat (destruct H as [<- | H];
            [vm_compute; split; [reflexivity | discriminate] |]).
    destruct H.
Qed.

Lemma product_truncates (n : nat) (mood : string) :
  returns (int_of_float (float_of_int (Z.of_nat n) * Spec.mood_multiplier mood)%float).
Proof.
  eapply int_of_float_returns.
  apply (mul_finite _ _ 117 233 53 0).
  - apply float_of_int_finite. lia.
  - apply mood_multiplier_finite.
  - lia.
  - lia.
  - lia.
Qed.

Lemma calculate_panel_count_truncated (scenes : list string) (mood target_format : string) :
  _calculate_panel_count scenes mood target_format
  = Spec.panel_count_truncated (List.length scenes) mood target_format.
Proof. reflexivity. Qed.

Lemma calculate_panel_count_returns (scenes : list string) (mood target_format : string) :
  returns (_calculate_panel_count scenes mood target_format).
Proof.
  rewrite calculate_panel_count_truncated. unfold Spec.panel_count_truncated.
  destruct (product_truncates (List.length scenes) mood) as [c ->].
  eexists. reflexivity.
Qed.

Lemma calculate_panel_count_range (scenes : list string) (mood target_format : string) (pc : Z) :
  _calculate_panel_count scenes mood target_format = Ok pc ->
  3 <= pc <= Spec.format_limit target_format.
Proof.
  rewrite calculate_panel_count_truncated. unfold Spec.panel_count_truncated.
  intros H. apply bind_Ok in H. destruct H as (c & _ & H).
  injection H as <-. unfold Spec.clamp.
  pose proof (format_limit_range target_format). lia.
Qed.

Lemma mood_case (mood : string) :
  In (Spec.mood_multiplier mood, Spec.mood_tenths_of mood) Spec.mood_cases.
Proof.
  unfold Spec.mood_multiplier, Spec.mood_tenths_of, mood_factors, Spec.mood_tenths, Spec.mood_cases.
  simpl.
  repeat match goal with
         | |- context [if ?b then _ else _] => destruct b
         end; auto 6.
Qed.

Lemma mood_case_magnitude (c : float) (k : Z) :
  In (c, k) Spec.mood_cases ->
  8 <= k /\
  exists mc ec, Prim2SF c = S754_finite false mc ec /\
                0 <= Zpos (digits2_pos mc) + ec <= 1.
Proof.
  unfold Spec.mood_cases. simpl.
  intros H. repeat (destruct H as [H | H]; [injection H as <- <- |]); try contradiction.
  all: split; [lia |]; eexists; eexists; split; [vm_compute; reflexivity | simpl; lia].
Qed.

Lemma large_product (n : Z) (c : float) (k : Z) :
  32 <= n < 2 ^ 63 -> In (c, k) Spec.mood_cases ->
  exists t, int_of_float (float_of_int n * c)%float = Ok t /\ 16 <= t.
Proof.
  intros Hn Hc.
  destruct (mood_case_magnitude c k Hc) as (_ & mc & ec & Hpc & Hmc).
  unfold float_of_int. destruct (Z.ltb_spec n 0) as [Hneg | _]; [lia |].
  assert (Hto : Uint63.to_Z (Uint63.of_Z n) = n).
  { rewrite Uint63.of_Z_spec. apply Z.mod_small.
    change Uint63.wB with (2 ^ 63). lia. }
  destruct (of_uint63_magnitude (Uint63.of_Z n)) as (m1 & e1 & Hp1 & Hm1);
    [rewrite Hto; lia |].
  destruct (mul_magnitude _ _ _ _ _ _ Hp1 Hpc) as (m & e & Hp & Hm); try lia.
  unfold int_of_float. rewrite Hp. cbn [cond_Zopp].
  eexists. split; [reflexivity |].
  change 16 with (2 ^ 4). apply truncation_lower_bound; lia.
Qed.

(** The float product never disagrees with the integer quotient once
    clamped. *)
Lemma panel_count_exact_spec (n : nat) (mood target_format : string) :
  Z.of_nat n < 2 ^ 63 ->
  Spec.panel_count_truncated n mood target_format
  = Ok (Spec.panel_count_exact n mood target_format).
Proof.
  intros Hn. unfold Spec.panel_count_truncated, Spec.panel_count_exact, Spec.clamp.
  pose proof (mood_case mood) as Hcase.
  pose proof (format_limit_range target_format) as Hlimit.
  set (c := Spec.mood_multiplier mood) in *.
  set (k := Spec.mood_tenths_of mood) in *.
  destruct (Nat.lt_ge_cases n 32) as [Hsmall | Hlarge].
  - assert (Hall : Spec.small_counts_agree = true) by (vm_compute; reflexivity).
    unfold Spec.small_counts_agree in Hall. rewrite forallb_forall in Hall.
    specialize (Hall (c, k) Hcase). rewrite forallb_forall in Hall.
    assert (Hin : In n (seq 0 32)) by (apply in_seq; lia).
    specialize (Hall n Hin). cbn [fst snd] in Hall.
    destruct (int_of_float (float_of_int (Z.of_nat n) * c)%float) as [t | e];
      [| discriminate].
    apply Z.eqb_eq in Hall. cbn [bind]. f_equal. lia.
  - destruct (large_product (Z.of_nat n) c k) as (t & Ht & Hbig); [lia | exact Hcase |].
    rewrite Ht. cbn [bind]. f_equal.
    destruct (mood_case_magnitude c k Hcase) as (Hk & _).
    assert (25 <= Z.of_nat n * k / 10).
    { apply Z.div_le_lower_bound; nia. }
    lia.
Qed.

(** ** Templates *)

Lemma templates_lookup_single (pc : Z) (ts : list (list Rect)) :
  templates_lookup LAYOUT_TEMPLATES pc = Some ts -> List.length ts = 1%nat.
Proof.
  unfold LAYOUT_TEMPLATES. simpl.
  repeat match goal with
         | |- context [if ?c then _ else _] => destruct c
         end; intros H; try discriminate; injection H as <-; reflexivity.
Qed.

(** No panel count has a second variant, so the style never selects. *)
Lemma select_layout_template_mood (pc : Z) (mood : string) :
  _select_layout_template pc mood = _select_layout_template pc "".
Proof.
  unfold _select_layout_template.
  destruct (templates_lookup LAYOUT_TEMPLATES pc) as [ts |] eqn:E.
  - apply templates_lookup_single in E. simpl bind.
    destruct ts as [| t [| t' ts]]; try discriminate.
    simpl. now rewrite !andb_false_r.
  - destruct (_generate_grid_layout pc) as [grid | e]; simpl; [| reflexivity].
    now rewrite !andb_false_r.
Qed.

Lemma layout_rects_select (pc : Z) (mood : string) (ci : nat) :
  bind (_select_layout_template pc mood) (fun t => _adjust_for_climax t ci)
  = Spec.layout_rects pc ci.
Proof.
  unfold Spec.layout_rects. now rewrite select_layout_template_mood.
Qed.

Ltac reachable_count pc :=
  let H := fresh in
  assert (H : pc = 3 \/ pc = 4 \/ pc = 5 \/ pc = 6 \/ pc = 7 \/ pc = 8 \/ pc = 9)
    by lia;
  repeat (destruct H as [H | H]); subst pc.

(** A climax index at or beyond the template leaves it as it is. *)
Lemma layout_rects_beyond (pc : Z) (ci : nat) :
  3 <= pc <= 9 -> (Z.to_nat pc <= ci)%nat ->
  Spec.layout_rects pc ci = Spec.layout_rects pc (Z.to_nat pc).
Proof.
  intros Hpc Hci. unfold Spec.layout_rects.
  reachable_count pc;
    match goal with
    | |- context [_select_layout_template ?k ?m] =>
        let t := eval vm_compute in (_select_layout_template k m) in
        change (_select_layout_template k m) with t
    end;
    simpl bind; unfold _adjust_for_climax; simpl List.length;
    match goal with
    | |- context [(?a <=? ci)%nat] =>
        replace (a <=? ci)%nat with true
          by (symmetry; apply Nat.leb_le; simpl in Hci; lia)
    end; reflexivity.
Qed.

Lemma for_all_reachable_spec (test : Z -> list Rect -> bool) :
  Spec.for_all_reachable test = true ->
  forall pc ci, 3 <= pc <= 9 ->
    exists rs, Spec.layout_rects pc ci = Ok rs /\ test pc rs = true.
Proof.
  unfold Spec.for_all_reachable. intros H pc ci Hpc.
  rewrite forallb_forall in H.
  assert (Hin : In pc Spec.reachable_counts)
    by (unfold Spec.reachable_counts; simpl; lia).
  specialize (H pc Hin). rewrite forallb_forall in H.
  assert (Hcase : forall c, (c <= Z.to_nat pc)%nat ->
            exists rs, Spec.layout_rects pc c = Ok rs /\ test pc rs = true).
  { intros c Hc.
    assert (Hc' : In c (Spec.climax_cases pc))
      by (unfold Spec.climax_cases; apply in_seq; lia).
    specialize (H c Hc'). unfold Spec.is_ok in H.
    destruct (Spec.layout_rects pc c) as [rs | e]; [eauto | discriminate]. }
  destruct (Nat.le_gt_cases ci (Z.to_nat pc)) as [Hle | Hgt].
  - now apply Hcase.
  - rewrite layout_rects_beyond by lia. now apply Hcase.
Qed.

Lemma layout_rects_returns (pc : Z) (ci : nat) :
  3 <= pc <= 9 ->
  exists rs, Spec.layout_rects pc ci = Ok rs /\ List.length rs = Z.to_nat pc.
Proof.
  intros Hpc.
  assert (Hall : Spec.all_rects_counted = true) by (vm_compute; reflexivity).
  destruct (for_all_reachable_spec _ Hall pc ci Hpc) as (rs & Hrs & Hlen).
  exists rs. split; [exact Hrs | now apply Nat.eqb_eq].
Qed.

Lemma layout_rects_within_page (pc : Z) (ci : nat) (rs : list Rect) :
  3 <= pc <= 9 -> Spec.layout_rects pc ci = Ok rs ->
  Forall (fun r => Spec.rect_within_page r = true) rs.
Proof.
  intros Hpc Hrs.
  assert (Hall : Spec.all_rects_within_page = true) by (vm_compute; reflexivity).
  destruct (for_all_reachable_spec _ Hall pc ci Hpc) as (rs' & Hrs' & Hok).
  rewrite Hrs in Hrs'. injection Hrs' as <-.
  apply Forall_forall. now apply forallb_forall.
Qed.

Lemma layout_rects_compositions (pc : Z) (ci k : nat) (rs : list Rect) :
  3 <= pc <= 9 -> Spec.layout_rects pc ci = Ok rs ->
  (1 <= k <= Z.to_nat pc)%nat ->
  returns (Spec.analyze_rects (firstn k rs)).
Proof.
  intros Hpc Hrs Hk.
  assert (Hall : Spec.all_compositions_defined = true) by (vm_compute; reflexivity).
  destruct (for_all_reachable_spec _ Hall pc ci Hpc) as (rs' & Hrs' & Hok).
  rewrite Hrs in Hrs'. injection Hrs' as <-.
  rewrite forallb_forall in Hok.
  assert (Hin : In k (seq 1 (Z.to_nat pc))) by (apply in_seq; lia).
  specialize (Hok k Hin). unfold Spec.is_ok in Hok.
  destruct (Spec.analyze_rects (firstn k rs)) as [c | e];
    [eexists; reflexivity | discriminate].
Qed.

(** ** Climax detection, panel construction, the whole call *)

Section WithParameters.

Variable lower : string -> string.
Variable rng : Type.
Variable random : rng -> float * rng.

(** The loops of [_find_climax] compute the score of the specification. *)
Lemma scene_score_spec (key_elements : list string) (scene : string) :
  scene_score lower key_elements scene = Spec.score lower key_elements scene.
Proof.
  unfold scene_score, Spec.score, Spec.sumZ.
  rewrite (accumulate_sum (fun element => contains (lower element) (lower scene))
                          (fun _ => 3)).
  rewrite (accumulate_sum (fun kw => contains (fst kw) (lower scene)) snd).
  reflexivity.
Qed.

Lemma climax_scores_spec (scenes key_elements : list string) :
  climax_scores lower scenes key_elements
  = map (Spec.score lower key_elements) scenes.
Proof.
  unfold climax_scores. rewrite append_loop_map. simpl.
  apply map_ext. intros scene. apply scene_score_spec.
Qed.

Lemma find_climax_spec (scenes key_elements : list string) :
  scenes <> [] ->
  exists ci,
    _find_climax lower scenes key_elements = Ok ci /\
    (ci < List.length scenes)%nat /\
    Spec.first_maximum (map (Spec.score lower key_elements) scenes) ci.
Proof.
  intros Hne. unfold _find_climax. rewrite climax_scores_spec.
  set (scores := map (Spec.score lower key_elements) scenes).
  assert (Hs : scores <> [])
    by (unfold scores; destruct scenes; [congruence | discriminate]).
  destruct (max_returns scores Hs) as [m Hm].
  destruct (max_spec scores m Hm) as [Hin Hmax].
  destruct (index_spec m scores Hin) as (ci & Hci & Hnth & Hfirst).
  exists ci. destruct scores as [| s0 scores'] eqn:Es; [congruence |].
  rewrite <- Es in *. rewrite Hm. simpl bind. rewrite Hci.
  split; [reflexivity |]. split.
  - assert (Hlt : (ci < List.length scores)%nat)
      by (apply nth_error_Some; congruence).
    unfold scores in Hlt. now rewrite length_map in Hlt.
  - exists m. split; [exact Hnth |]. split.
    + intros j v Hj. apply Hmax. eapply nth_error_In; eauto.
    + intros j v Hlt Hj.
      assert (v <= m) by (apply Hmax; eapply nth_error_In; eauto).
      assert (v <> m) by (eapply Hfirst; eauto).
      lia.
Qed.

Lemma create_panels_loop_spec (scenes : list string) (ci : nat) (rs : list Rect) :
  forall (k : nat) (acc : list Panel.t) (g : rng),
  exists (news : list Panel.t) (g' : rng),
    create_panels_loop lower rng random (combine (seq k (List.length rs)) rs)
                       scenes ci acc g = Ok (acc ++ news, g') /\
    List.length news = Nat.min (List.length rs) (List.length scenes - k) /\
    forall j p, nth_error news j = Some p ->
      exists r, nth_error rs j = Some r /\ Spec.panel_at lower scenes ci (k + j) r p.
Proof.
  induction rs as [| [[[x y] w] h] rs IH]; intros k acc g.
  - exists [], g. simpl. rewrite app_nil_r.
    repeat split. intros [| j] p Hj; discriminate.
  - cbn [List.length seq combine create_panels_loop].
    destruct (Nat.leb_spec (List.length scenes) k) as [Hout | Hin].
    + exists [], g. rewrite app_nil_r.
      split; [reflexivity |]. split; [cbn [List.length]; lia |].
      intros [| j] p Hj; discriminate.
    + destruct (getitem_returns scenes k Hin) as [content Hc].
      rewrite Hc. cbn [bind].
      set (is_climax := Nat.eqb k ci).
      set (drawn := if is_climax
                    then let '(u, g') := random g in (PrimFloat.ltb 0.7%float u, g')
                    else (false, g)).
      assert (Hbleed : fst drawn = true -> is_climax = true).
      { unfold drawn. destruct is_climax; [reflexivity |]. simpl. congruence. }
      destruct drawn as [is_bleed g1]. simpl in Hbleed.
      set (panel := Panel.mk (Z.of_nat k + 1) x y w h
                             (_determine_aspect_ratio lower content) content
                             is_bleed is_climax).
      destruct (IH (S k) (acc ++ [panel]) g1) as (news & g' & Hloop & Hlen & Hnews).
      exists (panel :: news), g'.
      rewrite Hloop, <- app_assoc. split; [reflexivity |]. split.
      * simpl List.length. rewrite Hlen. lia.
      * intros [| j] p Hj; simpl in Hj.
        -- injection Hj as <-. exists (x, y, w, h). split; [reflexivity |].
           rewrite Nat.add_0_r. apply getitem_Ok in Hc.
           unfold Spec.panel_at, panel. simpl. repeat split; auto.
        -- destruct (Hnews j p Hj) as (r & Hr & Hp).
           exists r. split; [exact Hr |].
           now replace (k + S j)%nat with (S k + j)%nat by lia.
Qed.

Lemma create_panels_spec (scenes : list string) (ci : nat) (rs : list Rect) (g : rng) :
  exists (panels : list Panel.t) (g' : rng),
    _create_panels lower rng random rs scenes ci g = Ok (panels, g') /\
    List.length panels = Nat.min (List.length rs) (List.length scenes) /\
    forall j p, nth_error panels j = Some p ->
      exists r, nth_error rs j = Some r /\ Spec.panel_at lower scenes ci j r p.
Proof.
  unfold _create_panels, enumerate.
  destruct (create_panels_loop_spec scenes ci rs 0 [] g)
    as (news & g' & Hloop & Hlen & Hnews).
  exists news, g'. split; [exact Hloop |]. split.
  - rewrite Hlen. now rewrite Nat.sub_0_r.
  - exact Hnews.
Qed.

(** The rectangles of the panels are a prefix of the template. *)
Lemma panels_rects (scenes : list string) (ci : nat) (rs : list Rect)
  (panels : list Panel.t) :
  List.length panels = Nat.min (List.length rs) (List.length scenes) ->
  (forall j p, nth_error panels j = Some p ->
     exists r, nth_error rs j = Some r /\ Spec.panel_at lower scenes ci j r p) ->
  map rect_of panels = firstn (List.length scenes) rs.
Proof.
  intros Hlen Hnth. apply nth_error_ext. intros j.
  rewrite nth_error_map.
  destruct (nth_error panels j) as [p |] eqn:Ep; simpl.
  - destruct (Hnth j p Ep) as (r & Hr & Hp & _).
    assert (j < List.length panels)%nat by (apply nth_error_Some; congruence).
    rewrite nth_error_firstn.
    replace (j <? List.length scenes)%nat with true
      by (symmetry; apply Nat.ltb_lt; lia).
    now rewrite Hr, Hp.
  - apply nth_error_None in Ep. symmetry. apply nth_error_None.
    rewrite length_firstn. lia.
Qed.

Lemma generate_layout_returns (scenes key_elements : list string)
  (mood target_format : string) (reading_direction : ReadingDirection) (g : rng) :
  scenes <> [] ->
  exists layout g' pc ci rs,
    generate_layout lower rng random scenes key_elements mood target_format
                    reading_direction g = Ok (layout, g') /\
    Spec.generated lower rng random scenes key_elements mood target_format
                   reading_direction g
              layout g' pc ci rs.
Proof.
  intros Hne.
  destruct (calculate_panel_count_returns scenes mood target_format) as [pc Hpc].
  pose proof (calculate_panel_count_range _ _ _ _ Hpc) as Hrange.
  pose proof (format_limit_range target_format) as Hlimit.
  destruct (find_climax_spec scenes key_elements Hne) as (ci & Hci & Hlt & Hmax).
  destruct (layout_rects_returns pc ci) as (rs & Hrs & Hslots); [lia |].
  destruct (create_panels_spec scenes ci rs g) as (panels & g' & Hcp & Hlen & Hnth).
  exists (PageLayout.mk panels reading_direction mood target_format pc), g', pc, ci, rs.
  split.
  - unfold generate_layout. destruct scenes as [| s0 scenes']; [congruence |].
    rewrite Hpc. cbn [bind]. rewrite Hci. cbn [bind].
    pose proof (layout_rects_select pc mood ci) as Hsel. rewrite Hrs in Hsel.
    destruct (_select_layout_template pc mood) as [t | e]; [| discriminate].
    cbn [bind] in Hsel |- *. rewrite Hsel. cbn [bind]. rewrite Hcp. reflexivity.
  - constructor; simpl; auto. now rewrite Hslots in Hlen.
Qed.

Lemma generate_layout_Ok (scenes key_elements : list string)
  (mood target_format : string) (reading_direction : ReadingDirection) (g : rng)
  (layout : PageLayout.t) (g' : rng) :
  generate_layout lower rng random scenes key_elements mood target_format
                  reading_direction g = Ok (layout, g') ->
  exists pc ci rs,
    Spec.generated lower rng random scenes key_elements mood target_format
                   reading_direction g
              layout g' pc ci rs.
Proof.
  intros H.
  assert (Hne : scenes <> []) by (intros ->; discriminate).
  destruct (generate_layout_returns scenes key_elements mood target_format
              reading_direction g Hne) as (layout0 & g0 & pc & ci & rs & H0 & Hgen).
  rewrite H in H0. injection H0 as <- <-. eauto.
Qed.

End WithParameters.

End EngineFacts.

(* ================================================================== *)
(** * Counting flags and reading rectangles *)
(* ================================================================== *)

Module LayoutFacts.

Import LayoutEngine PyFacts EngineFacts.

(** A flag raised at one absolute index is counted once, when the index
    falls inside the list. *)
Lemma count_flag_at {A : Type} (flag : A -> bool) (ci : nat) (l : list A) :
  forall k,
    (forall j a, nth_error l j = Some a -> flag a = Nat.eqb (k + j) ci) ->
    List.length (filter flag l)
    = if ((k <=? ci) && (ci <? k + List.length l))%nat then 1%nat else 0%nat.
Proof.
  induction l as [| a l IH]; intros k H.
  - simpl. rewrite Nat.add_0_r.
    destruct (Nat.leb_spec k ci), (Nat.ltb_spec ci k); simpl; try reflexivity; lia.
  - assert (Ha : flag a = Nat.eqb k ci)
      by (rewrite (H 0%nat a eq_refl); now rewrite Nat.add_0_r).
    assert (Hl : forall j b, nth_error l j = Some b -> flag b = Nat.eqb (S k + j) ci).
    { intros j b Hj. rewrite (H (S j) b Hj). f_equal. lia. }
    specialize (IH (S k) Hl). cbn [filter List.length]. rewrite Ha.
    destruct (Nat.eqb_spec k ci) as [-> | Hne]; cbn [List.length]; rewrite IH.
    + destruct (Nat.leb_spec (S ci) ci), (Nat.leb_spec ci ci),
        (Nat.ltb_spec ci (ci + S (List.length l))); simpl; try reflexivity; lia.
    + destruct (Nat.leb_spec (S k) ci), (Nat.leb_spec k ci),
        (Nat.ltb_spec ci (S k + List.length l)),
        (Nat.ltb_spec ci (k + S (List.length l))); simpl; try reflexivity; lia.
Qed.

Lemma rect_within_page_spec (p : Panel.t) :
  Spec.rect_within_page (rect_of p) = true ->
  Spec.within_page p /\ Spec.within_page_float p = true.
Proof.
  unfold Spec.rect_within_page, Spec.within_page, Spec.within_page_float, rect_of.
  intros H. apply andb_true_iff in H. destruct H as [Hfloat Hexact].
  split; [| exact Hfloat].
  destruct (value (Panel.x p)) as [x |]; [| discriminate].
  destruct (value (Panel.y p)) as [y |]; [| discriminate].
  destruct (value (Panel.width p)) as [w |]; [| discriminate].
  destruct (value (Panel.height p)) as [h |]; [| discriminate].
  repeat (apply andb_true_iff in Hexact;
          let H' := fresh "H" in destruct Hexact as [Hexact H'];
          apply Qle_bool_iff in H').
  apply Qle_bool_iff in Hexact.
  exists x, y, w, h. repeat split; assumption.
Qed.

Lemma analyze_composition_rects (layout : PageLayout.t) :
  _analyze_composition layout
  = Spec.analyze_rects (map rect_of (PageLayout.panels layout)).
Proof.
  unfold Spec.analyze_rects, _analyze_composition. cbn [PageLayout.panels].
  rewrite !map_map, !length_map.
  replace (map (fun p => Panel.area
                           (let '(x, y, w, h) := rect_of p in
                            Panel.mk 0 x y w h STANDARD "" false false))
               (PageLayout.panels layout))
    with (map Panel.area (PageLayout.panels layout))
    by (apply map_ext; intros p; reflexivity).
  reflexivity.
Qed.

Lemma composition_type_cases (layout : PageLayout.t) (c : string) :
  composition_type layout = Ok c ->
  In c ["pyramidal_focus"; "balanced_grid"; "rhythmic_mosaic"].
Proof.
  unfold composition_type, _analyze_composition. intros H.
  repeat (apply bind_Ok in H; destruct H as (? & _ & H)).
  repeat match type of H with
         | (if ?b then _ else _) = _ => destruct b
         end; injection H as <-; simpl; auto.
Qed.

Lemma dominant_flow_cases (layout : PageLayout.t) :
  In (dominant_flow layout)
     ["vertical_right_left"; "z_pattern"; "diagonal_dynamic"; "modified_z"].
Proof.
  unfold dominant_flow, _calculate_flow_pattern.
  destruct (PageLayout.reading_direction layout); [| simpl; auto].
  repeat match goal with
         | |- context [if ?b then _ else _] => destruct b
         end; simpl; auto.
Qed.

End LayoutFacts.

(* ================================================================== *)
(** * Facts about [sorted] *)
(* ================================================================== *)

Module SortedFacts.

Section Insertion.

Context {A : Type} (lt : A -> A -> bool) (D : A -> Prop).

Hypothesis lt_trans : forall a b c, D a -> D b -> D c ->
  lt a b = true -> lt b c = true -> lt a c = true.
Hypothesis lt_asym : forall a b, D a -> D b ->
  lt a b = true -> lt b a = true -> False.

Local Abbreviation before := (fun a b => lt a b = true).
Local Abbreviation not_after := (fun a b => lt b a = false).
Local Abbreviation apart := (fun a b => lt a b = true \/ lt b a = true).

Lemma insert_In (a x : A) (l : list A) :
  In x (insert lt a l) <-> x = a \/ In x l.
Proof.
  induction l as [| b l IH]; simpl.
  - intuition.
  - destruct (lt a b); simpl; rewrite ?IH; intuition.
Qed.

Lemma insert_Permutation (a : A) (l : list A) :
  Permutation (insert lt a l) (a :: l).
Proof.
  induction l as [| b l IH]; simpl; [reflexivity |].
  destruct (lt a b); [reflexivity |].
  rewrite IH. apply perm_swap.
Qed.

Lemma sorted_loop_Permutation (l acc : list A) :
  Permutation (fold_left (fun acc a => insert lt a acc) l acc) (l ++ acc).
Proof.
  revert acc; induction l as [| a l IH]; intros acc; simpl; [reflexivity |].
  rewrite IH, insert_Permutation. symmetry. apply Permutation_middle.
Qed.

Lemma sorted_Permutation (l : list A) : Permutation (sorted lt l) l.
Proof.
  unfold sorted. rewrite sorted_loop_Permutation. now rewrite app_nil_r.
Qed.

Lemma insert_not_after (a : A) (l : list A) :
  D a -> Forall D l -> StronglySorted not_after l ->
  StronglySorted not_after (insert lt a l).
Proof.
  intros Da Dl Hs. induction Hs as [| b l Hs IH Hb]; simpl.
  - repeat constructor.
  - inversion Dl as [| ? ? Db Dl']; subst.
    destruct (lt a b) eqn:Eab.
    + constructor; [now constructor |].
      constructor.
      * destruct (lt b a) eqn:Eba; [| reflexivity].
        exfalso. eauto.
      * rewrite Forall_forall in Hb, Dl' |- *. intros c Hc.
        destruct (lt c a) eqn:Eca; [| reflexivity].
        assert (lt c b = true) by (apply (lt_trans c a b); auto).
        specialize (Hb c Hc). cbv beta in Hb. congruence.
    + constructor; [now apply IH |].
      rewrite Forall_forall in Hb |- *. intros c Hc.
      apply insert_In in Hc. destruct Hc as [-> | Hc]; [exact Eab | now apply Hb].
Qed.

Lemma sorted_loop_not_after (l acc : list A) :
  Forall D l -> Forall D acc -> StronglySorted not_after acc ->
  StronglySorted not_after (fold_left (fun acc a => insert lt a acc) l acc).
Proof.
  revert acc; induction l as [| a l IH]; intros acc Dl Dacc Hs; simpl; [exact Hs |].
  inversion Dl as [| ? ? Da Dl']; subst.
  apply IH; [exact Dl' | | now apply insert_not_after].
  rewrite Forall_forall in Dacc |- *. intros x Hx.
  apply insert_In in Hx. destruct Hx as [-> | Hx]; auto.
Qed.

Lemma sorted_not_after (l : list A) :
  Forall D l -> StronglySorted not_after (sorted lt l).
Proof.
  intros Dl. apply sorted_loop_not_after; auto. constructor.
Qed.

(** Among different elements that are pairwise apart, "not after" is
    "before". *)
Lemma not_after_before (l l' : list A) :
  (forall a b, In a l -> In b l -> a <> b -> apart a b) ->
  incl l' l -> NoDup l' ->
  StronglySorted not_after l' -> StronglySorted before l'.
Proof.
  intros Hapart Hincl Hnodup Hs.
  induction Hs as [| a l' Hs IH Ha]; [constructor |].
  inversion Hnodup as [| ? ? Hnotin Hnodup']; subst.
  constructor.
  - apply IH; [| exact Hnodup']. intros x Hx. apply Hincl. now right.
  - rewrite Forall_forall in Ha |- *. intros b Hb.
    assert (Hab : a <> b) by (intros ->; contradiction).
    destruct (Hapart a b) as [H | H]; auto.
    + apply Hincl. now left.
    + apply Hincl. now right.
    + specialize (Ha b Hb). cbv beta in Ha. congruence.
Qed.

(** Two lists sorted for "before" with the same elements are equal. *)
Lemma before_sorted_unique (l1 : list A) :
  forall l2, Forall D l1 ->
    StronglySorted before l1 -> StronglySorted before l2 ->
    Permutation l1 l2 -> l1 = l2.
Proof.
  induction l1 as [| a t1 IH]; intros l2 Dl H1 H2 Hperm.
  - apply Permutation_nil in Hperm. now subst.
  - destruct l2 as [| b t2];
      [apply Permutation_sym, Permutation_nil in Hperm; discriminate |].
    inversion H1 as [| ? ? Ht1 Ha]; subst.
    inversion H2 as [| ? ? Ht2 Hb]; subst.
    inversion Dl as [| ? ? Da Dt1]; subst.
    assert (Heq : a = b).
    { assert (Hina : In a (b :: t2))
        by (eapply Permutation_in; [exact Hperm | now left]).
      assert (Hinb : In b (a :: t1))
        by (eapply Permutation_in; [symmetry; exact Hperm | now left]).
      destruct Hina as [Hina | Hina]; [now subst |].
      destruct Hinb as [Hinb | Hinb]; [now subst |].
      rewrite Forall_forall in Ha, Hb, Dt1.
      exfalso. apply (lt_asym a b);
        [exact Da | now apply Dt1 | now apply Ha | now apply Hb]. }
    subst b. f_equal. apply IH; auto.
    eapply Permutation_cons_inv; eauto.
Qed.

End Insertion.

Lemma StronglySorted_snoc {A : Type} (R : A -> A -> Prop) (l : list A) (a : A) :
  StronglySorted R l -> Forall (fun b => R b a) l -> StronglySorted R (l ++ [a]).
Proof.
  intros Hs Hl. induction Hs as [| b l Hs IH Hb]; simpl.
  - repeat constructor.
  - inversion Hl as [| ? ? Hba Hl']; subst.
    constructor; [now apply IH |].
    apply Forall_app. split; [exact Hb | now repeat constructor].
Qed.

Lemma StronglySorted_rev {A : Type} (R : A -> A -> Prop) (l : list A) :
  StronglySorted R l -> StronglySorted (fun a b => R b a) (rev l).
Proof.
  intros Hs. induction Hs as [| a l Hs IH Ha]; simpl; [constructor |].
  apply StronglySorted_snoc; [exact IH |].
  rewrite Forall_forall in Ha |- *. intros b Hb. apply Ha. now apply in_rev.
Qed.

Lemma StronglySorted_impl_In {A : Type} (R R' : A -> A -> Prop) (l : list A) :
  (forall a b, In a l -> In b l -> R a b -> R' a b) ->
  StronglySorted R l -> StronglySorted R' l.
Proof.
  intros Himpl Hs. induction Hs as [| a l Hs IH Ha]; [constructor |].
  constructor.
  - apply IH. intros x y Hx Hy. apply Himpl; now right.
  - rewrite Forall_forall in Ha |- *. intros b Hb.
    apply Himpl; [now left | now right | now apply Ha].
Qed.

(** Sorting for the converse comparison reverses the result, among
    different elements that are pairwise apart. *)
Lemma sorted_converse {A : Type} (lt lt' : A -> A -> bool) (D : A -> Prop)
  (l : list A) :
  (forall a b c, D a -> D b -> D c ->
     lt a b = true -> lt b c = true -> lt a c = true) ->
  (forall a b, D a -> D b -> lt a b = true -> lt b a = true -> False) ->
  (forall a b, D a -> D b -> lt' a b = lt b a) ->
  Forall D l -> NoDup l ->
  (forall a b, In a l -> In b l -> a <> b -> lt a b = true \/ lt b a = true) ->
  sorted lt' l = rev (sorted lt l).
Proof.
  intros Htrans Hasym Hconv Dl Hnodup Hapart.
  assert (Htrans' : forall a b c, D a -> D b -> D c ->
            lt' a b = true -> lt' b c = true -> lt' a c = true).
  { intros a b c Da Db Dc. rewrite !Hconv by assumption.
    intros H1 H2. apply (Htrans c b a); assumption. }
  assert (Hasym' : forall a b, D a -> D b ->
            lt' a b = true -> lt' b a = true -> False).
  { intros a b Da Db. rewrite !Hconv by assumption.
    intros H1 H2. apply (Hasym a b); assumption. }
  rewrite Forall_forall in Dl.
  assert (Hapart' : forall a b, In a l -> In b l -> a <> b ->
            lt' a b = true \/ lt' b a = true).
  { intros a b Ha Hb Hab. rewrite !Hconv by auto.
    destruct (Hapart a b Ha Hb Hab); auto. }
  pose proof (sorted_Permutation lt l) as Pw.
  pose proof (sorted_Permutation lt' l) as Pm.
  assert (Dw : Forall D (sorted lt l)).
  { apply Forall_forall. intros x Hx. apply Dl. exact (Permutation_in _ Pw Hx). }
  assert (Dm : Forall D (sorted lt' l)).
  { apply Forall_forall. intros x Hx. apply Dl. exact (Permutation_in _ Pm Hx). }
  assert (Sw : StronglySorted (fun a b => lt a b = true) (sorted lt l)).
  { apply (not_after_before lt l); auto.
    - intros x Hx. exact (Permutation_in _ Pw Hx).
    - eapply Permutation_NoDup; [symmetry; exact Pw | exact Hnodup].
    - apply (sorted_not_after lt D); auto. now apply Forall_forall. }
  assert (Sm : StronglySorted (fun a b => lt' a b = true) (sorted lt' l)).
  { apply (not_after_before lt' l); auto.
    - intros x Hx. exact (Permutation_in _ Pm Hx).
    - eapply Permutation_NoDup; [symmetry; exact Pm | exact Hnodup].
    - apply (sorted_not_after lt' D); auto. now apply Forall_forall. }
  apply (before_sorted_unique lt' D Hasym'); auto.
  - apply StronglySorted_rev in Sw.
    eapply StronglySorted_impl_In; [| exact Sw].
    intros a b Ha Hb Hba. cbv beta in Hba.
    rewrite Hconv; [exact Hba | |];
      apply Dl; (eapply Permutation_in; [exact Pw |]); now apply in_rev.
  - rewrite Pm. rewrite <- Pw at 1. apply Permutation_rev.
Qed.

End SortedFacts.

(* ================================================================== *)
(** * Facts about the reading orders *)
(* ================================================================== *)

Module ReadingOrderFacts.

Import FloatFacts LayoutFormatter Spec.

Lemma comparable_spec (p : Panel.t) :
  Spec.comparable p = true ->
  is_nan (Panel.x p) = false /\ is_nan (Panel.y p) = false.
Proof.
  unfold Spec.comparable. intros H. apply andb_true_iff in H.
  destruct H as [Hx Hy]. apply negb_true_iff in Hx, Hy. now split.
Qed.

Lemma western_lt_rank (p q : Panel.t) :
  Spec.comparable p = true -> Spec.comparable q = true ->
  western_lt p q = true <->
  rank (Panel.y p) < rank (Panel.y q) \/
  (rank (Panel.y p) = rank (Panel.y q) /\ rank (Panel.x p) < rank (Panel.x q)).
Proof.
  intros Hp Hq. apply comparable_spec in Hp, Hq.
  unfold western_lt, western_key. now apply pair_lt_rank.
Qed.

Lemma manga_lt_rank (p q : Panel.t) :
  Spec.comparable p = true -> Spec.comparable q = true ->
  manga_lt p q = true <->
  rank (Panel.y q) < rank (Panel.y p) \/
  (rank (Panel.y p) = rank (Panel.y q) /\ rank (Panel.x q) < rank (Panel.x p)).
Proof.
  intros Hp Hq. apply comparable_spec in Hp, Hq.
  unfold manga_lt, manga_key.
  rewrite pair_lt_rank; cbn [fst snd]; try (apply opp_is_nan; tauto).
  rewrite !opp_rank. lia.
Qed.

Lemma manga_lt_converse (p q : Panel.t) :
  Spec.comparable p = true -> Spec.comparable q = true ->
  manga_lt p q = western_lt q p.
Proof.
  intros Hp Hq.
  pose proof (manga_lt_rank p q Hp Hq) as Hm.
  pose proof (western_lt_rank q p Hq Hp) as Hw.
  destruct (manga_lt p q), (western_lt q p); try reflexivity.
  - destruct Hm as [Hm _]. specialize (Hm eq_refl).
    assert (false = true) by (apply Hw; lia). congruence.
  - destruct Hw as [Hw _]. specialize (Hw eq_refl).
    assert (false = true) by (apply Hm; lia). congruence.
Qed.

Lemma western_lt_trans (p q r : Panel.t) :
  Spec.comparable p = true -> Spec.comparable q = true -> Spec.comparable r = true ->
  western_lt p q = true -> western_lt q r = true -> western_lt p r = true.
Proof.
  intros Hp Hq Hr. rewrite !western_lt_rank by assumption. lia.
Qed.

Lemma western_lt_asym (p q : Panel.t) :
  Spec.comparable p = true -> Spec.comparable q = true ->
  western_lt p q = true -> western_lt q p = true -> False.
Proof.
  intros Hp Hq. rewrite !western_lt_rank by assumption. lia.
Qed.

Lemma same_position_rank (p q : Panel.t) :
  Spec.comparable p = true -> Spec.comparable q = true ->
  Spec.same_position p q = true <->
  rank (Panel.y p) = rank (Panel.y q) /\ rank (Panel.x p) = rank (Panel.x q).
Proof.
  intros Hp Hq. apply comparable_spec in Hp, Hq.
  unfold Spec.same_position. rewrite !eqb_rank by tauto.
  rewrite andb_true_iff, !Z.eqb_eq. tauto.
Qed.

Lemma western_lt_apart (p q : Panel.t) :
  Spec.comparable p = true -> Spec.comparable q = true ->
  Spec.same_position p q = false ->
  western_lt p q = true \/ western_lt q p = true.
Proof.
  intros Hp Hq Hpos. rewrite !western_lt_rank by assumption.
  assert (H : ~ (rank (Panel.y p) = rank (Panel.y q) /\
                 rank (Panel.x p) = rank (Panel.x q))).
  { rewrite <- same_position_rank by assumption. congruence. }
  lia.
Qed.

Lemma distinct_positions_NoDup (panels : list Panel.t) :
  Forall (fun p => Spec.comparable p = true) panels ->
  ForallOrdPairs (fun p q => Spec.same_position p q = false) panels ->
  NoDup panels.
Proof.
  intros Hc Hd. induction Hd as [| p panels Hp Hd IH]; [constructor |].
  inversion Hc as [| ? ? Hcp Hc']; subst.
  constructor; [| now apply IH].
  intros Hin. rewrite Forall_forall in Hp. specialize (Hp p Hin).
  assert (Spec.same_position p p = true)
    by (apply same_position_rank; auto).
  congruence.
Qed.

Lemma reading_orders_sorted (panels : list Panel.t) :
  Forall (fun p => comparable p = true) panels ->
  StronglySorted (fun p q => western_lt q p = false) (sorted western_lt panels) /\
  StronglySorted (fun p q => manga_lt q p = false) (sorted manga_lt panels).
Proof.
  intros Hc.
  set (D := fun p => comparable p = true).
  assert (Hmt : forall a b c, D a -> D b -> D c ->
            manga_lt a b = true -> manga_lt b c = true -> manga_lt a c = true).
  { intros a b c Da Db Dc. rewrite !manga_lt_converse by assumption.
    intros H1 H2. apply (western_lt_trans c b a); assumption. }
  assert (Hma : forall a b, D a -> D b ->
            manga_lt a b = true -> manga_lt b a = true -> False).
  { intros a b Da Db. rewrite !manga_lt_converse by assumption.
    intros H1 H2. apply (western_lt_asym a b); assumption. }
  split.
  - apply (SortedFacts.sorted_not_after western_lt D
             western_lt_trans western_lt_asym); exact Hc.
  - apply (SortedFacts.sorted_not_after manga_lt D Hmt Hma); exact Hc.
Qed.

Lemma manga_reverses_western (panels : list Panel.t) :
  Forall (fun p => comparable p = true) panels ->
  ForallOrdPairs (fun p q => same_position p q = false) panels ->
  sorted manga_lt panels = rev (sorted western_lt panels).
Proof.
  intros Hc Hd.
  apply (SortedFacts.sorted_converse western_lt manga_lt
           (fun p => comparable p = true)).
  - exact western_lt_trans.
  - exact western_lt_asym.
  - exact manga_lt_converse.
  - exact Hc.
  - now apply distinct_positions_NoDup.
  - intros a b Ha Hb Hab.
    rewrite Forall_forall in Hc.
    destruct (ForallOrdPairs_In Hd a b Ha Hb) as [Heq | [H | H]]; [contradiction | |].
    + apply western_lt_apart; auto.
    + destruct (western_lt_apart b a) as [H' | H']; auto.
Qed.

(** ** The positions of a generated layout *)

Lemma all_pairs_spec {A : Type} (test : A -> A -> bool) (l : list A) :
  all_pairs test l = true -> ForallOrdPairs (fun a b => test a b = true) l.
Proof.
  induction l as [| a l IH]; simpl; intros H; [constructor |].
  apply andb_true_iff in H. destruct H as [Ha Hl].
  constructor; [| now apply IH].
  apply Forall_forall. now apply forallb_forall.
Qed.

Lemma ForallOrdPairs_firstn {A : Type} (R : A -> A -> Prop) (l : list A) (n : nat) :
  ForallOrdPairs R l -> ForallOrdPairs R (firstn n l).
Proof.
  intros H. revert n. induction H as [| a l Ha Hl IH]; intros n.
  - rewrite firstn_nil. constructor.
  - destruct n as [| n]; simpl; constructor; [| apply IH].
    apply Forall_forall. intros b Hb. rewrite Forall_forall in Ha.
    apply Ha. eapply PyFacts.firstn_In; eauto.
Qed.

Lemma ForallOrdPairs_map {A B : Type} (f : A -> B) (R : B -> B -> Prop) (l : list A) :
  ForallOrdPairs R (map f l) -> ForallOrdPairs (fun a b => R (f a) (f b)) l.
Proof.
  induction l as [| a l IH]; simpl; intros H; [constructor |].
  inversion H as [| ? ? Ha Hl]; subst.
  constructor; [| now apply IH].
  rewrite Forall_forall in Ha |- *. intros b Hb. apply Ha. now apply in_map.
Qed.

Lemma ForallOrdPairs_impl {A : Type} (R R' : A -> A -> Prop) (l : list A) :
  (forall a b, R a b -> R' a b) -> ForallOrdPairs R l -> ForallOrdPairs R' l.
Proof.
  intros Himpl H. induction H as [| a l Ha Hl IH]; constructor; [| exact IH].
  eapply Forall_impl; [| exact Ha]. intros b. apply Himpl.
Qed.

Lemma layout_rects_positions (pc : Z) (ci : nat) (rs : list Rect) :
  3 <= pc <= 9 -> layout_rects pc ci = Ok rs ->
  Forall (fun r => comparable (rect_panel r) = true) rs /\
  ForallOrdPairs
    (fun r1 r2 => same_position (rect_panel r1) (rect_panel r2) = false) rs.
Proof.
  intros Hpc Hrs.
  assert (Hall : all_positions_distinct = true) by (vm_compute; reflexivity).
  destruct (EngineFacts.for_all_reachable_spec _ Hall pc ci Hpc) as (rs' & Hrs' & Hok).
  rewrite Hrs in Hrs'. injection Hrs' as <-.
  apply andb_true_iff in Hok. destruct Hok as [Hc Hd]. split.
  - apply Forall_forall. now apply forallb_forall.
  - apply all_pairs_spec in Hd.
    eapply ForallOrdPairs_impl; [| exact Hd].
    intros a b Hab. cbv beta in Hab. now apply negb_true_iff in Hab.
Qed.

End ReadingOrderFacts.

(* ================================================================== *)
(** * Properties of [generate_layout] *)
(* ================================================================== *)

Import LayoutEngine PyFacts EngineFacts LayoutFacts.

(** Takes a successful call apart into the facts of [Spec.generated]. *)
Ltac taken_apart H :=
  let pc := fresh "pc" in
  let ci := fresh "ci" in
  let rs := fresh "rs" in
  let Hgen := fresh "Hgen" in
  destruct (generate_layout_Ok _ _ _ _ _ _ _ _ _ _ _ H) as (pc & ci & rs & Hgen);
  destruct Hgen as [Hne Hcount Hrange Hclimax Hlt Hmax Hrects Hslots Hcreated
                    Hlength Hpanels Hlayout].

(** ** Panel count *)

(** C1, as stated, fails on the script of [main]: six scenes, the
    epic-action mood and the web-comic format give four panels, because
    [int] truncates [6 * 0.8 = 4.8000000000000007], while rounding the same
    product gives the five panels of the specification. *)
Lemma main_script_has_four_panels :
  exists layout g',
    Example.generate Example.scenes Example.key_elements
                     "эпичный боевик" "веб-комикс" WESTERN [] = Ok (layout, g') /\
    PageLayout.total_panels layout = 4 /\
    Spec.panel_count_rounded (List.length Example.scenes)
                             "эпичный боевик" "веб-комикс" = Ok 5.
Proof.
  eexists. eexists. split; [vm_compute; reflexivity |].
  split; vm_compute; reflexivity.
Qed.

(** C1, amended: the panel count of every returned layout is
    [clamp(int(len(scenes) * mood_multiplier), 3, format_limit)], the product
    being truncated toward zero, with multiplier 1.0 and limit 8 for labels
    outside the tables; for a list of fewer than [2^63] scenes this is
    [clamp(floor(len(scenes) * tenths / 10), 3, format_limit)] in integer
    arithmetic, the rounding of the float product never showing; six scenes
    with the epic-action mood and the web-comic format give 4 panels. *)
Theorem panel_count_truncates
  (lower : string -> string) (rng : Type) (random : rng -> float * rng)
  (scenes key_elements : list string) (mood target_format : string)
  (reading_direction : ReadingDirection) (g g' : rng) (layout : PageLayout.t) :
  generate_layout lower rng random scenes key_elements mood target_format
                  reading_direction g = Ok (layout, g') ->
  Spec.panel_count_truncated (List.length scenes) mood target_format
  = Ok (PageLayout.total_panels layout) /\
  (Z.of_nat (List.length scenes) < 2 ^ 63 ->
   PageLayout.total_panels layout
   = Spec.panel_count_exact (List.length scenes) mood target_format) /\
  (List.length scenes = 6%nat -> mood = "эпичный боевик" ->
   target_format = "веб-комикс" -> PageLayout.total_panels layout = 4).
Proof.
  intros H. taken_apart H.
  rewrite calculate_panel_count_truncated in Hcount.
  rewrite Hlayout. cbn [PageLayout.total_panels].
  split; [exact Hcount |]. split.
  - intros Hsize. rewrite panel_count_exact_spec in Hcount by exact Hsize.
    congruence.
  - intros Hsix -> ->. rewrite Hsix in Hcount. vm_compute in Hcount. congruence.
Qed.

Lemma panel_count_truncates_main_script :
  (Example.generate Example.scenes Example.key_elements
                    "эпичный боевик" "веб-комикс" WESTERN [0.9%float]
   = Ok (Example.main_layout, [])) /\
  (Spec.panel_count_truncated (List.length Example.scenes)
                              "эпичный боевик" "веб-комикс"
   = Ok (PageLayout.total_panels Example.main_layout)) /\
  (Z.of_nat (List.length Example.scenes) < 2 ^ 63 ->
   PageLayout.total_panels Example.main_layout
   = Spec.panel_count_exact (List.length Example.scenes)
                            "эпичный боевик" "веб-комикс") /\
  (List.length Example.scenes = 6%nat -> "эпичный боевик" = "эпичный боевик" ->
   "веб-комикс" = "веб-комикс" -> PageLayout.total_panels Example.main_layout = 4).
Proof.
  split; [vm_compute; reflexivity |].
  apply (panel_count_truncates Py.lower Example.draws Example.next_draw
           Example.scenes Example.key_elements "эпичный боевик" "веб-комикс"
           WESTERN [0.9%float] [] Example.main_layout).
  vm_compute; reflexivity.
Defined.

(** C5: the count invariant.  A returned layout has between 3 and
    [format_limit] panels planned, and at most [min(total_panels,
    len(scenes))] panels built; with two scenes, multiplier 1.0 and limit 8,
    three panels are planned and two are built. *)
Theorem count_invariant
  (lower : string -> string) (rng : Type) (random : rng -> float * rng)
  (scenes key_elements : list string) (mood target_format : string)
  (reading_direction : ReadingDirection) (g g' : rng) (layout : PageLayout.t) :
  generate_layout lower rng random scenes key_elements mood target_format
                  reading_direction g = Ok (layout, g') ->
  3 <= PageLayout.total_panels layout <= Spec.format_limit target_format /\
  (List.length (PageLayout.panels layout)
   <= Nat.min (Z.to_nat (PageLayout.total_panels layout)) (List.length scenes))%nat /\
  (List.length scenes = 2%nat -> Spec.mood_multiplier mood = 1.0%float ->
   Spec.format_limit target_format = 8 ->
   PageLayout.total_panels layout = 3 /\
   List.length (PageLayout.panels layout) = 2%nat).
Proof.
  intros H. taken_apart H.
  assert (Htotal : PageLayout.total_panels layout = pc)
    by (rewrite Hlayout; reflexivity).
  rewrite Htotal. split; [exact Hrange |]. split; [lia |].
  intros Htwo Hmood Hlimit.
  rewrite calculate_panel_count_truncated in Hcount.
  unfold Spec.panel_count_truncated in Hcount.
  rewrite Htwo, Hmood, Hlimit in Hcount. vm_compute in Hcount.
  injection Hcount as <-. split; [reflexivity |].
  rewrite Hlength, Htwo. reflexivity.
Qed.

Lemma count_invariant_main_script :
  (Example.generate Example.scenes Example.key_elements
                    "эпичный боевик" "веб-комикс" WESTERN [0.9%float]
   = Ok (Example.main_layout, [])) /\
  (3 <= PageLayout.total_panels Example.main_layout
     <= Spec.format_limit "веб-комикс" /\
   (List.length (PageLayout.panels Example.main_layout)
    <= Nat.min (Z.to_nat (PageLayout.total_panels Example.main_layout))
               (List.length Example.scenes))%nat /\
   (List.length Example.scenes = 2%nat ->
    Spec.mood_multiplier "эпичный боевик" = 1.0%float ->
    Spec.format_limit "веб-комикс" = 8 ->
    PageLayout.total_panels Example.main_layout = 3 /\
    List.length (PageLayout.panels Example.main_layout) = 2%nat)).
Proof.
  split; [vm_compute; reflexivity |].
  apply (count_invariant Py.lower Example.draws Example.next_draw
           Example.scenes Example.key_elements "эпичный боевик" "веб-комикс"
           WESTERN [0.9%float] [] Example.main_layout).
  vm_compute; reflexivity.
Defined.

(** Scenario B on a concrete script: unknown mood and format, two scenes. *)
Example two_scenes_three_slots :
  exists layout g',
    Example.generate Example.two_scenes [] "нуар" "газета" WESTERN []
    = Ok (layout, g') /\
    PageLayout.total_panels layout = 3 /\
    List.length (PageLayout.panels layout) = 2%nat.
Proof.
  eexists. eexists. split; [vm_compute; reflexivity |].
  split; reflexivity.
Qed.

(** ** Climax and bleed flags *)

Lemma climax_count
  (lower : string -> string) (scenes : list string) (ci : nat)
  (rs : list Rect) (panels : list Panel.t) :
  (forall j p, nth_error panels j = Some p ->
     exists r, nth_error rs j = Some r /\ Spec.panel_at lower scenes ci j r p) ->
  Spec.count_climax panels
  = if (ci <? List.length panels)%nat then 1%nat else 0%nat.
Proof.
  intros Hpanels. unfold Spec.count_climax.
  rewrite (count_flag_at Panel.is_climax ci panels 0).
  - reflexivity.
  - intros j p Hj. destruct (Hpanels j p Hj) as (r & _ & Hat).
    unfold Spec.panel_at in Hat. tauto.
Qed.

(** C6: in a returned layout at most one panel is the climax, and a bleed
    panel is always the climax panel. *)
Theorem climax_unique_and_bleed
  (lower : string -> string) (rng : Type) (random : rng -> float * rng)
  (scenes key_elements : list string) (mood target_format : string)
  (reading_direction : ReadingDirection) (g g' : rng) (layout : PageLayout.t) :
  generate_layout lower rng random scenes key_elements mood target_format
                  reading_direction g = Ok (layout, g') ->
  (Spec.count_climax (PageLayout.panels layout) <= 1)%nat /\
  (forall p, In p (PageLayout.panels layout) ->
     Panel.is_bleed p = true -> Panel.is_climax p = true).
Proof.
  intros H. taken_apart H. split.
  - rewrite (climax_count lower scenes ci rs _ Hpanels).
    destruct (ci <? _)%nat; lia.
  - intros p Hin. apply In_nth_error in Hin. destruct Hin as [j Hj].
    destruct (Hpanels j p Hj) as (r & _ & Hat).
    unfold Spec.panel_at in Hat. tauto.
Qed.

Lemma climax_unique_and_bleed_main_script :
  (Example.generate Example.scenes Example.key_elements
                    "эпичный боевик" "веб-комикс" WESTERN [0.9%float]
   = Ok (Example.main_layout, [])) /\
  ((Spec.count_climax (PageLayout.panels Example.main_layout) <= 1)%nat /\
   (forall p, In p (PageLayout.panels Example.main_layout) ->
      Panel.is_bleed p = true -> Panel.is_climax p = true)).
Proof.
  split; [vm_compute; reflexivity |].
  apply (climax_unique_and_bleed Py.lower Example.draws Example.next_draw
           Example.scenes Example.key_elements "эпичный боевик" "веб-комикс"
           WESTERN [0.9%float] [] Example.main_layout).
  vm_compute; reflexivity.
Defined.

(** C3, as stated, fails: five scenes whose last one is the climax, laid out
    for a format limited to four panels, give a layout with no climax
    panel. *)
Lemma late_climax_is_dropped :
  exists layout g',
    Example.generate Example.late_climax_scenes [] "нуар"
                     "сториз для соцсетей" WESTERN [0.9%float]
    = Ok (layout, g') /\
    _find_climax Py.lower Example.late_climax_scenes [] = Ok 4%nat /\
    List.length (PageLayout.panels layout) = 4%nat /\
    Spec.count_climax (PageLayout.panels layout) = 0%nat.
Proof.
  eexists. eexists. split; [vm_compute; reflexivity |].
  repeat split; vm_compute; reflexivity.
Qed.

(** C3, amended: a returned layout has exactly one climax panel when the
    climax index is below the number of panels built, which is
    [min(total_panels, len(scenes))], and no climax panel otherwise. *)
Theorem climax_count_by_index
  (lower : string -> string) (rng : Type) (random : rng -> float * rng)
  (scenes key_elements : list string) (mood target_format : string)
  (reading_direction : ReadingDirection) (g g' : rng) (layout : PageLayout.t) :
  generate_layout lower rng random scenes key_elements mood target_format
                  reading_direction g = Ok (layout, g') ->
  exists ci,
    _find_climax lower scenes key_elements = Ok ci /\
    List.length (PageLayout.panels layout)
    = Nat.min (Z.to_nat (PageLayout.total_panels layout)) (List.length scenes) /\
    Spec.count_climax (PageLayout.panels layout)
    = if (ci <? List.length (PageLayout.panels layout))%nat then 1%nat else 0%nat.
Proof.
  intros H. taken_apart H. exists ci.
  split; [exact Hclimax |]. split.
  - rewrite Hlayout at 2. exact Hlength.
  - exact (climax_count lower scenes ci rs _ Hpanels).
Qed.

Lemma climax_count_by_index_main_script :
  (Example.generate Example.scenes Example.key_elements
                    "эпичный боевик" "веб-комикс" WESTERN [0.9%float]
   = Ok (Example.main_layout, [])) /\
  (exists ci,
     _find_climax Py.lower Example.scenes Example.key_elements = Ok ci /\
     List.length (PageLayout.panels Example.main_layout)
     = Nat.min (Z.to_nat (PageLayout.total_panels Example.main_layout))
               (List.length Example.scenes) /\
     Spec.count_climax (PageLayout.panels Example.main_layout)
     = if (ci <? List.length (PageLayout.panels Example.main_layout))%nat
       then 1%nat else 0%nat).
Proof.
  split; [vm_compute; reflexivity |].
  apply (climax_count_by_index Py.lower Example.draws Example.next_draw
           Example.scenes Example.key_elements "эпичный боевик" "веб-комикс"
           WESTERN [0.9%float] [] Example.main_layout).
  vm_compute; reflexivity.
Defined.

(** ** Errors *)

(** C7: the call raises [InvalidInput] exactly when [scenes] is empty, it
    raises nothing else, a raised result carries no layout and no panel, and
    every non-empty [scenes] gives a layout that records the labels it was
    asked for and holds at least one panel. *)
Theorem raises_only_on_empty_scenes
  (lower : string -> string) (rng : Type) (random : rng -> float * rng)
  (scenes key_elements : list string) (mood target_format : string)
  (reading_direction : ReadingDirection) (g : rng) :
  let call := generate_layout lower rng random scenes key_elements mood
                              target_format reading_direction g in
  (call = Raise Spec.InvalidInput <-> scenes = []) /\
  (forall e, call = Raise e -> e = Spec.InvalidInput) /\
  (scenes <> [] <->
   exists layout g',
     call = Ok (layout, g') /\
     PageLayout.mood layout = mood /\
     PageLayout.target_format layout = target_format /\
     PageLayout.reading_direction layout = reading_direction /\
     (1 <= List.length (PageLayout.panels layout))%nat).
Proof.
  intros call.
  assert (Hempty : scenes = [] -> call = Raise Spec.InvalidInput)
    by (intros ->; reflexivity).
  assert (Hfull : scenes <> [] ->
            exists layout g',
              call = Ok (layout, g') /\
              PageLayout.mood layout = mood /\
              PageLayout.target_format layout = target_format /\
              PageLayout.reading_direction layout = reading_direction /\
              (1 <= List.length (PageLayout.panels layout))%nat).
  { intros Hne.
    destruct (generate_layout_returns lower rng random scenes key_elements mood
                target_format reading_direction g Hne)
      as (layout & g' & pc & ci & rs & Hcall & Hgen).
    destruct Hgen as [_ _ Hrange _ Hlt _ _ _ _ Hlength _ Hlayout].
    exists layout, g'. split; [exact Hcall |].
    rewrite Hlayout. cbn. repeat split. lia. }
  split; [| split].
  - split; [| exact Hempty].
    intros Hraise. destruct scenes as [| s0 scenes']; [reflexivity |].
    destruct Hfull as (layout & g' & Hcall & _); [discriminate |].
    congruence.
  - intros e Hraise. destruct scenes as [| s0 scenes'].
    + rewrite Hempty in Hraise by reflexivity. congruence.
    + destruct Hfull as (layout & g' & Hcall & _); [discriminate |].
      congruence.
  - split; [exact Hfull |].
    intros (layout & g' & Hcall & _) ->.
    rewrite Hempty in Hcall by reflexivity. discriminate.
Qed.

(** ** Reading direction *)

(** C9: two calls that differ in the reading direction only fail alike or
    return layouts with the same panels, field for field, and leave the
    generator in the same state; the layouts differ in the recorded
    direction alone. *)
Theorem reading_direction_keeps_geometry
  (lower : string -> string) (rng : Type) (random : rng -> float * rng)
  (scenes key_elements : list string) (mood target_format : string)
  (d1 d2 : ReadingDirection) (g : rng) :
  match generate_layout lower rng random scenes key_elements mood
                        target_format d1 g,
        generate_layout lower rng random scenes key_elements mood
                        target_format d2 g with
  | Ok (layout1, g1), Ok (layout2, g2) =>
      PageLayout.panels layout1 = PageLayout.panels layout2 /\
      g1 = g2 /\
      layout2 = PageLayout.mk (PageLayout.panels layout1) d2
                              (PageLayout.mood layout1)
                              (PageLayout.target_format layout1)
                              (PageLayout.total_panels layout1)
  | Raise e1, Raise e2 => e1 = e2
  | _, _ => False
  end.
Proof.
  unfold generate_layout. destruct scenes as [| s0 scenes']; [reflexivity |].
  destruct (_calculate_panel_count (s0 :: scenes') mood target_format)
    as [pc | e]; cbn [bind]; [| reflexivity].
  destruct (_find_climax lower (s0 :: scenes') key_elements)
    as [ci | e]; cbn [bind]; [| reflexivity].
  destruct (_select_layout_template pc mood) as [t | e]; cbn [bind]; [| reflexivity].
  destruct (_adjust_for_climax t ci) as [a | e]; cbn [bind]; [| reflexivity].
  destruct (_create_panels lower rng random a (s0 :: scenes') ci g)
    as [[panels g'] | e]; cbn [bind]; [| reflexivity].
  cbn. repeat split.
Qed.

(** ** Climax detection *)

(** C4, as stated, fails: a key element is lowered before it is looked for
    in the lowered scene, like a keyword.  For the scenes "Тихое утро" and
    "Герой смотрит на часы" with the key element "Часы", no scene holds the
    key element as it is written: scored as the claim words it, both scenes
    get 0 and the first maximum is at index 0.  The code scores them 0 and
    3, finds the climax at index 1 and flags the panel of the second
    scene. *)
Lemma capital_key_element_counts :
  exists layout g' p,
    Example.generate Scripts.watch_scenes Scripts.watch_elements "нуар"
                     "веб-комикс" WESTERN [0.9%float]
    = Ok (layout, g') /\
    _find_climax Py.lower Scripts.watch_scenes Scripts.watch_elements = Ok 1%nat /\
    map (Spec.score Py.lower Scripts.watch_elements) Scripts.watch_scenes = [0; 3] /\
    map (AsWorded.score Py.lower Scripts.watch_elements) Scripts.watch_scenes
    = [0; 0] /\
    Spec.first_maximum
      (map (AsWorded.score Py.lower Scripts.watch_elements) Scripts.watch_scenes)
      0 /\
    ~ Spec.first_maximum
        (map (AsWorded.score Py.lower Scripts.watch_elements) Scripts.watch_scenes)
        1 /\
    nth_error (PageLayout.panels layout) 1 = Some p /\
    Panel.content p = "Герой смотрит на часы" /\
    Panel.is_climax p = true.
Proof.
  assert (Hworded : map (AsWorded.score Py.lower Scripts.watch_elements)
                        Scripts.watch_scenes = [0; 0])
    by (vm_compute; reflexivity).
  eexists. eexists. eexists.
  split; [vm_compute; reflexivity |].
  split; [vm_compute; reflexivity |].
  split; [vm_compute; reflexivity |].
  split; [exact Hworded |].
  rewrite Hworded.
  split; [| split; [| split; [| split]]].
  - exists 0. split; [reflexivity |]. split.
    + intros [| [| j]] v Hv; simpl in Hv;
        [injection Hv as <-; lia | injection Hv as <-; lia
        | destruct j; discriminate].
    + intros j v Hj. lia.
  - intros (m & Hm & _ & Hbefore). simpl in Hm. injection Hm as <-.
    specialize (Hbefore 0%nat 0 ltac:(lia) eq_refl). lia.
  - vm_compute. reflexivity.
  - vm_compute. reflexivity.
  - vm_compute. reflexivity.
Qed.

(** C4, amended: for a non-empty script the climax index is the first index
    whose score is the largest, the score of a scene being the weights of
    the keywords found in its lowered text plus 3 for each key element
    whose lowered text is found there; the panel flagged as climax, if any,
    is the one built from that scene. *)
Theorem climax_is_first_maximum
  (lower : string -> string) (rng : Type) (random : rng -> float * rng)
  (scenes key_elements : list string) (mood target_format : string)
  (reading_direction : ReadingDirection) (g g' : rng) (layout : PageLayout.t) :
  generate_layout lower rng random scenes key_elements mood target_format
                  reading_direction g = Ok (layout, g') ->
  exists ci,
    _find_climax lower scenes key_elements = Ok ci /\
    Spec.first_maximum (map (Spec.score lower key_elements) scenes) ci /\
    (forall p, In p (PageLayout.panels layout) ->
       (Panel.is_climax p = true <-> Panel.id p = Z.of_nat ci + 1) /\
       (Panel.is_climax p = true -> nth_error scenes ci = Some (Panel.content p))).
Proof.
  intros H. taken_apart H. exists ci.
  split; [exact Hclimax |]. split; [exact Hmax |].
  intros p Hin. apply In_nth_error in Hin. destruct Hin as [j Hj].
  destruct (Hpanels j p Hj) as (r & _ & Hat).
  destruct Hat as (_ & Hid & Hcontent & _ & Hflag & _).
  rewrite Hflag, Hid. split.
  - rewrite Nat.eqb_eq. lia.
  - intros Heq. apply Nat.eqb_eq in Heq. now subst j.
Qed.

Lemma climax_is_first_maximum_main_script :
  (Example.generate Example.scenes Example.key_elements
                    "эпичный боевик" "веб-комикс" WESTERN [0.9%float]
   = Ok (Example.main_layout, [])) /\
  (exists ci,
     _find_climax Py.lower Example.scenes Example.key_elements = Ok ci /\
     Spec.first_maximum
       (map (Spec.score Py.lower Example.key_elements) Example.scenes) ci /\
     (forall p, In p (PageLayout.panels Example.main_layout) ->
        (Panel.is_climax p = true <-> Panel.id p = Z.of_nat ci + 1) /\
        (Panel.is_climax p = true ->
         nth_error Example.scenes ci = Some (Panel.content p)))).
Proof.
  split; [vm_compute; reflexivity |].
  apply (climax_is_first_maximum Py.lower Example.draws Example.next_draw
           Example.scenes Example.key_elements "эпичный боевик" "веб-комикс"
           WESTERN [0.9%float] [] Example.main_layout).
  vm_compute; reflexivity.
Defined.

(** Scenario C and the tie-break law on concrete scripts. *)
Example explosion_last_is_climax :
  _find_climax Py.lower ["Тихое утро"; "Битва у ворот"; "Взрыв моста"] []
  = Ok 2%nat.
Proof. vm_compute. reflexivity. Qed.

Example tie_goes_to_the_earlier_scene :
  _find_climax Py.lower ["Тихое утро"; "Шокирующий финал"; "Решающий удар"] []
  = Ok 1%nat.
Proof. vm_compute. reflexivity. Qed.

(** ** Geometry *)

(** C2: every panel of a returned layout lies on the page.  On the exact
    values of its coordinates, [0 <= x <= 1], [0 <= y <= 1],
    [x + width <= 1 + epsilon], [y + height <= 1 + epsilon] with
    [epsilon = 2^-53], [width >= 0.1] and [height >= 0.1]; and the same
    comparisons evaluated in float arithmetic hold with no tolerance. *)
Theorem panels_within_page
  (lower : string -> string) (rng : Type) (random : rng -> float * rng)
  (scenes key_elements : list string) (mood target_format : string)
  (reading_direction : ReadingDirection) (g g' : rng) (layout : PageLayout.t) :
  generate_layout lower rng random scenes key_elements mood target_format
                  reading_direction g = Ok (layout, g') ->
  forall p, In p (PageLayout.panels layout) ->
    Spec.within_page p /\ Spec.within_page_float p = true.
Proof.
  intros H p Hin. taken_apart H.
  pose proof (format_limit_range target_format) as Hlimit.
  assert (Hpc : 3 <= pc <= 9) by lia.
  pose proof (layout_rects_within_page pc ci rs Hpc Hrects) as Hall.
  apply In_nth_error in Hin. destruct Hin as [j Hj].
  destruct (Hpanels j p Hj) as (r & Hr & Hat).
  destruct Hat as (Hrect & _).
  apply rect_within_page_spec. rewrite Hrect.
  rewrite Forall_forall in Hall. apply Hall. eapply nth_error_In; eauto.
Qed.

(** The tolerance is used: the fourth slot of the six-panel template has
    [x = 0.45] and [width = 0.55], whose float sum is [1.0] and whose exact
    sum is [1 + 2^-54]. *)
Example tolerance_is_used :
  exists x w : Q,
    value 0.45%float = Some x /\ value 0.55%float = Some w /\
    (1 < x + w)%Q /\ (x + w <= 1 + Spec.epsilon)%Q /\
    PrimFloat.eqb (0.45 + 0.55)%float 1%float = true.
Proof.
  eexists. eexists. split; [vm_compute; reflexivity |].
  split; [vm_compute; reflexivity |].
  repeat split; vm_compute; congruence.
Qed.

Lemma panels_within_page_main_script :
  (Example.generate Example.scenes Example.key_elements
                    "эпичный боевик" "веб-комикс" WESTERN [0.9%float]
   = Ok (Example.main_layout, [])) /\
  (forall p, In p (PageLayout.panels Example.main_layout) ->
     Spec.within_page p /\ Spec.within_page_float p = true).
Proof.
  split; [vm_compute; reflexivity |].
  apply (panels_within_page Py.lower Example.draws Example.next_draw
           Example.scenes Example.key_elements "эпичный боевик" "веб-комикс"
           WESTERN [0.9%float] [] Example.main_layout).
  vm_compute; reflexivity.
Defined.

(** ** Derived classifications *)

(** C10: a returned layout holds at least one panel, and both derived
    classifications are defined on it: [composition_type] returns one of its
    three labels, raising neither on the mean nor on the maximum nor on
    their quotient, and [dominant_flow] is one of its four labels. *)
Theorem classifications_defined
  (lower : string -> string) (rng : Type) (random : rng -> float * rng)
  (scenes key_elements : list string) (mood target_format : string)
  (reading_direction : ReadingDirection) (g g' : rng) (layout : PageLayout.t) :
  generate_layout lower rng random scenes key_elements mood target_format
                  reading_direction g = Ok (layout, g') ->
  (1 <= List.length (PageLayout.panels layout))%nat /\
  (exists c, composition_type layout = Ok c /\
             In c ["pyramidal_focus"; "balanced_grid"; "rhythmic_mosaic"]) /\
  In (dominant_flow layout)
     ["vertical_right_left"; "z_pattern"; "diagonal_dynamic"; "modified_z"].
Proof.
  intros H. taken_apart H.
  pose proof (format_limit_range target_format) as Hlimit.
  assert (Hpc : 3 <= pc <= 9) by lia.
  split; [lia |]. split; [| apply dominant_flow_cases].
  assert (Hret : returns (composition_type layout)).
  { unfold composition_type. rewrite analyze_composition_rects.
    destruct (create_panels_spec lower rng random scenes ci rs g)
      as (panels & g0 & Hcp & Hlen & Hnth).
    rewrite Hcreated in Hcp. injection Hcp as <- <-.
    rewrite (panels_rects lower scenes ci rs _ Hlen Hnth).
    destruct (Nat.le_gt_cases (List.length scenes) (Z.to_nat pc)) as [Hle | Hgt].
    - apply (layout_rects_compositions pc ci _ rs Hpc Hrects). lia.
    - rewrite firstn_all2 by lia.
      rewrite <- (firstn_all rs), Hslots.
      apply (layout_rects_compositions pc ci _ rs Hpc Hrects). lia. }
  destruct Hret as [c Hc]. exists c. split; [exact Hc |].
  exact (composition_type_cases layout c Hc).
Qed.

Lemma classifications_defined_main_script :
  (Example.generate Example.scenes Example.key_elements
                    "эпичный боевик" "веб-комикс" WESTERN [0.9%float]
   = Ok (Example.main_layout, [])) /\
  ((1 <= List.length (PageLayout.panels Example.main_layout))%nat /\
   (exists c, composition_type Example.main_layout = Ok c /\
              In c ["pyramidal_focus"; "balanced_grid"; "rhythmic_mosaic"]) /\
   In (dominant_flow Example.main_layout)
      ["vertical_right_left"; "z_pattern"; "diagonal_dynamic"; "modified_z"]).
Proof.
  split; [vm_compute; reflexivity |].
  apply (classifications_defined Py.lower Example.draws Example.next_draw
           Example.scenes Example.key_elements "эпичный боевик" "веб-комикс"
           WESTERN [0.9%float] [] Example.main_layout).
  vm_compute; reflexivity.
Defined.

(** ** Reading order *)

Import LayoutFormatter ReadingOrderFacts.

(** C8, as stated, fails on panels that share a position: the sort is
    stable, so both reading orders keep them in the order of the input. *)
Lemma stacked_panels_are_not_reversed :
  _sort_panels_by_reading_order Example.stacked_panels MANGA
  <> rev (_sort_panels_by_reading_order Example.stacked_panels WESTERN).
Proof.
  intros H. apply (f_equal (map Panel.id)) in H. vm_compute in H. discriminate.
Qed.

(** C8, amended: on panels whose coordinates are not NaN, the WESTERN order
    is a permutation of the panels in which no panel is followed by one with
    a smaller key [(y, x)], the MANGA order is one for the key [(-y, -x)],
    and when the positions of the panels are pairwise different the MANGA
    order is the exact reverse of the WESTERN order. *)
Theorem reading_orders (panels : list Panel.t) :
  Forall (fun p => Spec.comparable p = true) panels ->
  let western := _sort_panels_by_reading_order panels WESTERN in
  let manga := _sort_panels_by_reading_order panels MANGA in
  Permutation western panels /\
  StronglySorted
    (fun p q => pair_lt (western_key q) (western_key p) = false) western /\
  Permutation manga panels /\
  StronglySorted
    (fun p q => pair_lt (manga_key q) (manga_key p) = false) manga /\
  (ForallOrdPairs (fun p q => Spec.same_position p q = false) panels ->
   manga = rev western).
Proof.
  intros Hc western manga.
  destruct (reading_orders_sorted panels Hc) as [Hw Hm].
  split; [apply SortedFacts.sorted_Permutation |].
  split; [exact Hw |].
  split; [apply SortedFacts.sorted_Permutation |].
  split; [exact Hm |].
  intros Hd. now apply manga_reverses_western.
Qed.

Lemma reading_orders_main_script :
  Forall (fun p => Spec.comparable p = true)
         (PageLayout.panels Example.main_layout) /\
  (let western :=
     _sort_panels_by_reading_order (PageLayout.panels Example.main_layout) WESTERN in
   let manga :=
     _sort_panels_by_reading_order (PageLayout.panels Example.main_layout) MANGA in
   Permutation western (PageLayout.panels Example.main_layout) /\
   StronglySorted
     (fun p q => pair_lt (western_key q) (western_key p) = false) western /\
   Permutation manga (PageLayout.panels Example.main_layout) /\
   StronglySorted
     (fun p q => pair_lt (manga_key q) (manga_key p) = false) manga /\
   (ForallOrdPairs (fun p q => Spec.same_position p q = false)
                   (PageLayout.panels Example.main_layout) ->
    manga = rev western)).
Proof.
  assert (H : Forall (fun p => Spec.comparable p = true)
                     (PageLayout.panels Example.main_layout))
    by (repeat (apply Forall_cons; [vm_compute; reflexivity |]);
        apply Forall_nil).
  split; [exact H |].
  exact (reading_orders (PageLayout.panels Example.main_layout) H).
Defined.

(** On the page of [main] the two orders are [1; 2; 3; 4] and its reverse. *)
Example main_script_reading_orders :
  map Panel.id
      (_sort_panels_by_reading_order (PageLayout.panels Example.main_layout) WESTERN)
  = [1; 2; 3; 4] /\
  map Panel.id
      (_sort_panels_by_reading_order (PageLayout.panels Example.main_layout) MANGA)
  = [4; 3; 2; 1].
Proof. split; vm_compute; reflexivity. Qed.

(** The panels of a returned layout have pairwise different positions, so
    its MANGA order is the reverse of its WESTERN order. *)
Theorem generated_reading_orders
  (lower : string -> string) (rng : Type) (random : rng -> float * rng)
  (scenes key_elements : list string) (mood target_format : string)
  (reading_direction : ReadingDirection) (g g' : rng) (layout : PageLayout.t) :
  generate_layout lower rng random scenes key_elements mood target_format
                  reading_direction g = Ok (layout, g') ->
  _sort_panels_by_reading_order (PageLayout.panels layout) MANGA
  = rev (_sort_panels_by_reading_order (PageLayout.panels layout) WESTERN).
Proof.
  intros H. taken_apart H.
  pose proof (format_limit_range target_format) as Hlimit.
  assert (Hpc : 3 <= pc <= 9) by lia.
  destruct (layout_rects_positions pc ci rs Hpc Hrects) as [Hc Hd].
  destruct (create_panels_spec lower rng random scenes ci rs g)
    as (panels & g0 & Hcp & Hlen & Hnth).
  rewrite Hcreated in Hcp. injection Hcp as <- <-.
  pose proof (panels_rects lower scenes ci rs _ Hlen Hnth) as Hmap.
  apply manga_reverses_western.
  - apply Forall_forall. intros p Hp.
    rewrite Forall_forall in Hc.
    assert (Hin : In (rect_of p) rs).
    { apply (firstn_In (List.length scenes)). rewrite <- Hmap. now apply in_map. }
    exact (Hc _ Hin).
  - apply (ForallOrdPairs_firstn _ _ (List.length scenes)) in Hd.
    rewrite <- Hmap in Hd. apply ForallOrdPairs_map in Hd. exact Hd.
Qed.

(* ================================================================== *)
(** * Further facts about lists, floats and templates *)
(* ================================================================== *)

Module SlotFacts.

Import FloatFacts.

(** ** Lists *)

Lemma setitem_nth_error {A : Type} (l : list A) (i : nat) (v : A) (l' : list A) :
  setitem l i v = Ok l' ->
  forall j, nth_error l' j = if Nat.eqb j i then Some v else nth_error l j.
Proof.
  revert i l'; induction l as [| a l IH]; intros i l'; simpl; [discriminate |].
  destruct i as [| i].
  - intros H. injection H as <-. intros [| j]; reflexivity.
  - intros H. apply bind_Ok in H. destruct H as (rest & Hrest & H).
    injection H as <-. intros [| j]; simpl; [reflexivity |].
    exact (IH i rest Hrest j).
Qed.

Lemma ForallOrdPairs_nth_error {A : Type} (R : A -> A -> Prop) (l : list A) :
  ForallOrdPairs R l ->
  forall i j a b, (i < j)%nat ->
    nth_error l i = Some a -> nth_error l j = Some b -> R a b.
Proof.
  induction 1 as [| c l Hc Hl IH]; intros i j a b Hij Hi Hj.
  - destruct i; discriminate.
  - destruct j as [| j]; [lia |]. simpl in Hj.
    destruct i as [| i]; simpl in Hi.
    + injection Hi as <-. rewrite Forall_forall in Hc.
      apply Hc. eapply nth_error_In; eauto.
    + apply (IH i j); auto. lia.
Qed.

Lemma nth_error_ForallOrdPairs {A : Type} (R : A -> A -> Prop) (l : list A) :
  (forall i j a b, (i < j)%nat ->
     nth_error l i = Some a -> nth_error l j = Some b -> R a b) ->
  ForallOrdPairs R l.
Proof.
  induction l as [| c l IH]; intros H; constructor.
  - apply Forall_forall. intros b Hb. apply In_nth_error in Hb.
    destruct Hb as [j Hj]. apply (H 0%nat (S j)); [lia | reflexivity | exact Hj].
  - apply IH. intros i j a b Hij Hi Hj. apply (H (S i) (S j)); auto. lia.
Qed.

(** A list that is already in strictly ascending order is left as it is. *)
Lemma insert_last {A : Type} (lt : A -> A -> bool) (a : A) (l : list A) :
  (forall b, In b l -> lt a b = false) -> insert lt a l = l ++ [a].
Proof.
  induction l as [| b l IH]; intros H; simpl; [reflexivity |].
  rewrite (H b) by now left. f_equal. apply IH. intros c Hc. apply H. now right.
Qed.

Lemma sorted_loop_ascending {A : Type} (lt : A -> A -> bool) (l : list A) :
  forall acc,
    ForallOrdPairs (fun a b => lt b a = false) (acc ++ l) ->
    fold_left (fun acc a => insert lt a acc) l acc = acc ++ l.
Proof.
  induction l as [| a l IH]; intros acc H; simpl; [now rewrite app_nil_r |].
  rewrite insert_last.
  - rewrite IH; rewrite <- app_assoc; [reflexivity | exact H].
  - intros b Hb. apply in_split in Hb. destruct Hb as (l1 & l2 & ->).
    apply (ForallOrdPairs_nth_error _ _ H (List.length l1)
             (List.length (l1 ++ b :: l2))).
    + rewrite length_app. simpl. lia.
    + rewrite <- app_assoc. simpl. rewrite nth_error_app2 by lia.
      now rewrite Nat.sub_diag.
    + rewrite nth_error_app2 by lia. now rewrite Nat.sub_diag.
Qed.

Lemma sorted_ascending {A : Type} (lt : A -> A -> bool) (l : list A) :
  ForallOrdPairs (fun a b => lt b a = false) l -> sorted lt l = l.
Proof.
  intros H. unfold sorted. now rewrite sorted_loop_ascending.
Qed.

(** ** Comparisons of floats *)

Lemma ltb_leb (a b : float) : PrimFloat.ltb a b = true -> PrimFloat.leb a b = true.
Proof.
  rewrite ltb_spec, leb_spec. unfold SFltb, SFleb.
  destruct (SFcompare (Prim2SF a) (Prim2SF b)) as [[| |] |]; congruence.
Qed.

(** [max(0.0, min(1.0, v))] lies in [[0, 1]] whatever [v] is: a NaN and
    every value of at least 1 give [1.0]. *)
Lemma clamp_unit (v : float) :
  let c := fmax 0.0%float (fmin 1.0%float v) in
  PrimFloat.leb 0 c = true /\ PrimFloat.leb c 1 = true.
Proof.
  unfold fmax, fmin. destruct (PrimFloat.ltb v 1.0) eqn:E1.
  - destruct (PrimFloat.ltb 0.0 v) eqn:E2.
    + split; now apply ltb_leb.
    + split; reflexivity.
  - split; reflexivity.
Qed.

(** [max(0.1, min(1.0, v))] lies in [[0.1, 1]]. *)
Lemma clamp_size (v : float) :
  let c := fmax 0.1%float (fmin 1.0%float v) in
  PrimFloat.leb 0.1 c = true /\ PrimFloat.leb c 1 = true.
Proof.
  unfold fmax, fmin. destruct (PrimFloat.ltb v 1.0) eqn:E1.
  - destruct (PrimFloat.ltb 0.1 v) eqn:E2.
    + split; now apply ltb_leb.
    + split; reflexivity.
  - split; reflexivity.
Qed.

(** A positive integer converts to a positive float. *)
Lemma of_uint63_positive (i : Uint63.int) :
  1 <= Uint63.to_Z i ->
  exists m e, Prim2SF (of_uint63 i) = S754_finite false m e.
Proof.
  intros Hi. rewrite of_uint63_spec.
  pose proof (Uint63.to_Z_bounded i) as Hb.
  change Uint63.wB with (2 ^ 63) in Hb.
  destruct (Uint63.to_Z i) as [| p | p]; try lia. simpl binary_normalize.
  assert (Hd : 1 <= Zpos (digits2_pos p) <= 63).
  { pose proof (digits2_lower p) as Hl. split; [lia |].
    assert (H : 2 ^ (Zpos (digits2_pos p) - 1) < 2 ^ 63) by lia.
    apply Z.pow_lt_mono_r_iff in H; lia. }
  unfold binary_round.
  set (f := fexp prec emax (Zpos (digits2_pos p) + 0)).
  assert (Hf : f = Z.max (Zpos (digits2_pos p) - 53) (-1074))
    by (unfold f, fexp, SpecFloat.emin, prec, emax; lia).
  clearbody f.
  destruct (shl_align p 0 f) as [mz ez] eqn:Es.
  assert (Hs : Zpos (digits2_pos mz) + ez = Zpos (digits2_pos p) /\ ez <= 0).
  { unfold shl_align in Es.
    destruct (f - 0) as [| d | d] eqn:Ed; injection Es as <- <-; try lia.
    rewrite digits2_iter_xO. lia. }
  destruct Hs as [Hmag Hez].
  destruct (binary_round_aux_magnitude false (Zpos mz) ez loc_Exact)
    as (m & e & Hr & Hm); simpl Zdigits2; try lia.
  exists m, e. exact Hr.
Qed.

Lemma float_of_int_negative (n : Z) :
  - 2 ^ 63 < n < 0 -> PrimFloat.ltb (float_of_int n) 0 = true.
Proof.
  intros Hn. unfold float_of_int.
  destruct (Z.ltb_spec n 0) as [_ | Hpos]; [| lia].
  assert (Hto : Uint63.to_Z (Uint63.of_Z (- n)) = - n).
  { rewrite Uint63.of_Z_spec. apply Z.mod_small.
    change Uint63.wB with (2 ^ 63). lia. }
  destruct (of_uint63_positive (Uint63.of_Z (- n))) as (m & e & Hp);
    [rewrite Hto; lia |].
  rewrite ltb_spec, opp_spec, Hp. reflexivity.
Qed.

End SlotFacts.

(* ================================================================== *)
(** * Facts about the templates and the emphasis *)
(* ================================================================== *)

Module TemplateFacts.

Import SlotFacts.

Lemma normalize_layout_map (layout : list Rect) :
  _normalize_layout layout = map normalize_rect layout.
Proof. unfold _normalize_layout. now rewrite append_loop_map. Qed.

(** The emphasis, slot by slot. *)
Lemma adjust_for_climax_spec (template : list Rect) (ci : nat) :
  exists adjusted,
    _adjust_for_climax template ci = Ok adjusted /\
    List.length adjusted = List.length template /\
    ((List.length template <= ci)%nat -> adjusted = template) /\
    ((ci < List.length template)%nat ->
     forall j, nth_error adjusted j
               = option_map (fun r => normalize_rect
                                        (if Nat.eqb j ci then Slots.emphasized r else r))
                            (nth_error template j)).
Proof.
  unfold _adjust_for_climax.
  destruct (Nat.leb_spec (List.length template) ci) as [Hout | Hin].
  - exists template. repeat split; [lia].
  - destruct (getitem_returns template ci Hin) as [[[[x y] w] h] Hget].
    rewrite Hget. cbn [bind].
    destruct (setitem_returns template ci (x, y, (w * 1.3)%float, (h * 1.3)%float) Hin)
      as (l' & Hset & Hlen).
    rewrite Hset. cbn [bind]. exists (_normalize_layout l').
    rewrite normalize_layout_map, length_map.
    split; [reflexivity |]. split; [exact Hlen |]. split; [lia |].
    intros _ j. rewrite nth_error_map, (setitem_nth_error _ _ _ _ Hset).
    apply getitem_Ok in Hget.
    destruct (Nat.eqb_spec j ci) as [-> | Hne].
    + rewrite Hget. reflexivity.
    + reflexivity.
Qed.

(** The templates of the reachable panel counts. *)
Lemma template_cases (pc : Z) :
  3 <= pc <= 9 ->
  exists template,
    _select_layout_template pc "" = Ok template /\
    map normalize_rect template = template /\
    Slots.template_ok pc template = true.
Proof.
  intros Hpc.
  reachable_count pc; eexists; (split; [vm_compute; reflexivity |]);
    split; vm_compute; reflexivity.
Qed.

(** The position of a slot does not depend on its size. *)
Lemma normalize_rect_position (x y w h w' h' : float) :
  normalize_rect (x, y, w, h) = (x, y, w, h) ->
  exists w'' h'', normalize_rect (x, y, w', h') = (x, y, w'', h'').
Proof.
  unfold normalize_rect. intros H. injection H as Hx Hy _ _.
  rewrite Hx, Hy. eexists. eexists. reflexivity.
Qed.

(** The slots the engine hands to [_create_panels], against the template. *)
Lemma layout_rects_slots (pc : Z) (ci : nat) (rs : list Rect) :
  3 <= pc <= 9 -> Spec.layout_rects pc ci = Ok rs ->
  exists template,
    _select_layout_template pc "" = Ok template /\
    Slots.template_ok pc template = true /\
    forall j r, nth_error rs j = Some r ->
      exists slot,
        nth_error template j = Some slot /\
        normalize_rect slot = slot /\
        r = if Nat.eqb j ci then normalize_rect (Slots.emphasized slot) else slot.
Proof.
  intros Hpc Hrs.
  destruct (template_cases pc Hpc) as (template & Ht & Hnormal & Hok).
  exists template. split; [exact Ht |]. split; [exact Hok |].
  unfold Spec.layout_rects in Hrs. rewrite Ht in Hrs. cbn [bind] in Hrs.
  destruct (adjust_for_climax_spec template ci)
    as (adjusted & Hadj & Hlen & Hout & Hin).
  rewrite Hrs in Hadj. injection Hadj as <-.
  assert (Hfix : forall j slot, nth_error template j = Some slot ->
            normalize_rect slot = slot).
  { intros j slot Hj.
    assert (H : nth_error (map normalize_rect template) j = Some slot)
      by now rewrite Hnormal.
    rewrite nth_error_map, Hj in H. simpl in H. congruence. }
  intros j r Hj.
  destruct (Nat.le_gt_cases (List.length template) ci) as [Hle | Hgt].
  - rewrite (Hout Hle) in Hj. exists r.
    split; [exact Hj |]. split; [exact (Hfix j r Hj) |].
    assert (j < List.length template)%nat by (apply nth_error_Some; congruence).
    destruct (Nat.eqb_spec j ci); [lia | reflexivity].
  - rewrite (Hin Hgt) in Hj.
    destruct (nth_error template j) as [slot |] eqn:Es; [| discriminate].
    simpl in Hj. injection Hj as <-. exists slot.
    split; [reflexivity |]. split; [exact (Hfix j slot Es) |].
    destruct (Nat.eqb j ci); [reflexivity | exact (Hfix j slot Es)].
Qed.

(** The grids of up to a hundred panels, checked one by one. *)
Lemma grids_on_page : forallb Slots.grid_on_page (seq 1 100) = true.
Proof. vm_compute. reflexivity. Qed.

Lemma overlap_sym (r1 r2 : Rect) : Slots.overlap r1 r2 = Slots.overlap r2 r1.
Proof.
  destruct r1 as [[[x1 y1] w1] h1], r2 as [[[x2 y2] w2] h2]. unfold Slots.overlap.
  destruct (PrimFloat.ltb x1 (x2 + w2)), (PrimFloat.ltb x2 (x1 + w1)),
    (PrimFloat.ltb y1 (y2 + h2)), (PrimFloat.ltb y2 (y1 + h1)); reflexivity.
Qed.

End TemplateFacts.

(* ================================================================== *)
(** * Properties of the helpers of the engine *)
(* ================================================================== *)

Import SlotFacts TemplateFacts.

(** ** Aspect ratios *)

(** X1: [_determine_aspect_ratio] is one decision list.  The ratio of a
    scene is the ratio of the first entry of [CONTENT_RATIOS], then of
    "реакция" (PORTRAIT) and "действие" (CINEMATIC), whose keyword occurs in
    the lowered content, and STANDARD when none occurs: the other three
    words of the default branches are keys of the table and never decide
    there. *)
Theorem aspect_ratio_by_table (lower : string -> string) (content : string) :
  _determine_aspect_ratio lower content
  = match first_ratio Slots.ratio_table (lower content) with
    | Some ratio => ratio
    | None => STANDARD
    end.
Proof.
  unfold _determine_aspect_ratio, Slots.ratio_table, CONTENT_RATIOS, any_in.
  generalize (lower content). intros s.
  cbn [first_ratio app existsb].
  repeat match goal with
         | |- context [contains ?k s] =>
             destruct (contains k s); cbn [orb]; try reflexivity
         end.
Qed.

(** X2: no scene is given the SQUARE or the VERTICAL ratio: the ratio of a
    scene is one of WIDESCREEN, CINEMATIC, PORTRAIT, EXTREME_VERTICAL and
    STANDARD. *)
Theorem aspect_ratio_never_square_nor_vertical
  (lower : string -> string) (content : string) :
  In (_determine_aspect_ratio lower content)
     [WIDESCREEN; CINEMATIC; PORTRAIT; EXTREME_VERTICAL; STANDARD] /\
  _determine_aspect_ratio lower content <> SQUARE /\
  _determine_aspect_ratio lower content <> VERTICAL.
Proof.
  unfold _determine_aspect_ratio, CONTENT_RATIOS, any_in.
  generalize (lower content). intros s.
  cbn [first_ratio existsb].
  repeat match goal with
         | |- context [contains ?k s] => destruct (contains k s); cbn [orb]
         end;
    (split; [simpl; tauto | split; discriminate]).
Qed.

(** ** Templates *)

(** X3: the mood never selects a template.  [_select_layout_template] returns
    the first variant stored for the panel count, and the grid of
    [_generate_grid_layout] for a count without stored variants, whatever
    the mood: no count has a second variant for the "dynamic" style. *)
Theorem template_selection_ignores_mood (pc : Z) (mood : string) :
  _select_layout_template pc mood
  = match templates_lookup LAYOUT_TEMPLATES pc with
    | Some variants => getitem variants 0
    | None => _generate_grid_layout pc
    end /\
  forall mood', _select_layout_template pc mood' = _select_layout_template pc mood.
Proof.
  split.
  - unfold _select_layout_template.
    destruct (templates_lookup LAYOUT_TEMPLATES pc) as [ts |] eqn:E.
    + apply templates_lookup_single in E. cbn [bind].
      destruct ts as [| t [| t' ts]]; try discriminate.
      simpl. now rewrite andb_false_r.
    + destruct (_generate_grid_layout pc) as [grid | e]; cbn [bind]; [| reflexivity].
      simpl. now rewrite andb_false_r.
  - intros mood'. now rewrite (select_layout_template_mood pc mood'),
                              (select_layout_template_mood pc mood).
Qed.

(** X4: a grid needs a panel.  For a panel count of zero
    [_generate_grid_layout] raises ZeroDivisionError, for a negative count
    it raises ValueError (the square root), and [_select_layout_template]
    raises the same error, whatever the mood. *)
Theorem grid_raises_without_panels (panel_count : Z) (mood : string) :
  - 2 ^ 63 < panel_count <= 0 ->
  exists e,
    _generate_grid_layout panel_count = Raise e /\
    _select_layout_template panel_count mood = Raise e /\
    (panel_count = 0 -> exists msg, e = ZeroDivisionError msg) /\
    (panel_count < 0 -> exists msg, e = ValueError msg).
Proof.
  intros Hn.
  assert (Hgrid : exists e,
            _generate_grid_layout panel_count = Raise e /\
            (panel_count = 0 -> exists msg, e = ZeroDivisionError msg) /\
            (panel_count < 0 -> exists msg, e = ValueError msg)).
  { destruct (Z.eq_dec panel_count 0) as [-> | Hne].
    - eexists. split; [vm_compute; reflexivity |].
      split; [intros _; eexists; reflexivity | lia].
    - exists (ValueError "math domain error").
      split; [| split; [lia | intros _; eexists; reflexivity]].
      unfold _generate_grid_layout, math_sqrt.
      rewrite float_of_int_negative by lia. reflexivity. }
  destruct Hgrid as (e & Hgrid & Hzero & Hneg).
  exists e. split; [exact Hgrid |]. split; [| split; assumption].
  unfold _select_layout_template.
  assert (Hlookup : templates_lookup LAYOUT_TEMPLATES panel_count = None).
  { unfold LAYOUT_TEMPLATES. cbn [templates_lookup].
    repeat match goal with
           | |- context [?a =? panel_count] =>
               destruct (Z.eqb_spec a panel_count); [lia |]
           end.
    reflexivity. }
  rewrite Hlookup, Hgrid. reflexivity.
Qed.

Lemma grid_raises_without_panels_minus_two :
  - 2 ^ 63 < -2 <= 0 /\
  exists e,
    _generate_grid_layout (-2) = Raise e /\
    _select_layout_template (-2) "нуар" = Raise e /\
    (-2 = 0 -> exists msg, e = ZeroDivisionError msg) /\
    (-2 < 0 -> exists msg, e = ValueError msg).
Proof.
  split; [lia |].
  apply (grid_raises_without_panels (-2) "нуар"). lia.
Defined.

(** X5: up to a hundred panels the grid is a page.  For [1 <= n <= 100]
    [_generate_grid_layout] returns [n] cells, each within the page (the
    boundary invariant, on exact values and as float comparisons) and listed
    in the WESTERN reading order. *)
Theorem small_grids_on_page (panel_count : Z) :
  1 <= panel_count <= 100 ->
  exists cells,
    _generate_grid_layout panel_count = Ok cells /\
    List.length cells = Z.to_nat panel_count /\
    Forall (fun cell => Spec.rect_within_page cell = true) cells /\
    ForallOrdPairs (fun c1 c2 => Slots.slot_lt c1 c2 = true) cells.
Proof.
  intros Hn.
  assert (Hin : In (Z.to_nat panel_count) (seq 1 100)) by (apply in_seq; lia).
  pose proof (proj1 (forallb_forall _ _) grids_on_page _ Hin) as Hall.
  unfold Slots.grid_on_page, Spec.is_ok in Hall.
  rewrite Z2Nat.id in Hall by lia.
  destruct (_generate_grid_layout panel_count) as [cells | e]; [| discriminate].
  apply andb_true_iff in Hall. destruct Hall as [Hall Horder].
  apply andb_true_iff in Hall. destruct Hall as [Hlen Hpage].
  exists cells. split; [reflexivity |].
  split; [now apply Nat.eqb_eq |]. split.
  - apply Forall_forall. now apply forallb_forall.
  - now apply all_pairs_spec.
Qed.

Lemma small_grids_on_page_seven :
  1 <= 7 <= 100 /\
  exists cells,
    _generate_grid_layout 7 = Ok cells /\
    List.length cells = Z.to_nat 7 /\
    Forall (fun cell => Spec.rect_within_page cell = true) cells /\
    ForallOrdPairs (fun c1 c2 => Slots.slot_lt c1 c2 = true) cells.
Proof.
  split; [lia |]. apply (small_grids_on_page 7). lia.
Defined.

(** Beyond a hundred panels the cells are narrower than the least width. *)
Example large_grid_below_least_width :
  match _generate_grid_layout 101 with
  | Ok cells => existsb (fun '(_, _, w, _) => PrimFloat.ltb w 0.1) cells
  | Raise _ => false
  end = true.
Proof. vm_compute. reflexivity. Qed.

(** ** Normalisation and emphasis *)

Lemma normalize_rect_clamped (r : Rect) :
  let '(x, y, w, h) := normalize_rect r in
  Slots.position_on_page (x, y, w, h) = true /\
  (w = (1.0 - x)%float \/ PrimFloat.leb 0.1 w = true /\ PrimFloat.leb w 1 = true) /\
  (h = (1.0 - y)%float \/ PrimFloat.leb 0.1 h = true /\ PrimFloat.leb h 1 = true).
Proof.
  destruct r as [[[x y] w] h]. unfold normalize_rect, Slots.position_on_page.
  destruct (clamp_unit x) as [Hx0 Hx1]. destruct (clamp_unit y) as [Hy0 Hy1].
  cbv zeta in Hx0, Hx1, Hy0, Hy1. rewrite Hx0, Hx1, Hy0, Hy1.
  split; [reflexivity |]. split.
  - destruct (PrimFloat.ltb _ _); [now left | right; apply clamp_size].
  - destruct (PrimFloat.ltb _ _); [now left | right; apply clamp_size].
Qed.

(** X6: [_normalize_layout] puts every position on the page.  It keeps the
    number of slots, and in each slot of its result [0 <= x <= 1] and
    [0 <= y <= 1] as float comparisons, whatever the floats of the input are
    (a NaN becomes [1.0]); the width is [1.0 - x] or lies in [[0.1, 1]], the
    height is [1.0 - y] or lies in [[0.1, 1]]. *)
Theorem normalized_positions_on_page (layout : list Rect) :
  List.length (_normalize_layout layout) = List.length layout /\
  forall x y w h, In (x, y, w, h) (_normalize_layout layout) ->
    Slots.position_on_page (x, y, w, h) = true /\
    (w = (1.0 - x)%float \/ PrimFloat.leb 0.1 w = true /\ PrimFloat.leb w 1 = true) /\
    (h = (1.0 - y)%float \/ PrimFloat.leb 0.1 h = true /\ PrimFloat.leb h 1 = true).
Proof.
  rewrite normalize_layout_map, length_map. split; [reflexivity |].
  intros x y w h Hin. apply in_map_iff in Hin. destruct Hin as (r & Hr & _).
  pose proof (normalize_rect_clamped r) as H. rewrite Hr in H. exact H.
Qed.

(** The width left to a slot near the right edge is below the least width:
    the slot [(0.95, 0, 0.5, 0.5)] keeps a width of about [0.05]. *)
Example normalized_width_below_floor :
  exists x y w h,
    _normalize_layout [(0.95, 0.0, 0.5, 0.5)%float] = [(x, y, w, h)] /\
    PrimFloat.ltb w 0.1 = true.
Proof. do 4 eexists. split; vm_compute; reflexivity. Qed.

(** X7: [_adjust_for_climax] never raises and keeps the number of slots.  A
    climax index at or beyond the template returns the template itself;
    otherwise every slot of the result is the normalised slot of the
    template, the slot at the climax index being enlarged by 1.3 in width
    and height first, so every position of the result lies on the page. *)
Theorem emphasis_slot_by_slot (template : list Rect) (climax_index : nat) :
  exists adjusted,
    _adjust_for_climax template climax_index = Ok adjusted /\
    List.length adjusted = List.length template /\
    ((List.length template <= climax_index)%nat -> adjusted = template) /\
    ((climax_index < List.length template)%nat ->
     (forall j, nth_error adjusted j
                = option_map
                    (fun r => normalize_rect
                                (if Nat.eqb j climax_index then Slots.emphasized r else r))
                    (nth_error template j)) /\
     Forall (fun r => Slots.position_on_page r = true) adjusted).
Proof.
  destruct (adjust_for_climax_spec template climax_index)
    as (adjusted & Hadj & Hlen & Hout & Hin).
  exists adjusted. split; [exact Hadj |]. split; [exact Hlen |].
  split; [exact Hout |]. intros Hlt. split; [exact (Hin Hlt) |].
  apply Forall_forall. intros r Hr. apply In_nth_error in Hr.
  destruct Hr as [j Hj]. rewrite (Hin Hlt) in Hj.
  destruct (nth_error template j) as [slot |]; [| discriminate].
  simpl in Hj. injection Hj as <-.
  pose proof (normalize_rect_clamped
                (if Nat.eqb j climax_index then Slots.emphasized slot else slot)) as H.
  destruct (normalize_rect _) as [[[x y] w] h]. tauto.
Qed.

(* ================================================================== *)
(** * Facts about the panels of a returned layout *)
(* ================================================================== *)

Module PanelFacts.

Lemma layout_rects_order (pc : Z) (ci : nat) (rs : list Rect) :
  3 <= pc <= 9 -> Spec.layout_rects pc ci = Ok rs ->
  ForallOrdPairs (fun r1 r2 => Slots.slot_lt r1 r2 = true) rs.
Proof.
  intros Hpc Hrs.
  assert (Hall : Slots.all_rects_in_order = true) by (vm_compute; reflexivity).
  destruct (for_all_reachable_spec _ Hall pc ci Hpc) as (rs' & Hrs' & Hok).
  rewrite Hrs in Hrs'. injection Hrs' as <-.
  now apply all_pairs_spec.
Qed.

Lemma layout_rects_even (pc : Z) (ci k : nat) (rs : list Rect) :
  3 <= pc <= 9 -> Spec.layout_rects pc ci = Ok rs ->
  (1 <= k <= Z.to_nat pc)%nat ->
  Spec.analyze_rects (firstn k rs) = Ok (Slots.even_composition k).
Proof.
  intros Hpc Hrs Hk.
  assert (Hall : Slots.all_compositions_even = true) by (vm_compute; reflexivity).
  destruct (for_all_reachable_spec _ Hall pc ci Hpc) as (rs' & Hrs' & Hok).
  rewrite Hrs in Hrs'. injection Hrs' as <-.
  rewrite forallb_forall in Hok.
  assert (Hin : In k (seq 1 (Z.to_nat pc))) by (apply in_seq; lia).
  specialize (Hok k Hin). unfold Spec.is_ok in Hok.
  destruct (Spec.analyze_rects (firstn k rs)) as [c | e]; [| discriminate].
  apply String.eqb_eq in Hok. now subst c.
Qed.

Section WithParameters.

Variable lower : string -> string.
Variable rng : Type.
Variable random : rng -> float * rng.

(** The generator along the loop of [_create_panels]: it is stepped for the
    climax panel and for no other. *)
Lemma create_panels_loop_draws (scenes : list string) (ci : nat) (rs : list Rect) :
  forall (k : nat) (acc : list Panel.t) (g : rng),
  exists (news : list Panel.t) (g' : rng),
    create_panels_loop lower rng random (combine (seq k (List.length rs)) rs)
                       scenes ci acc g = Ok (acc ++ news, g') /\
    g' = (if ((k <=? ci) && (ci <? k + List.length news))%nat
          then snd (random g) else g) /\
    forall j p, nth_error news j = Some p ->
      Panel.is_bleed p
      = Nat.eqb (k + j) ci && PrimFloat.ltb 0.7%float (fst (random g)).
Proof.
  induction rs as [| [[[x y] w] h] rs IH]; intros k acc g.
  - exists [], g. simpl. rewrite app_nil_r, Nat.add_0_r.
    split; [reflexivity |]. split.
    + destruct (Nat.leb_spec k ci), (Nat.ltb_spec ci k); simpl; try reflexivity; lia.
    + intros [| j] p Hj; discriminate.
  - cbn [List.length seq combine create_panels_loop].
    destruct (Nat.leb_spec (List.length scenes) k) as [Hout | Hin].
    + exists [], g. rewrite app_nil_r. cbn [List.length]. rewrite Nat.add_0_r.
      split; [reflexivity |]. split.
      * destruct (Nat.leb_spec k ci), (Nat.ltb_spec ci k); simpl; try reflexivity; lia.
      * intros [| j] p Hj; discriminate.
    + destruct (getitem_returns scenes k Hin) as [content Hc].
      rewrite Hc. cbn [bind].
      destruct (Nat.eqb_spec k ci) as [Heq | Hne].
      * destruct (random g) as [u g1] eqn:Er. cbn [fst snd].
        set (panel := Panel.mk (Z.of_nat k + 1) x y w h
                               (_determine_aspect_ratio lower content) content
                               (PrimFloat.ltb 0.7%float u) true).
        destruct (IH (S k) (acc ++ [panel]) g1) as (news & g' & Hloop & Hg & Hnews).
        exists (panel :: news), g'.
        rewrite Hloop, <- app_assoc. split; [reflexivity |]. split.
        -- rewrite Hg. cbn [List.length].
           destruct (Nat.leb_spec (S k) ci); [lia |].
           destruct (Nat.leb_spec k ci); [| lia].
           destruct (Nat.ltb_spec ci (k + S (List.length news))); [| lia].
           reflexivity.
        -- intros [| j] p Hj; simpl in Hj.
           ++ injection Hj as <-. simpl. rewrite Nat.add_0_r.
              now rewrite (proj2 (Nat.eqb_eq k ci) Heq).
           ++ rewrite (Hnews j p Hj).
              destruct (Nat.eqb_spec (S k + j) ci); [lia |].
              destruct (Nat.eqb_spec (k + S j) ci); [lia |]. reflexivity.
      * set (panel := Panel.mk (Z.of_nat k + 1) x y w h
                               (_determine_aspect_ratio lower content) content
                               false false).
        destruct (IH (S k) (acc ++ [panel]) g) as (news & g' & Hloop & Hg & Hnews).
        exists (panel :: news), g'.
        rewrite Hloop, <- app_assoc. split; [reflexivity |]. split.
        -- rewrite Hg. cbn [List.length].
           destruct (Nat.leb_spec (S k) ci), (Nat.leb_spec k ci),
             (Nat.ltb_spec ci (S k + List.length news)),
             (Nat.ltb_spec ci (k + S (List.length news)));
             simpl; try reflexivity; lia.
        -- intros [| j] p Hj; simpl in Hj.
           ++ injection Hj as <-. simpl. rewrite Nat.add_0_r.
              now rewrite (proj2 (Nat.eqb_neq k ci) Hne).
           ++ rewrite (Hnews j p Hj).
              now replace (k + S j)%nat with (S k + j)%nat by lia.
Qed.

(** The panels of a returned layout, one by one, against the template. *)
Lemma generated_panel (scenes key_elements : list string)
  (mood target_format : string) (reading_direction : ReadingDirection)
  (g g' : rng) (layout : PageLayout.t) (pc : Z) (ci : nat) (rs : list Rect) :
  Spec.generated lower rng random scenes key_elements mood target_format
                 reading_direction g layout g' pc ci rs ->
  exists template,
    _select_layout_template pc mood = Ok template /\
    Slots.template_ok pc template = true /\
    forall j p, nth_error (PageLayout.panels layout) j = Some p ->
      exists slot,
        nth_error template j = Some slot /\
        normalize_rect slot = slot /\
        Panel.is_climax p = Nat.eqb j ci /\
        rect_of p = if Nat.eqb j ci then normalize_rect (Slots.emphasized slot)
                    else slot.
Proof.
  intros [Hne Hcount Hrange Hclimax Hlt Hmax Hrects Hslots Hcreated
          Hlength Hpanels Hlayout].
  pose proof (format_limit_range target_format) as Hlimit.
  assert (Hpc : 3 <= pc <= 9) by lia.
  destruct (layout_rects_slots pc ci rs Hpc Hrects) as (template & Ht & Hok & Hslot).
  exists template. rewrite select_layout_template_mood.
  split; [exact Ht |]. split; [exact Hok |].
  intros j p Hj. destruct (Hpanels j p Hj) as (r & Hr & Hat).
  destruct Hat as (Hrect & _ & _ & _ & Hflag & _).
  destruct (Hslot j r Hr) as (slot & Hs & Hfix & Heq).
  exists slot. rewrite Hrect, Hflag. auto.
Qed.

(** The panels of a returned layout are built in the WESTERN reading
    order. *)
Lemma generated_reading_order (scenes key_elements : list string)
  (mood target_format : string) (reading_direction : ReadingDirection)
  (g g' : rng) (layout : PageLayout.t) :
  generate_layout lower rng random scenes key_elements mood target_format
                  reading_direction g = Ok (layout, g') ->
  _sort_panels_by_reading_order (PageLayout.panels layout) WESTERN
  = PageLayout.panels layout /\
  _sort_panels_by_reading_order (PageLayout.panels layout) MANGA
  = rev (PageLayout.panels layout).
Proof.
  intros H. taken_apart H.
  pose proof (format_limit_range target_format) as Hlimit.
  assert (Hpc : 3 <= pc <= 9) by lia.
  destruct (layout_rects_positions pc ci rs Hpc Hrects) as [Hc Hd].
  pose proof (layout_rects_order pc ci rs Hpc Hrects) as Ho.
  destruct (create_panels_spec lower rng random scenes ci rs g)
    as (panels & g0 & Hcp & Hlen & Hnth).
  rewrite Hcreated in Hcp. injection Hcp as <- <-.
  pose proof (panels_rects lower scenes ci rs _ Hlen Hnth) as Hmap.
  assert (Hcomparable : Forall (fun p => Spec.comparable p = true)
                               (PageLayout.panels layout)).
  { apply Forall_forall. intros p Hp.
    rewrite Forall_forall in Hc.
    assert (Hin : In (rect_of p) rs).
    { apply (firstn_In (List.length scenes)). rewrite <- Hmap. now apply in_map. }
    exact (Hc _ Hin). }
  assert (Hwestern : sorted Spec.western_lt (PageLayout.panels layout)
                     = PageLayout.panels layout).
  { apply sorted_ascending.
    apply (ForallOrdPairs_firstn _ _ (List.length scenes)) in Ho.
    rewrite <- Hmap in Ho. apply ForallOrdPairs_map in Ho.
    apply nth_error_ForallOrdPairs. intros i j p q Hij Hi Hj.
    pose proof (ForallOrdPairs_nth_error _ _ Ho i j p q Hij Hi Hj) as Hbefore.
    rewrite Forall_forall in Hcomparable.
    destruct (Spec.western_lt q p) eqn:E; [exfalso | reflexivity].
    apply (western_lt_asym p q); auto;
      apply Hcomparable; eapply nth_error_In; eauto. }
  split; [exact Hwestern |].
  cbn [_sort_panels_by_reading_order].
  change (sorted Spec.manga_lt (PageLayout.panels layout)
          = rev (PageLayout.panels layout)).
  rewrite <- Hwestern at 2.
  apply manga_reverses_western; [exact Hcomparable |].
  apply (ForallOrdPairs_firstn _ _ (List.length scenes)) in Hd.
  rewrite <- Hmap in Hd. apply ForallOrdPairs_map in Hd. exact Hd.
Qed.

(** The composition type of a returned layout. *)
Lemma generated_composition (scenes key_elements : list string)
  (mood target_format : string) (reading_direction : ReadingDirection)
  (g g' : rng) (layout : PageLayout.t) :
  generate_layout lower rng random scenes key_elements mood target_format
                  reading_direction g = Ok (layout, g') ->
  composition_type layout
  = Ok (Slots.even_composition (List.length (PageLayout.panels layout))).
Proof.
  intros H. taken_apart H.
  pose proof (format_limit_range target_format) as Hlimit.
  assert (Hpc : 3 <= pc <= 9) by lia.
  unfold composition_type. rewrite analyze_composition_rects.
  destruct (create_panels_spec lower rng random scenes ci rs g)
    as (panels & g0 & Hcp & Hlen & Hnth).
  rewrite Hcreated in Hcp. injection Hcp as <- <-.
  rewrite (panels_rects lower scenes ci rs _ Hlen Hnth).
  rewrite Hlength.
  destruct (Nat.le_gt_cases (List.length scenes) (Z.to_nat pc)) as [Hle | Hgt].
  - rewrite Nat.min_r by lia.
    apply (layout_rects_even pc ci _ rs Hpc Hrects). lia.
  - rewrite Nat.min_l by lia. rewrite firstn_all2 by lia.
    rewrite <- (firstn_all rs), Hslots.
    apply (layout_rects_even pc ci _ rs Hpc Hrects). lia.
Qed.

End WithParameters.

Lemma sumZ_Permutation (l1 l2 : list Z) :
  Permutation l1 l2 -> Spec.sumZ l1 = Spec.sumZ l2.
Proof.
  unfold Spec.sumZ. induction 1; simpl; lia.
Qed.

Lemma max_shift (l : list Z) (d : Z) :
  Py.max (map (fun v => v + d) l) = (m <- Py.max l ;; Ok (m + d)).
Proof.
  destruct l as [| a rest]; simpl; [reflexivity |]. f_equal.
  revert a; induction rest as [| b rest IH]; intros a; simpl; [reflexivity |].
  destruct (Z.ltb_spec (a + d) (b + d)), (Z.ltb_spec a b); try lia; apply IH.
Qed.

Lemma index_shift (l : list Z) (m d : Z) :
  index (m + d) (map (fun v => v + d) l) = index m l.
Proof.
  induction l as [| a l IH]; simpl; [reflexivity |].
  destruct (Z.eqb_spec (a + d) (m + d)), (Z.eqb_spec a m); try lia;
    [reflexivity | now rewrite IH].
Qed.

Lemma match_nonempty {A B : Type} (l : list A) (x y : B) :
  l <> [] -> match l with [] => x | _ :: _ => y end = y.
Proof. destruct l; [congruence | reflexivity]. Qed.

Lemma mood_tenths_cases (mood : string) :
  (mood = "эпичный боевик" /\ Spec.mood_tenths_of mood = 8) \/
  (mood <> "эпичный боевик" /\ 10 <= Spec.mood_tenths_of mood <= 14).
Proof.
  unfold Spec.mood_tenths_of, Spec.mood_tenths. cbn [dict_get].
  destruct (String.eqb_spec "эпичный боевик" mood) as [<- | Hne].
  - left. split; reflexivity.
  - right. split; [congruence |].
    repeat match goal with
           | |- context [if ?b then _ else _] => destruct b
           end; lia.
Qed.

End PanelFacts.

(* ================================================================== *)
(** * Further properties of [generate_layout] *)
(* ================================================================== *)

Import PanelFacts.

(** ** The emphasis *)

(** X8: the emphasis touches the climax panel only.  The template selected
    for the panel count has one slot per planned panel, and every panel of a
    returned layout sits at the position of its template slot; a panel that
    is not the climax has exactly the width and the height of the slot, and
    the climax panel has those of the slot enlarged by 1.3 and normalised,
    which are never more than 1.3 times the width and the height of the
    slot. *)
Theorem emphasis_only_on_climax
  (lower : string -> string) (rng : Type) (random : rng -> float * rng)
  (scenes key_elements : list string) (mood target_format : string)
  (reading_direction : ReadingDirection) (g g' : rng) (layout : PageLayout.t) :
  generate_layout lower rng random scenes key_elements mood target_format
                  reading_direction g = Ok (layout, g') ->
  exists template,
    _select_layout_template (PageLayout.total_panels layout) mood = Ok template /\
    List.length template = Z.to_nat (PageLayout.total_panels layout) /\
    forall j p, nth_error (PageLayout.panels layout) j = Some p ->
      exists x y w h,
        nth_error template j = Some (x, y, w, h) /\
        Panel.x p = x /\ Panel.y p = y /\
        (Panel.is_climax p = false -> Panel.width p = w /\ Panel.height p = h) /\
        (Panel.is_climax p = true ->
         rect_of p = normalize_rect (Slots.emphasized (x, y, w, h)) /\
         PrimFloat.leb (Panel.width p) (w * 1.3) = true /\
         PrimFloat.leb (Panel.height p) (h * 1.3) = true).
Proof.
  intros H.
  destruct (generate_layout_Ok _ _ _ _ _ _ _ _ _ _ _ H) as (pc & ci & rs & Hgen).
  destruct (generated_panel _ _ _ _ _ _ _ _ _ _ _ _ _ _ Hgen)
    as (template & Ht & Hok & Hslot).
  assert (Htotal : PageLayout.total_panels layout = pc)
    by (rewrite (Spec.gen_layout _ _ _ _ _ _ _ _ _ _ _ _ _ _ Hgen); reflexivity).
  exists template. rewrite Htotal. split; [exact Ht |].
  split.
  { unfold Slots.template_ok in Hok.
    repeat (apply andb_true_iff in Hok; destruct Hok as [Hok _]).
    now apply Nat.eqb_eq. }
  intros j p Hj. destruct (Hslot j p Hj) as (slot & Hs & Hfix & Hflag & Hrect).
  destruct slot as [[[x y] w] h]. exists x, y, w, h.
  split; [exact Hs |].
  destruct (normalize_rect_position x y w h (w * 1.3)%float (h * 1.3)%float Hfix)
    as (w' & h' & Hpos).
  assert (Hfits : Slots.fits (normalize_rect (Slots.emphasized (x, y, w, h)))
                             (Slots.emphasized (x, y, w, h)) = true).
  { unfold Slots.template_ok in Hok.
    apply andb_true_iff in Hok. destruct Hok as [_ Hfits].
    rewrite forallb_forall in Hfits. apply Hfits. eapply nth_error_In; eauto. }
  rewrite Hflag. unfold rect_of in Hrect.
  destruct (Nat.eqb j ci).
  - pose proof Hrect as Hclimax.
    cbn [Slots.emphasized] in Hrect, Hfits. rewrite Hpos in Hrect, Hfits.
    injection Hrect as Hx Hy Hw Hh.
    cbn [Slots.fits] in Hfits. apply andb_true_iff in Hfits.
    rewrite Hx, Hy, Hw, Hh.
    split; [reflexivity |]. split; [reflexivity |].
    split; [discriminate |]. intros _. split; [exact Hclimax | exact Hfits].
  - injection Hrect as Hx Hy Hw Hh.
    split; [exact Hx |]. split; [exact Hy |].
    split; [intros _; split; assumption | discriminate].
Qed.

Lemma emphasis_only_on_climax_main_script :
  (Example.generate Example.scenes Example.key_elements
                    "эпичный боевик" "веб-комикс" WESTERN [0.9%float]
   = Ok (Example.main_layout, [])) /\
  (exists template,
     _select_layout_template (PageLayout.total_panels Example.main_layout)
                             "эпичный боевик" = Ok template /\
     List.length template
     = Z.to_nat (PageLayout.total_panels Example.main_layout) /\
     forall j p, nth_error (PageLayout.panels Example.main_layout) j = Some p ->
       exists x y w h,
         nth_error template j = Some (x, y, w, h) /\
         Panel.x p = x /\ Panel.y p = y /\
         (Panel.is_climax p = false -> Panel.width p = w /\ Panel.height p = h) /\
         (Panel.is_climax p = true ->
          rect_of p = normalize_rect (Slots.emphasized (x, y, w, h)) /\
          PrimFloat.leb (Panel.width p) (w * 1.3) = true /\
          PrimFloat.leb (Panel.height p) (h * 1.3) = true)).
Proof.
  split; [vm_compute; reflexivity |].
  apply (emphasis_only_on_climax Py.lower Example.draws Example.next_draw
           Example.scenes Example.key_elements "эпичный боевик" "веб-комикс"
           WESTERN [0.9%float] [] Example.main_layout).
  vm_compute; reflexivity.
Defined.

(** The emphasis can also shrink a panel: the fifth slot of the six-panel
    template is [0.45] high and reaches the bottom of the page, so as the
    climax it gets the height [1.0 - 0.55], which is one unit in the last
    place below [0.45]. *)
Example emphasis_can_shrink :
  exists rs x y w h,
    Spec.layout_rects 6 4 = Ok rs /\ nth_error rs 4 = Some (x, y, w, h) /\
    PrimFloat.ltb h 0.45 = true.
Proof. do 5 eexists. repeat split; vm_compute; reflexivity. Qed.

(** X9: panels that are not the climax never overlap.  Two different panels
    of a returned layout, neither of them the climax, share no region of
    positive area, as the float comparisons of their edges decide it. *)
Theorem only_the_climax_overlaps
  (lower : string -> string) (rng : Type) (random : rng -> float * rng)
  (scenes key_elements : list string) (mood target_format : string)
  (reading_direction : ReadingDirection) (g g' : rng) (layout : PageLayout.t) :
  generate_layout lower rng random scenes key_elements mood target_format
                  reading_direction g = Ok (layout, g') ->
  forall i j p q, i <> j ->
    nth_error (PageLayout.panels layout) i = Some p ->
    nth_error (PageLayout.panels layout) j = Some q ->
    Panel.is_climax p = false -> Panel.is_climax q = false ->
    Slots.overlap (rect_of p) (rect_of q) = false.
Proof.
  intros H i j p q Hij Hi Hj Hp Hq.
  destruct (generate_layout_Ok _ _ _ _ _ _ _ _ _ _ _ H) as (pc & ci & rs & Hgen).
  destruct (generated_panel _ _ _ _ _ _ _ _ _ _ _ _ _ _ Hgen)
    as (template & Ht & Hok & Hslot).
  destruct (Hslot i p Hi) as (si & Hsi & _ & Hfi & Hri).
  destruct (Hslot j q Hj) as (sj & Hsj & _ & Hfj & Hrj).
  rewrite Hp in Hfi. rewrite Hq in Hfj. rewrite <- Hfi in Hri. rewrite <- Hfj in Hrj.
  rewrite Hri, Hrj.
  assert (Hd : ForallOrdPairs (fun r1 r2 => negb (Slots.overlap r1 r2) = true)
                              template).
  { unfold Slots.template_ok in Hok.
    apply andb_true_iff in Hok. destruct Hok as [Hok _].
    apply andb_true_iff in Hok. destruct Hok as [_ Hd].
    now apply all_pairs_spec. }
  destruct (Nat.lt_total i j) as [Hlt | [Heq | Hgt]]; [| contradiction |].
  - apply negb_true_iff.
    exact (ForallOrdPairs_nth_error _ _ Hd i j si sj Hlt Hsi Hsj).
  - rewrite overlap_sym. apply negb_true_iff.
    exact (ForallOrdPairs_nth_error _ _ Hd j i sj si Hgt Hsj Hsi).
Qed.

Lemma only_the_climax_overlaps_main_script :
  (Example.generate Example.scenes Example.key_elements
                    "эпичный боевик" "веб-комикс" WESTERN [0.9%float]
   = Ok (Example.main_layout, [])) /\
  (forall i j p q, i <> j ->
     nth_error (PageLayout.panels Example.main_layout) i = Some p ->
     nth_error (PageLayout.panels Example.main_layout) j = Some q ->
     Panel.is_climax p = false -> Panel.is_climax q = false ->
     Slots.overlap (rect_of p) (rect_of q) = false).
Proof.
  split; [vm_compute; reflexivity |].
  apply (only_the_climax_overlaps Py.lower Example.draws Example.next_draw
           Example.scenes Example.key_elements "эпичный боевик" "веб-комикс"
           WESTERN [0.9%float] [] Example.main_layout).
  vm_compute; reflexivity.
Defined.

(** The climax panel does overlap: enlarged in the first slot of the
    four-panel template, it covers a part of the second panel. *)
Example climax_overlaps_its_neighbour :
  exists layout g' p q,
    Example.generate Scripts.early_climax_scenes [] "нуар" "веб-комикс" WESTERN []
    = Ok (layout, g') /\
    nth_error (PageLayout.panels layout) 0 = Some p /\
    nth_error (PageLayout.panels layout) 1 = Some q /\
    Panel.is_climax p = true /\
    Slots.overlap (rect_of p) (rect_of q) = true.
Proof.
  do 4 eexists. split; [vm_compute; reflexivity |].
  repeat split; vm_compute; reflexivity.
Qed.

(** ** Reading order *)

(** X10: a returned layout is already in reading order.  Sorting its panels
    for the WESTERN direction returns them as they were built, in the order
    of the scenes, and sorting them for the MANGA direction returns them in
    the reverse order. *)
Theorem reading_order_is_scene_order
  (lower : string -> string) (rng : Type) (random : rng -> float * rng)
  (scenes key_elements : list string) (mood target_format : string)
  (reading_direction : ReadingDirection) (g g' : rng) (layout : PageLayout.t) :
  generate_layout lower rng random scenes key_elements mood target_format
                  reading_direction g = Ok (layout, g') ->
  _sort_panels_by_reading_order (PageLayout.panels layout) WESTERN
  = PageLayout.panels layout /\
  _sort_panels_by_reading_order (PageLayout.panels layout) MANGA
  = rev (PageLayout.panels layout).
Proof.
  intros H.
  exact (generated_reading_order lower rng random scenes key_elements mood
           target_format reading_direction g g' layout H).
Qed.

Lemma reading_order_is_scene_order_main_script :
  (Example.generate Example.scenes Example.key_elements
                    "эпичный боевик" "веб-комикс" WESTERN [0.9%float]
   = Ok (Example.main_layout, [])) /\
  (_sort_panels_by_reading_order (PageLayout.panels Example.main_layout) WESTERN
   = PageLayout.panels Example.main_layout /\
   _sort_panels_by_reading_order (PageLayout.panels Example.main_layout) MANGA
   = rev (PageLayout.panels Example.main_layout)).
Proof.
  split; [vm_compute; reflexivity |].
  apply (reading_order_is_scene_order Py.lower Example.draws Example.next_draw
           Example.scenes Example.key_elements "эпичный боевик" "веб-комикс"
           WESTERN [0.9%float] [] Example.main_layout).
  vm_compute; reflexivity.
Defined.

(** ** Contents *)

(** X11: the panels follow the script.  The contents of the panels of a
    returned layout are the first scenes of the script, in order and
    unchanged; the identifiers are 1, 2, 3, ... in the same order; and the
    aspect ratio of each panel is the one [_determine_aspect_ratio] gives to
    its content. *)
Theorem panels_follow_the_script
  (lower : string -> string) (rng : Type) (random : rng -> float * rng)
  (scenes key_elements : list string) (mood target_format : string)
  (reading_direction : ReadingDirection) (g g' : rng) (layout : PageLayout.t) :
  generate_layout lower rng random scenes key_elements mood target_format
                  reading_direction g = Ok (layout, g') ->
  map Panel.content (PageLayout.panels layout)
  = firstn (List.length (PageLayout.panels layout)) scenes /\
  map Panel.id (PageLayout.panels layout)
  = map (fun i => Z.of_nat i + 1) (seq 0 (List.length (PageLayout.panels layout))) /\
  forall p, In p (PageLayout.panels layout) ->
    Panel.aspect_ratio p = _determine_aspect_ratio lower (Panel.content p).
Proof.
  intros H. taken_apart H.
  set (panels := PageLayout.panels layout) in *.
  split; [| split].
  - apply nth_error_ext. intros j. rewrite nth_error_map, nth_error_firstn.
    destruct (nth_error panels j) as [p |] eqn:Ep; simpl.
    + destruct (Hpanels j p Ep) as (r & _ & Hat).
      destruct Hat as (_ & _ & Hcontent & _).
      assert (j < List.length panels)%nat by (apply nth_error_Some; congruence).
      replace (j <? List.length panels)%nat with true
        by (symmetry; apply Nat.ltb_lt; lia).
      now rewrite Hcontent.
    + apply nth_error_None in Ep.
      replace (j <? List.length panels)%nat with false
        by (symmetry; apply Nat.ltb_ge; lia).
      reflexivity.
  - apply nth_error_ext. intros j. rewrite !nth_error_map.
    destruct (nth_error panels j) as [p |] eqn:Ep; simpl.
    + destruct (Hpanels j p Ep) as (r & _ & Hat).
      destruct Hat as (_ & Hid & _).
      assert (Hj : (j < List.length panels)%nat) by (apply nth_error_Some; congruence).
      rewrite (nth_error_nth' _ 0%nat) by (rewrite length_seq; exact Hj).
      rewrite seq_nth by exact Hj. simpl. now rewrite Hid.
    + apply nth_error_None in Ep.
      replace (nth_error (seq 0 (List.length panels)) j) with (@None nat)
        by (symmetry; apply nth_error_None; rewrite length_seq; exact Ep).
      reflexivity.
  - intros p Hin. apply In_nth_error in Hin. destruct Hin as [j Hj].
    destruct (Hpanels j p Hj) as (r & _ & Hat).
    destruct Hat as (_ & _ & _ & Hratio & _). exact Hratio.
Qed.

Lemma panels_follow_the_script_main_script :
  (Example.generate Example.scenes Example.key_elements
                    "эпичный боевик" "веб-комикс" WESTERN [0.9%float]
   = Ok (Example.main_layout, [])) /\
  (map Panel.content (PageLayout.panels Example.main_layout)
   = firstn (List.length (PageLayout.panels Example.main_layout)) Example.scenes /\
   map Panel.id (PageLayout.panels Example.main_layout)
   = map (fun i => Z.of_nat i + 1)
         (seq 0 (List.length (PageLayout.panels Example.main_layout))) /\
   forall p, In p (PageLayout.panels Example.main_layout) ->
     Panel.aspect_ratio p = _determine_aspect_ratio Py.lower (Panel.content p)).
Proof.
  split; [vm_compute; reflexivity |].
  apply (panels_follow_the_script Py.lower Example.draws Example.next_draw
           Example.scenes Example.key_elements "эпичный боевик" "веб-комикс"
           WESTERN [0.9%float] [] Example.main_layout).
  vm_compute; reflexivity.
Defined.

(** ** The random draw *)

(** X12: the generator is stepped at most once.  When the climax scene has a
    panel, the call steps the generator exactly once and the climax panel
    bleeds exactly when that draw exceeds 0.7; when the climax scene has no
    panel, the call returns the generator as it received it and no panel
    bleeds. *)
Theorem generator_is_stepped_at_most_once
  (lower : string -> string) (rng : Type) (random : rng -> float * rng)
  (scenes key_elements : list string) (mood target_format : string)
  (reading_direction : ReadingDirection) (g g' : rng) (layout : PageLayout.t) :
  generate_layout lower rng random scenes key_elements mood target_format
                  reading_direction g = Ok (layout, g') ->
  exists ci,
    _find_climax lower scenes key_elements = Ok ci /\
    ((ci < List.length (PageLayout.panels layout))%nat ->
     g' = snd (random g) /\
     forall p, In p (PageLayout.panels layout) ->
       Panel.is_bleed p
       = Panel.is_climax p && PrimFloat.ltb 0.7%float (fst (random g))) /\
    ((List.length (PageLayout.panels layout) <= ci)%nat ->
     g' = g /\
     forall p, In p (PageLayout.panels layout) -> Panel.is_bleed p = false).
Proof.
  intros H. taken_apart H. exists ci. split; [exact Hclimax |].
  destruct (create_panels_loop_draws lower rng random scenes ci rs 0 [] g)
    as (news & g0 & Hloop & Hg & Hnews).
  unfold _create_panels, enumerate in Hcreated.
  rewrite Hcreated in Hloop. cbn [app] in Hloop. injection Hloop as <- <-.
  cbn [Nat.add Nat.leb andb] in Hg.
  assert (Hflag : forall j p, nth_error (PageLayout.panels layout) j = Some p ->
            Panel.is_climax p = Nat.eqb j ci).
  { intros j p Hj. destruct (Hpanels j p Hj) as (r & _ & Hat).
    unfold Spec.panel_at in Hat. tauto. }
  split.
  - intros Hin. apply Nat.ltb_lt in Hin. rewrite Hin in Hg.
    split; [exact Hg |]. intros p Hp. apply In_nth_error in Hp.
    destruct Hp as [j Hj]. rewrite (Hnews j p Hj), (Hflag j p Hj). reflexivity.
  - intros Hout. apply Nat.ltb_ge in Hout. rewrite Hout in Hg.
    split; [exact Hg |]. intros p Hp. apply In_nth_error in Hp.
    destruct Hp as [j Hj]. rewrite (Hnews j p Hj).
    assert (j < List.length (PageLayout.panels layout))%nat
      by (apply nth_error_Some; congruence).
    apply Nat.ltb_ge in Hout.
    destruct (Nat.eqb_spec (0 + j) ci); [simpl in *; lia | reflexivity].
Qed.

Lemma generator_is_stepped_at_most_once_main_script :
  (Example.generate Example.scenes Example.key_elements
                    "эпичный боевик" "веб-комикс" WESTERN [0.9%float]
   = Ok (Example.main_layout, [])) /\
  (exists ci,
     _find_climax Py.lower Example.scenes Example.key_elements = Ok ci /\
     ((ci < List.length (PageLayout.panels Example.main_layout))%nat ->
      [] = snd (Example.next_draw [0.9%float]) /\
      forall p, In p (PageLayout.panels Example.main_layout) ->
        Panel.is_bleed p
        = Panel.is_climax p
          && PrimFloat.ltb 0.7%float (fst (Example.next_draw [0.9%float]))) /\
     ((List.length (PageLayout.panels Example.main_layout) <= ci)%nat ->
      [] = [0.9%float] /\
      forall p, In p (PageLayout.panels Example.main_layout) ->
        Panel.is_bleed p = false)).
Proof.
  split; [vm_compute; reflexivity |].
  apply (generator_is_stepped_at_most_once Py.lower Example.draws Example.next_draw
           Example.scenes Example.key_elements "эпичный боевик" "веб-комикс"
           WESTERN [0.9%float] [] Example.main_layout).
  vm_compute; reflexivity.
Defined.

(** X13: the draw decides the bleed flag and nothing else.  Two calls on the
    same script and labels, with any two generators, return layouts with the
    same panel count and the same panels up to the bleed flags; and the
    layouts are equal when the two first draws compare alike with 0.7. *)
Theorem draw_decides_the_bleed_only
  (lower : string -> string) (rng : Type) (random : rng -> float * rng)
  (scenes key_elements : list string) (mood target_format : string)
  (reading_direction : ReadingDirection) (g1 g2 g1' g2' : rng)
  (layout1 layout2 : PageLayout.t) :
  generate_layout lower rng random scenes key_elements mood target_format
                  reading_direction g1 = Ok (layout1, g1') ->
  generate_layout lower rng random scenes key_elements mood target_format
                  reading_direction g2 = Ok (layout2, g2') ->
  PageLayout.total_panels layout1 = PageLayout.total_panels layout2 /\
  map Slots.without_bleed (PageLayout.panels layout1)
  = map Slots.without_bleed (PageLayout.panels layout2) /\
  (PrimFloat.ltb 0.7%float (fst (random g1))
   = PrimFloat.ltb 0.7%float (fst (random g2)) ->
   layout1 = layout2).
Proof.
  intros H1 H2.
  destruct (generate_layout_Ok _ _ _ _ _ _ _ _ _ _ _ H1) as (pc & ci & rs & Hgen1).
  destruct (generate_layout_Ok _ _ _ _ _ _ _ _ _ _ _ H2) as (pc2 & ci2 & rs2 & Hgen2).
  destruct Hgen1 as [_ Hcount1 _ Hclimax1 _ _ Hrects1 _ Hcreated1 Hlength1
                     Hpanels1 Hlayout1].
  destruct Hgen2 as [_ Hcount2 _ Hclimax2 _ _ Hrects2 _ Hcreated2 Hlength2
                     Hpanels2 Hlayout2].
  assert (pc2 = pc) by congruence. subst pc2.
  assert (ci2 = ci) by congruence. subst ci2.
  assert (rs2 = rs) by congruence. subst rs2.
  set (panels1 := PageLayout.panels layout1) in *.
  set (panels2 := PageLayout.panels layout2) in *.
  assert (Hbleed : forall g g' panels,
            _create_panels lower rng random rs scenes ci g = Ok (panels, g') ->
            forall j p, nth_error panels j = Some p ->
              Panel.is_bleed p
              = Nat.eqb j ci && PrimFloat.ltb 0.7%float (fst (random g))).
  { intros g g' panels Hcreated.
    destruct (create_panels_loop_draws lower rng random scenes ci rs 0 [] g)
      as (news & g0 & Hloop & _ & Hnews).
    unfold _create_panels, enumerate in Hcreated.
    rewrite Hcreated in Hloop. cbn [app] in Hloop. injection Hloop as <- <-.
    exact Hnews. }
  assert (Hsame : forall j p1 p2,
            nth_error panels1 j = Some p1 -> nth_error panels2 j = Some p2 ->
            Slots.without_bleed p1 = Slots.without_bleed p2).
  { intros j p1 p2 Hp1 Hp2.
    destruct (Hpanels1 j p1 Hp1) as (r1 & Hr1 & Hat1).
    destruct (Hpanels2 j p2 Hp2) as (r2 & Hr2 & Hat2).
    assert (r2 = r1) by congruence. subst r2.
    destruct Hat1 as (Hrect1 & Hid1 & Hcontent1 & Hratio1 & Hflag1 & _).
    destruct Hat2 as (Hrect2 & Hid2 & Hcontent2 & Hratio2 & Hflag2 & _).
    assert (Hcontent : Panel.content p1 = Panel.content p2) by congruence.
    rewrite Hcontent in Hratio1.
    unfold rect_of in Hrect1, Hrect2. rewrite <- Hrect2 in Hrect1.
    injection Hrect1 as Hx Hy Hw Hh.
    unfold Slots.without_bleed. congruence. }
  assert (Hlen : List.length panels1 = List.length panels2) by congruence.
  split; [rewrite Hlayout1, Hlayout2; reflexivity |]. split.
  - apply nth_error_ext. intros j. rewrite !nth_error_map.
    destruct (nth_error panels1 j) as [p1 |] eqn:E1;
      destruct (nth_error panels2 j) as [p2 |] eqn:E2; simpl.
    + f_equal. exact (Hsame j p1 p2 E1 E2).
    + apply nth_error_None in E2.
      assert (j < List.length panels1)%nat by (apply nth_error_Some; congruence).
      lia.
    + apply nth_error_None in E1.
      assert (j < List.length panels2)%nat by (apply nth_error_Some; congruence).
      lia.
    + reflexivity.
  - intros Hdraw. rewrite Hlayout1, Hlayout2. f_equal. fold panels1 panels2.
    apply nth_error_ext. intros j.
    destruct (nth_error panels1 j) as [p1 |] eqn:E1;
      destruct (nth_error panels2 j) as [p2 |] eqn:E2.
    + f_equal. pose proof (Hsame j p1 p2 E1 E2) as Hp.
      pose proof (Hbleed g1 g1' panels1 Hcreated1 j p1 E1) as Hb1.
      pose proof (Hbleed g2 g2' panels2 Hcreated2 j p2 E2) as Hb2.
      rewrite Hdraw in Hb1. rewrite <- Hb2 in Hb1.
      destruct p1, p2. unfold Slots.without_bleed in Hp. simpl in *.
      congruence.
    + apply nth_error_None in E2.
      assert (j < List.length panels1)%nat by (apply nth_error_Some; congruence).
      lia.
    + apply nth_error_None in E1.
      assert (j < List.length panels2)%nat by (apply nth_error_Some; congruence).
      lia.
    + reflexivity.
Qed.

Lemma draw_decides_the_bleed_only_main_script :
  (Example.generate Example.scenes Example.key_elements
                    "эпичный боевик" "веб-комикс" WESTERN [0.9%float]
   = Ok (Example.main_layout, [])) /\
  (Example.generate Example.scenes Example.key_elements
                    "эпичный боевик" "веб-комикс" WESTERN [0.1%float]
   = Ok (Scripts.plain_layout, [])) /\
  (PageLayout.total_panels Example.main_layout
   = PageLayout.total_panels Scripts.plain_layout /\
   map Slots.without_bleed (PageLayout.panels Example.main_layout)
   = map Slots.without_bleed (PageLayout.panels Scripts.plain_layout) /\
   (PrimFloat.ltb 0.7%float (fst (Example.next_draw [0.9%float]))
    = PrimFloat.ltb 0.7%float (fst (Example.next_draw [0.1%float])) ->
    Example.main_layout = Scripts.plain_layout)).
Proof.
  split; [vm_compute; reflexivity |].
  split; [vm_compute; reflexivity |].
  apply (draw_decides_the_bleed_only Py.lower Example.draws Example.next_draw
           Example.scenes Example.key_elements "эпичный боевик" "веб-комикс"
           WESTERN [0.9%float] [0.1%float] [] [] Example.main_layout
           Scripts.plain_layout); vm_compute; reflexivity.
Defined.

(** ** What the labels and the key elements change *)

(** X14: the mood and the format act through their numbers.  Two calls whose
    moods have the same multiplier and whose formats have the same limit
    fail alike or return the same panels, the same panel count and the same
    generator: beyond the multiplier, the mood selects nothing. *)
Theorem labels_act_through_their_numbers
  (lower : string -> string) (rng : Type) (random : rng -> float * rng)
  (scenes key_elements : list string) (mood1 mood2 format1 format2 : string)
  (reading_direction : ReadingDirection) (g : rng) :
  Spec.mood_multiplier mood1 = Spec.mood_multiplier mood2 ->
  Spec.format_limit format1 = Spec.format_limit format2 ->
  match generate_layout lower rng random scenes key_elements mood1 format1
                        reading_direction g,
        generate_layout lower rng random scenes key_elements mood2 format2
                        reading_direction g with
  | Ok (layout1, g1), Ok (layout2, g2) =>
      PageLayout.panels layout1 = PageLayout.panels layout2 /\
      PageLayout.total_panels layout1 = PageLayout.total_panels layout2 /\
      g1 = g2
  | Raise e1, Raise e2 => e1 = e2
  | _, _ => False
  end.
Proof.
  intros Hmood Hformat. unfold generate_layout.
  destruct scenes as [| s0 scenes']; [reflexivity |].
  assert (Hcount : _calculate_panel_count (s0 :: scenes') mood1 format1
                   = _calculate_panel_count (s0 :: scenes') mood2 format2).
  { rewrite !calculate_panel_count_truncated. unfold Spec.panel_count_truncated.
    now rewrite Hmood, Hformat. }
  rewrite Hcount.
  destruct (_calculate_panel_count (s0 :: scenes') mood2 format2)
    as [pc | e]; cbn [bind]; [| reflexivity].
  destruct (_find_climax lower (s0 :: scenes') key_elements)
    as [ci | e]; cbn [bind]; [| reflexivity].
  rewrite (select_layout_template_mood pc mood1),
          (select_layout_template_mood pc mood2).
  destruct (_select_layout_template pc "") as [t | e]; cbn [bind]; [| reflexivity].
  destruct (_adjust_for_climax t ci) as [a | e]; cbn [bind]; [| reflexivity].
  destruct (_create_panels lower rng random a (s0 :: scenes') ci g)
    as [[panels g'] | e]; cbn [bind]; [| reflexivity].
  cbn. repeat split.
Qed.

Lemma labels_act_through_their_numbers_main_script :
  (Spec.mood_multiplier "напряженный триллер" = Spec.mood_multiplier "нуар") /\
  (Spec.format_limit "веб-комикс" = Spec.format_limit "веб-комикс") /\
  match Example.generate Example.scenes Example.key_elements
                         "напряженный триллер" "веб-комикс" WESTERN [0.9%float],
        Example.generate Example.scenes Example.key_elements
                         "нуар" "веб-комикс" WESTERN [0.9%float] with
  | Ok (layout1, g1), Ok (layout2, g2) =>
      PageLayout.panels layout1 = PageLayout.panels layout2 /\
      PageLayout.total_panels layout1 = PageLayout.total_panels layout2 /\
      g1 = g2
  | Raise e1, Raise e2 => e1 = e2
  | _, _ => False
  end.
Proof.
  split; [reflexivity |]. split; [reflexivity |].
  apply (labels_act_through_their_numbers Py.lower Example.draws Example.next_draw
           Example.scenes Example.key_elements "напряженный триллер" "нуар"
           "веб-комикс" "веб-комикс" WESTERN [0.9%float]); reflexivity.
Defined.

Lemma score_Permutation (lower : string -> string) (keys1 keys2 : list string)
  (scene : string) :
  Permutation keys1 keys2 ->
  Spec.score lower keys1 scene = Spec.score lower keys2 scene.
Proof.
  intros Hperm. unfold Spec.score. f_equal.
  apply sumZ_Permutation. now apply Permutation_map.
Qed.

(** X15: the order of the key elements does not matter.  Two calls whose
    key elements are the same up to their order give the same result. *)
Theorem key_elements_in_any_order
  (lower : string -> string) (rng : Type) (random : rng -> float * rng)
  (scenes keys1 keys2 : list string) (mood target_format : string)
  (reading_direction : ReadingDirection) (g : rng) :
  Permutation keys1 keys2 ->
  _find_climax lower scenes keys1 = _find_climax lower scenes keys2 /\
  generate_layout lower rng random scenes keys1 mood target_format
                  reading_direction g
  = generate_layout lower rng random scenes keys2 mood target_format
                    reading_direction g.
Proof.
  intros Hperm.
  assert (Hclimax : _find_climax lower scenes keys1 = _find_climax lower scenes keys2).
  { unfold _find_climax. rewrite !climax_scores_spec.
    replace (map (Spec.score lower keys1) scenes)
      with (map (Spec.score lower keys2) scenes); [reflexivity |].
    apply map_ext. intros scene. symmetry. now apply score_Permutation. }
  split; [exact Hclimax |].
  unfold generate_layout. now rewrite Hclimax.
Qed.

Lemma key_elements_in_any_order_main_script :
  Permutation Example.key_elements (rev Example.key_elements) /\
  (_find_climax Py.lower Example.scenes Example.key_elements
   = _find_climax Py.lower Example.scenes (rev Example.key_elements) /\
   Example.generate Example.scenes Example.key_elements
                    "эпичный боевик" "веб-комикс" WESTERN [0.9%float]
   = Example.generate Example.scenes (rev Example.key_elements)
                      "эпичный боевик" "веб-комикс" WESTERN [0.9%float]).
Proof.
  split; [apply Permutation_rev |].
  apply (key_elements_in_any_order Py.lower Example.draws Example.next_draw
           Example.scenes Example.key_elements (rev Example.key_elements)
           "эпичный боевик" "веб-комикс" WESTERN [0.9%float]).
  apply Permutation_rev.
Defined.

Lemma score_cons (lower : string -> string) (element : string)
  (keys : list string) (scene : string) :
  Spec.score lower (element :: keys) scene
  = Spec.score lower keys scene + Spec.element_points lower scene element.
Proof. unfold Spec.score, Spec.sumZ. simpl. lia. Qed.

(** X16: a key element found in every scene, or in none, changes nothing.
    Adding to the key elements a text whose lowered form occurs in the
    lowered text of every scene (the empty text is one), or of no scene,
    leaves the climax index and the whole result as they were. *)
Theorem key_element_everywhere_or_nowhere
  (lower : string -> string) (rng : Type) (random : rng -> float * rng)
  (scenes key_elements : list string) (element mood target_format : string)
  (reading_direction : ReadingDirection) (g : rng) (found : bool) :
  (forall scene, In scene scenes ->
     contains (lower element) (lower scene) = found) ->
  _find_climax lower scenes (element :: key_elements)
  = _find_climax lower scenes key_elements /\
  generate_layout lower rng random scenes (element :: key_elements) mood
                  target_format reading_direction g
  = generate_layout lower rng random scenes key_elements mood
                    target_format reading_direction g.
Proof.
  intros Hfound.
  assert (Hclimax : _find_climax lower scenes (element :: key_elements)
                    = _find_climax lower scenes key_elements).
  { unfold _find_climax. rewrite !climax_scores_spec. cbv zeta.
    set (d := if found then 3 else 0).
    replace (map (Spec.score lower (element :: key_elements)) scenes)
      with (map (fun v => v + d) (map (Spec.score lower key_elements) scenes)).
    - destruct scenes as [| s0 scenes']; [reflexivity |].
      rewrite !match_nonempty by discriminate.
      rewrite max_shift.
      destruct (Py.max (map (Spec.score lower key_elements) (s0 :: scenes')))
        as [m | e]; cbn [bind]; [apply index_shift | reflexivity].
    - rewrite map_map. apply map_ext_in. intros scene Hin.
      rewrite score_cons. unfold Spec.element_points, d.
      now rewrite (Hfound scene Hin). }
  split; [exact Hclimax |].
  unfold generate_layout. now rewrite Hclimax.
Qed.

Lemma key_element_everywhere_or_nowhere_main_script :
  (forall scene, In scene Example.scenes ->
     contains (Py.lower "") (Py.lower scene) = true) /\
  (_find_climax Py.lower Example.scenes ("" :: Example.key_elements)
   = _find_climax Py.lower Example.scenes Example.key_elements /\
   Example.generate Example.scenes ("" :: Example.key_elements)
                    "эпичный боевик" "веб-комикс" WESTERN [0.9%float]
   = Example.generate Example.scenes Example.key_elements
                      "эпичный боевик" "веб-комикс" WESTERN [0.9%float]).
Proof.
  assert (H : forall scene, In scene Example.scenes ->
            contains (Py.lower "") (Py.lower scene) = true).
  { intros scene Hin. simpl in Hin.
    repeat (destruct Hin as [<- | Hin]; [vm_compute; reflexivity |]).
    destruct Hin. }
  split; [exact H |].
  exact (key_element_everywhere_or_nowhere Py.lower Example.draws Example.next_draw
           Example.scenes Example.key_elements "" "эпичный боевик" "веб-комикс"
           WESTERN [0.9%float] true H).
Defined.

(** ** Climax detection *)

Lemma score_without_match (lower : string -> string) (key_elements : list string)
  (scene : string) :
  (forall keyword, In keyword (map fst climax_indicators) ->
     contains keyword (lower scene) = false) ->
  (forall element, In element key_elements ->
     contains (lower element) (lower scene) = false) ->
  Spec.score lower key_elements scene = 0.
Proof.
  intros Hkw Hel. unfold Spec.score.
  assert (H1 : Spec.sumZ (map (Spec.keyword_points lower scene) climax_indicators) = 0).
  { unfold Spec.sumZ.
    assert (Hall : forall l, incl l climax_indicators ->
              fold_right Z.add 0 (map (Spec.keyword_points lower scene) l) = 0).
    { induction l as [| kw l IH]; intros Hincl; simpl; [reflexivity |].
      rewrite IH by (intros x Hx; apply Hincl; now right).
      unfold Spec.keyword_points. rewrite Hkw; [reflexivity |].
      apply in_map. apply Hincl. now left. }
    apply Hall. apply incl_refl. }
  assert (H2 : Spec.sumZ (map (Spec.element_points lower scene) key_elements) = 0).
  { unfold Spec.sumZ. induction key_elements as [| e l IH]; simpl; [reflexivity |].
    rewrite IH by (intros x Hx; apply Hel; now right).
    unfold Spec.element_points. rewrite Hel; [reflexivity | now left]. }
  lia.
Qed.

(** X17: [_find_climax] always returns an index, and the first scene is the
    default.  The index is below the number of scenes, or 0 for an empty
    script (the only case that reaches [len(scenes) // 2]); and when no
    keyword and no key element occurs in any scene, the index is 0. *)
Theorem first_scene_is_the_default_climax
  (lower : string -> string) (scenes key_elements : list string) :
  exists ci,
    _find_climax lower scenes key_elements = Ok ci /\
    (scenes = [] -> ci = 0%nat) /\
    (scenes <> [] -> (ci < List.length scenes)%nat) /\
    ((forall scene keyword, In scene scenes ->
        In keyword (map fst climax_indicators) ->
        contains keyword (lower scene) = false) ->
     (forall scene element, In scene scenes -> In element key_elements ->
        contains (lower element) (lower scene) = false) ->
     ci = 0%nat).
Proof.
  destruct scenes as [| s0 scenes'] eqn:Es.
  - exists 0%nat. repeat split; congruence.
  - rewrite <- Es.
    assert (Hne : scenes <> []) by congruence.
    destruct (find_climax_spec lower scenes key_elements Hne)
      as (ci & Hci & Hlt & m & Hm & Hmax & Hfirst).
    exists ci. split; [exact Hci |]. split; [congruence |].
    split; [intros _; exact Hlt |].
    intros Hkw Hel.
    assert (Hzero : forall j v,
              nth_error (map (Spec.score lower key_elements) scenes) j = Some v ->
              v = 0).
    { intros j v Hj. rewrite nth_error_map in Hj.
      destruct (nth_error scenes j) as [scene |] eqn:Ej; [| discriminate].
      simpl in Hj. injection Hj as <-. apply nth_error_In in Ej.
      apply score_without_match.
      - intros keyword. now apply Hkw.
      - intros element. now apply Hel. }
    destruct ci as [| ci]; [reflexivity | exfalso].
    assert (H0 : nth_error (map (Spec.score lower key_elements) scenes) 0
                 = Some (Spec.score lower key_elements s0))
      by (rewrite Es; reflexivity).
    pose proof (Hzero _ _ H0). pose proof (Hzero _ _ Hm).
    assert (Spec.score lower key_elements s0 < m)
      by (apply (Hfirst 0%nat); [lia | exact H0]).
    lia.
Qed.

(** ** Panel count *)

Lemma panel_count_exact_monotone (n1 n2 : nat) (mood target_format : string) :
  (n1 <= n2)%nat ->
  Spec.panel_count_exact n1 mood target_format
  <= Spec.panel_count_exact n2 mood target_format.
Proof.
  intros Hn. unfold Spec.panel_count_exact, Spec.clamp.
  assert (Hk : 0 <= Spec.mood_tenths_of mood)
    by (destruct (mood_tenths_cases mood) as [[_ ->] | [_ H]]; lia).
  assert (Z.of_nat n1 * Spec.mood_tenths_of mood / 10
          <= Z.of_nat n2 * Spec.mood_tenths_of mood / 10).
  { apply Z.div_le_mono; [lia |]. apply Z.mul_le_mono_nonneg_r; lia. }
  lia.
Qed.

(** X18: more scenes never give fewer panels.  For the same mood and format
    the panel count of a script is at least the panel count of any script
    with fewer scenes (below [2^63] scenes). *)
Theorem panel_count_is_monotone
  (scenes1 scenes2 : list string) (mood target_format : string) :
  (List.length scenes1 <= List.length scenes2)%nat ->
  Z.of_nat (List.length scenes2) < 2 ^ 63 ->
  exists pc1 pc2,
    _calculate_panel_count scenes1 mood target_format = Ok pc1 /\
    _calculate_panel_count scenes2 mood target_format = Ok pc2 /\
    pc1 <= pc2.
Proof.
  intros Hlen Hsize. rewrite !calculate_panel_count_truncated.
  rewrite !panel_count_exact_spec by lia.
  eexists. eexists. split; [reflexivity |]. split; [reflexivity |].
  now apply panel_count_exact_monotone.
Qed.

Lemma panel_count_is_monotone_main_script :
  (List.length Example.two_scenes <= List.length Example.scenes)%nat /\
  Z.of_nat (List.length Example.scenes) < 2 ^ 63 /\
  exists pc1 pc2,
    _calculate_panel_count Example.two_scenes "эпичный боевик" "веб-комикс" = Ok pc1 /\
    _calculate_panel_count Example.scenes "эпичный боевик" "веб-комикс" = Ok pc2 /\
    pc1 <= pc2.
Proof.
  assert (H1 : (List.length Example.two_scenes <= List.length Example.scenes)%nat)
    by (simpl; lia).
  assert (H2 : Z.of_nat (List.length Example.scenes) < 2 ^ 63)
    by (simpl; lia).
  split; [exact H1 |]. split; [exact H2 |].
  exact (panel_count_is_monotone Example.two_scenes Example.scenes
           "эпичный боевик" "веб-комикс" H1 H2).
Defined.

(** X19: when every scene is drawn.  A returned layout has a panel for every
    scene exactly when the script has at most three scenes, or has at most
    [format_limit] scenes and a mood other than "эпичный боевик"; with that
    mood every script of four or more scenes loses at least one scene
    (below [2^63] scenes). *)
Theorem every_scene_is_drawn_iff
  (lower : string -> string) (rng : Type) (random : rng -> float * rng)
  (scenes key_elements : list string) (mood target_format : string)
  (reading_direction : ReadingDirection) (g g' : rng) (layout : PageLayout.t) :
  generate_layout lower rng random scenes key_elements mood target_format
                  reading_direction g = Ok (layout, g') ->
  Z.of_nat (List.length scenes) < 2 ^ 63 ->
  (List.length (PageLayout.panels layout) = List.length scenes <->
   (List.length scenes <= 3)%nat \/
   (Z.of_nat (List.length scenes) <= Spec.format_limit target_format /\
    mood <> "эпичный боевик")).
Proof.
  intros H Hsize. taken_apart H.
  rewrite calculate_panel_count_truncated in Hcount.
  rewrite panel_count_exact_spec in Hcount by exact Hsize.
  injection Hcount as Hpc.
  unfold Spec.panel_count_exact, Spec.clamp in Hpc.
  pose proof (format_limit_range target_format) as Hlimit.
  set (n := List.length scenes) in *.
  assert (Hn : (1 <= n)%nat) by (unfold n; destruct scenes; [congruence | simpl; lia]).
  set (k := Spec.mood_tenths_of mood) in *.
  set (q := Z.of_nat n * k / 10) in *.
  rewrite Hlength.
  destruct (mood_tenths_cases mood) as [[Hepic Hk] | [Hother Hk]]; fold k in Hk.
  - assert (Hq : q < Z.of_nat n).
    { unfold q. apply Z.div_lt_upper_bound; lia. }
    split; [intros Hall | intros [Hthree | [_ Hno]]]; [| lia | contradiction].
    left. lia.
  - assert (Hq : Z.of_nat n <= q).
    { unfold q. apply Z.div_le_lower_bound; nia. }
    split; [intros Hall | intros [Hthree | [Hfit _]]]; [| lia | lia].
    destruct (Nat.le_gt_cases n 3) as [Hle | Hgt]; [now left | right].
    split; [lia | exact Hother].
Qed.

Lemma every_scene_is_drawn_iff_main_script :
  (Example.generate Example.scenes Example.key_elements
                    "эпичный боевик" "веб-комикс" WESTERN [0.9%float]
   = Ok (Example.main_layout, [])) /\
  Z.of_nat (List.length Example.scenes) < 2 ^ 63 /\
  (List.length (PageLayout.panels Example.main_layout) = List.length Example.scenes <->
   (List.length Example.scenes <= 3)%nat \/
   (Z.of_nat (List.length Example.scenes) <= Spec.format_limit "веб-комикс" /\
    "эпичный боевик" <> "эпичный боевик")).
Proof.
  split; [vm_compute; reflexivity |].
  split; [simpl; lia |].
  apply (every_scene_is_drawn_iff Py.lower Example.draws Example.next_draw
           Example.scenes Example.key_elements "эпичный боевик" "веб-комикс"
           WESTERN [0.9%float] [] Example.main_layout).
  - vm_compute; reflexivity.
  - simpl; lia.
Defined.

(** ** Composition *)

(** X20: a returned layout is never a "pyramidal_focus".  Its composition
    type is "balanced_grid" when it holds at most five panels and
    "rhythmic_mosaic" otherwise: no panel, enlarged or not, is more than
    twice as large as the average panel. *)
Theorem composition_follows_the_panel_number
  (lower : string -> string) (rng : Type) (random : rng -> float * rng)
  (scenes key_elements : list string) (mood target_format : string)
  (reading_direction : ReadingDirection) (g g' : rng) (layout : PageLayout.t) :
  generate_layout lower rng random scenes key_elements mood target_format
                  reading_direction g = Ok (layout, g') ->
  composition_type layout
  = Ok (if (List.length (PageLayout.panels layout) <=? 5)%nat
        then "balanced_grid" else "rhythmic_mosaic").
Proof.
  intros H.
  exact (generated_composition lower rng random scenes key_elements mood
           target_format reading_direction g g' layout H).
Qed.

Lemma composition_follows_the_panel_number_main_script :
  (Example.generate Example.scenes Example.key_elements
                    "эпичный боевик" "веб-комикс" WESTERN [0.9%float]
   = Ok (Example.main_layout, [])) /\
  (composition_type Example.main_layout
   = Ok (if (List.length (PageLayout.panels Example.main_layout) <=? 5)%nat
         then "balanced_grid" else "rhythmic_mosaic")).
Proof.
  split; [vm_compute; reflexivity |].
  apply (composition_follows_the_panel_number Py.lower Example.draws Example.next_draw
           Example.scenes Example.key_elements "эпичный боевик" "веб-комикс"
           WESTERN [0.9%float] [] Example.main_layout).
  vm_compute; reflexivity.
Defined.

(** X21: [composition_type] can only fail by a division.  On a layout
    without panels it raises ZeroDivisionError (the mean of no areas), and
    on any layout the only error it raises is ZeroDivisionError: [max] is
    never reached with an empty list. *)
Theorem composition_type_raises_only_division (layout : PageLayout.t) :
  (PageLayout.panels layout = [] ->
   exists msg, composition_type layout = Raise (ZeroDivisionError msg)) /\
  (forall e, composition_type layout = Raise e ->
             exists msg, e = ZeroDivisionError msg).
Proof.
  unfold composition_type, _analyze_composition. split.
  - intros ->. eexists. vm_compute. reflexivity.
  - intros e H.
    assert (Hdiv : forall a b e', truediv a b = Raise e' ->
              exists msg, e' = ZeroDivisionError msg).
    { intros a b e'. unfold truediv.
      destruct (PrimFloat.eqb b 0); intros Hr; [| discriminate].
      injection Hr as <-. eexists. reflexivity. }
    apply bind_Raise in H. destruct H as [H | (avg & Havg & H)];
      [exact (Hdiv _ _ _ H) |].
    apply bind_Raise in H. destruct H as [H | (mx & Hmx & H)].
    + destruct (PageLayout.panels layout) as [| p panels]; [| discriminate].
      vm_compute in Havg. discriminate.
    + apply bind_Raise in H. destruct H as [H | (ratio & Hratio & H)];
        [exact (Hdiv _ _ _ H) |].
      repeat match type of H with
             | (if ?b then _ else _) = _ => destruct b
             end; discriminate.
Qed.

(* ================================================================== *)
(** * Facts about the report *)
(* ================================================================== *)

Module ReportFacts.

Import PyText Report.

(** ** Integers as text *)

Lemma str_Ok (n : Z) : Z.abs n < int_max_str -> str n = Ok (str_of_int n).
Proof.
  intros H. unfold str.
  destruct (Z.leb_spec int_max_str (Z.abs n)) as [Hle | _]; [lia | reflexivity].
Qed.

Lemma str_cases (n : Z) :
  str n = Ok (str_of_int n) \/ exists msg, str n = Raise (ValueError msg).
Proof.
  unfold str. destruct (int_max_str <=? Z.abs n); [right; eauto | now left].
Qed.

Lemma small_below_int_max_str (n : Z) : Z.abs n < 100 -> Z.abs n < int_max_str.
Proof.
  intros H. apply Z.lt_le_trans with 100; [exact H |].
  apply Z.leb_le. vm_compute. reflexivity.
Qed.

Lemma aspect_ratio_values_small (a : AspectRatio) :
  Z.abs (fst (AspectRatio_value a)) < int_max_str /\
  Z.abs (snd (AspectRatio_value a)) < int_max_str.
Proof.
  split; apply small_below_int_max_str; destruct a; simpl; lia.
Qed.

(** ** The blocks of the panels *)

Lemma panel_lines_cases (panel : Panel.t) :
  (exists block,
     panel_lines panel = Ok block /\
     List.length block = 7%nat /\
     nth_error block 0
     = Some ("ПАНЕЛЬ " ++ str_of_int (Panel.id panel) ++ ":")%string) \/
  (exists msg, panel_lines panel = Raise (ValueError msg)).
Proof.
  unfold panel_lines.
  destruct (aspect_ratio_values_small (Panel.aspect_ratio panel)) as [Hw Hh].
  rewrite (str_Ok _ Hw), (str_Ok _ Hh).
  destruct (str_cases (Panel.id panel)) as [-> | [msg ->]]; cbn [bind].
  - left. eexists. split; [reflexivity |]. split; reflexivity.
  - right. eauto.
Qed.

Lemma panel_lines_Ok (panel : Panel.t) :
  Z.abs (Panel.id panel) < int_max_str ->
  exists block,
    panel_lines panel = Ok block /\
    List.length block = 7%nat /\
    nth_error block 0
    = Some ("ПАНЕЛЬ " ++ str_of_int (Panel.id panel) ++ ":")%string.
Proof.
  intros Hid. destruct (panel_lines_cases panel) as [H | [msg H]]; [exact H |].
  unfold panel_lines in H. rewrite (str_Ok _ Hid) in H. cbn [bind] in H.
  destruct (aspect_ratio_values_small (Panel.aspect_ratio panel)) as [Hw Hh].
  rewrite (str_Ok _ Hw), (str_Ok _ Hh) in H. discriminate.
Qed.

(** The loop appends one block of seven lines for each panel, in order. *)
Lemma panel_loop_Ok (panels : list Panel.t) :
  Forall (fun p => Z.abs (Panel.id p) < int_max_str) panels ->
  forall lines,
  exists blocks,
    panel_loop panels lines = Ok (lines ++ blocks) /\
    List.length blocks = (7 * List.length panels)%nat /\
    forall j p, nth_error panels j = Some p ->
      nth_error blocks (7 * j)
      = Some ("ПАНЕЛЬ " ++ str_of_int (Panel.id p) ++ ":")%string.
Proof.
  induction 1 as [| q panels Hq Hall IH]; intros lines.
  - exists []. cbn [panel_loop]. rewrite app_nil_r.
    split; [reflexivity |]. split; [reflexivity |].
    intros [| j] p Hj; discriminate.
  - destruct (panel_lines_Ok q Hq) as (block & Hblock & Hlen & Hhead).
    destruct (IH (lines ++ block)) as (blocks & Hloop & Hlens & Hheads).
    exists (block ++ blocks). cbn [panel_loop]. rewrite Hblock. cbn [bind].
    rewrite Hloop, <- app_assoc. split; [reflexivity |]. split.
    + rewrite length_app, Hlen, Hlens. cbn [List.length]. lia.
    + intros [| j] p Hj; simpl in Hj.
      * injection Hj as <-. rewrite nth_error_app1 by lia. exact Hhead.
      * replace (7 * S j)%nat with (7 + 7 * j)%nat by lia.
        rewrite nth_error_app2 by lia. rewrite Hlen.
        replace (7 + 7 * j - 7)%nat with (7 * j)%nat by lia.
        now apply Hheads.
Qed.

(** The loop keeps the lines it is given, and fails by a ValueError only. *)
Lemma panel_loop_cases (panels : list Panel.t) :
  forall lines,
    (exists blocks, panel_loop panels lines = Ok (lines ++ blocks)) \/
    (exists msg, panel_loop panels lines = Raise (ValueError msg)).
Proof.
  induction panels as [| q panels IH]; intros lines; cbn [panel_loop].
  - left. exists []. now rewrite app_nil_r.
  - destruct (panel_lines_cases q) as [(block & -> & _) | (msg & ->)]; cbn [bind].
    + destruct (IH (lines ++ block)) as [(blocks & ->) | (msg & ->)].
      * left. exists (block ++ blocks). now rewrite app_assoc.
      * right. eauto.
    + right. eauto.
Qed.

(** ** The report *)

Section WithUpper.

Variable upper : string -> string.

(** The report of a layout whose integers can be printed and whose
    composition type is defined. *)
Lemma format_lines_Ok (layout : PageLayout.t) (composition : string) :
  Z.abs (PageLayout.total_panels layout) < int_max_str ->
  Forall (fun p => Z.abs (Panel.id p) < int_max_str) (PageLayout.panels layout) ->
  composition_type layout = Ok composition ->
  let ordered :=
    _sort_panels_by_reading_order (PageLayout.panels layout)
                                  (PageLayout.reading_direction layout) in
  exists header blocks footer accent,
    format_lines upper layout = Ok (header ++ blocks ++ footer) /\
    List.length header = 6%nat /\
    List.length blocks = (7 * List.length ordered)%nat /\
    (forall j p, nth_error ordered j = Some p ->
       nth_error blocks (7 * j)
       = Some ("ПАНЕЛЬ " ++ str_of_int (Panel.id p) ++ ":")%string) /\
    footer = [ "АНАЛИЗ КОМПОЗИЦИИ:";
               ("- " ++ composition)%string;
               ("- Доминирующий поток: " ++ dominant_flow layout)%string;
               ("- Акцент на панели " ++ accent)%string;
               "- Готов для художника" ] /\
    accent = match ordered with
             | first :: _ => str_of_int (Panel.id first)
             | [] => "N/A"
             end.
Proof.
  intros Htotal Hids Hc ordered.
  assert (Hordered : Forall (fun p => Z.abs (Panel.id p) < int_max_str) ordered).
  { apply Forall_forall. intros p Hp. rewrite Forall_forall in Hids. apply Hids.
    unfold ordered in Hp.
    destruct (PageLayout.reading_direction layout);
      exact (Permutation_in _ (SortedFacts.sorted_Permutation _ _) Hp). }
  unfold format_lines. rewrite (str_Ok _ Htotal), Hc. cbn [bind]. fold ordered.
  match goal with
  | |- context [panel_loop ordered ?l] =>
      destruct (panel_loop_Ok ordered Hordered l) as (blocks & Hloop & Hlen & Hheads);
      rewrite Hloop
  end.
  cbn [bind].
  assert (Haccent : match ordered with
                    | first :: _ => str (Panel.id first)
                    | [] => Ok "N/A"
                    end
                    = Ok (match ordered with
                          | first :: _ => str_of_int (Panel.id first)
                          | [] => "N/A"
                          end)).
  { destruct ordered as [| first rest]; [reflexivity |].
    inversion Hordered as [| ? ? Hfirst _]; subst. now apply str_Ok. }
  rewrite Haccent. cbn [bind].
  rewrite <- (app_assoc _ blocks).
  eexists. exists blocks. eexists. eexists.
  split; [reflexivity |]. split; [reflexivity |]. split; [exact Hlen |].
  split; [exact Hheads |]. split; reflexivity.
Qed.

(** What the report raises: the ValueError of an integer too long to print,
    or what [composition_type] raises. *)
Lemma format_lines_Raise (layout : PageLayout.t) (e : exn) :
  format_lines upper layout = Raise e ->
  (exists msg, e = ValueError msg) \/ composition_type layout = Raise e.
Proof.
  unfold format_lines.
  destruct (str_cases (PageLayout.total_panels layout)) as [-> | [msg ->]];
    cbn [bind]; [| intros H; left; exists msg; congruence].
  destruct (composition_type layout) as [c | e'] eqn:Hc; cbn [bind];
    [| intros H; right; congruence].
  match goal with
  | |- context [panel_loop ?ps ?l] =>
      destruct (panel_loop_cases ps l) as [(blocks & ->) | (msg & ->)]
  end; cbn [bind]; [| intros H; left; exists msg; congruence].
  match goal with
  | |- context [match ?ps with [] => Ok "N/A" | first :: _ => _ end] =>
      destruct ps as [| first rest]
  end; cbn [bind]; [discriminate |].
  destruct (str_cases (Panel.id first)) as [-> | [msg ->]]; cbn [bind];
    [discriminate | intros H; left; exists msg; congruence].
Qed.

(** A report that is returned ends with the accent on a panel. *)
Lemma format_lines_accent (layout : PageLayout.t) (lines : list string) :
  format_lines upper layout = Ok lines ->
  exists first rest,
    _sort_panels_by_reading_order (PageLayout.panels layout)
                                  (PageLayout.reading_direction layout)
    = first :: rest /\
    nth_error lines (List.length lines - 2)
    = Some ("- Акцент на панели " ++ str_of_int (Panel.id first))%string.
Proof.
  unfold format_lines. intros H.
  apply bind_Ok in H. destruct H as (total & _ & H).
  apply bind_Ok in H. destruct H as (c & Hc & H).
  apply bind_Ok in H. destruct H as (body & _ & H).
  apply bind_Ok in H. destruct H as (c' & _ & H).
  apply bind_Ok in H. destruct H as (accent & Haccent & H).
  injection H as <-.
  assert (Hne : PageLayout.panels layout <> []).
  { intros Hnil. unfold composition_type, _analyze_composition in Hc.
    rewrite Hnil in Hc. vm_compute in Hc. discriminate. }
  assert (Hsorted : exists first rest,
            _sort_panels_by_reading_order (PageLayout.panels layout)
                                          (PageLayout.reading_direction layout)
            = first :: rest).
  { assert (Hperm : Permutation
                      (_sort_panels_by_reading_order
                         (PageLayout.panels layout)
                         (PageLayout.reading_direction layout))
                      (PageLayout.panels layout))
      by (destruct (PageLayout.reading_direction layout);
          apply SortedFacts.sorted_Permutation).
    destruct (_sort_panels_by_reading_order _ _) as [| first rest].
    - apply Permutation_nil in Hperm. congruence.
    - eauto. }
  destruct Hsorted as (first & rest & Hsorted).
  exists first, rest. split; [exact Hsorted |].
  rewrite Hsorted in Haccent.
  destruct (str_cases (Panel.id first)) as [Hs | [msg Hs]];
    rewrite Hs in Haccent; [| discriminate].
  injection Haccent as <-.
  rewrite length_app. cbn [List.length].
  rewrite nth_error_app2 by lia.
  match goal with
  | |- nth_error _ ?n = _ => replace n with 3%nat by lia
  end.
  reflexivity.
Qed.

End WithUpper.

End ReportFacts.

(* ================================================================== *)
(** * Properties of the report *)
(* ================================================================== *)

Import PyText Report ReportFacts.

(** X22: the report needs a panel.  [format_layout] raises nothing but a
    ZeroDivisionError or a ValueError.  On a layout whose panel count and
    panel identifiers have at most 4300 digits it raises exactly the error
    that [composition_type] raises, which is a ZeroDivisionError on a layout
    without panels.  And whenever it returns, on panels whose coordinates
    are not NaN, the layout has a panel and the accent line names the first
    panel in reading order: the text "N/A" is never printed. *)
Theorem report_needs_a_panel (upper : string -> string) (layout : PageLayout.t) :
  (forall e, format_layout upper layout = Raise e ->
     (exists msg, e = ZeroDivisionError msg) \/ (exists msg, e = ValueError msg)) /\
  (Z.abs (PageLayout.total_panels layout) < int_max_str ->
   Forall (fun p => Z.abs (Panel.id p) < int_max_str) (PageLayout.panels layout) ->
   (forall e, format_layout upper layout = Raise e <->
              composition_type layout = Raise e) /\
   (PageLayout.panels layout = [] ->
    exists msg, format_layout upper layout = Raise (ZeroDivisionError msg))) /\
  (Forall (fun p => Spec.comparable p = true) (PageLayout.panels layout) ->
   forall report, format_layout upper layout = Ok report ->
     exists lines first rest,
       format_lines upper layout = Ok lines /\
       report = join newline lines /\
       _sort_panels_by_reading_order (PageLayout.panels layout)
                                     (PageLayout.reading_direction layout)
       = first :: rest /\
       nth_error lines (List.length lines - 2)
       = Some ("- Акцент на панели " ++ str_of_int (Panel.id first))%string).
Proof.
  assert (Hlines : forall e, format_layout upper layout = Raise e <->
                             format_lines upper layout = Raise e).
  { intros e. unfold format_layout.
    destruct (format_lines upper layout) as [lines | e']; cbn [bind];
      split; intros H; congruence. }
  assert (Hdivision : forall e, composition_type layout = Raise e ->
                                exists msg, e = ZeroDivisionError msg).
  { intros e H. unfold composition_type, _analyze_composition in H.
    assert (Hdiv : forall a b e', truediv a b = Raise e' ->
              exists msg, e' = ZeroDivisionError msg).
    { intros a b e'. unfold truediv.
      destruct (PrimFloat.eqb b 0); intros Hr; [| discriminate].
      injection Hr as <-. eexists. reflexivity. }
    apply bind_Raise in H. destruct H as [H | (avg & Havg & H)];
      [exact (Hdiv _ _ _ H) |].
    apply bind_Raise in H. destruct H as [H | (mx & Hmx & H)].
    - destruct (PageLayout.panels layout) as [| p panels]; [| discriminate].
      vm_compute in Havg. discriminate.
    - apply bind_Raise in H. destruct H as [H | (ratio & Hratio & H)];
        [exact (Hdiv _ _ _ H) |].
      repeat match type of H with
             | (if ?b then _ else _) = _ => destruct b
             end; discriminate. }
  split; [| split].
  - intros e H. apply Hlines in H.
    destruct (format_lines_Raise upper layout e H) as [Hvalue | Hc];
      [now right | left; now apply Hdivision].
  - intros Htotal Hids.
    assert (Hiff : forall e, format_layout upper layout = Raise e <->
                             composition_type layout = Raise e).
    { intros e. rewrite Hlines. split.
      - intros H. destruct (composition_type layout) as [c | e'] eqn:Hc.
        + destruct (format_lines_Ok upper layout c Htotal Hids Hc)
            as (header & blocks & footer & accent & Heq & _).
          congruence.
        + unfold format_lines in H. rewrite (str_Ok _ Htotal), Hc in H.
          cbn [bind] in H. congruence.
      - intros Hc. unfold format_lines.
        rewrite (str_Ok _ Htotal), Hc. reflexivity. }
    split; [exact Hiff |].
    intros Hnil.
    assert (Hc : exists msg, composition_type layout = Raise (ZeroDivisionError msg)).
    { unfold composition_type, _analyze_composition. rewrite Hnil.
      eexists. vm_compute. reflexivity. }
    destruct Hc as [msg Hc]. exists msg. now apply Hiff.
  - intros _ report Hreport. unfold format_layout in Hreport.
    destruct (format_lines upper layout) as [lines | e] eqn:Heq; [| discriminate].
    cbn [bind] in Hreport. injection Hreport as <-.
    destruct (format_lines_accent upper layout lines Heq)
      as (first & rest & Hsorted & Haccent).
    exists lines, first, rest. repeat split; assumption.
Qed.

Lemma report_needs_a_panel_main_script :
  Z.abs (PageLayout.total_panels Example.main_layout) < int_max_str /\
  Forall (fun p => Z.abs (Panel.id p) < int_max_str)
         (PageLayout.panels Example.main_layout) /\
  Forall (fun p => Spec.comparable p = true)
         (PageLayout.panels Example.main_layout) /\
  (forall e, format_layout PyText.upper Example.main_layout = Raise e <->
             composition_type Example.main_layout = Raise e) /\
  (exists lines first rest,
     format_lines PyText.upper Example.main_layout = Ok lines /\
     _sort_panels_by_reading_order (PageLayout.panels Example.main_layout)
                                   (PageLayout.reading_direction Example.main_layout)
     = first :: rest /\
     nth_error lines (List.length lines - 2)
     = Some ("- Акцент на панели " ++ str_of_int (Panel.id first))%string).
Proof.
  assert (H1 : Z.abs (PageLayout.total_panels Example.main_layout) < int_max_str)
    by (vm_compute; reflexivity).
  assert (H2 : Forall (fun p => Z.abs (Panel.id p) < int_max_str)
                      (PageLayout.panels Example.main_layout))
    by (repeat (apply Forall_cons; [vm_compute; reflexivity |]); apply Forall_nil).
  assert (H3 : Forall (fun p => Spec.comparable p = true)
                      (PageLayout.panels Example.main_layout))
    by (repeat (apply Forall_cons; [vm_compute; reflexivity |]); apply Forall_nil).
  split; [exact H1 |]. split; [exact H2 |]. split; [exact H3 |].
  destruct (report_needs_a_panel PyText.upper Example.main_layout)
    as (_ & Hsmall & Haccent).
  split; [exact (proj1 (Hsmall H1 H2)) |].
  destruct (format_layout PyText.upper Example.main_layout) as [report | e] eqn:E.
  - destruct (Haccent H3 report eq_refl) as (lines & first & rest & Hl & _ & Hs & Ha).
    exists lines, first, rest. repeat split; assumption.
  - vm_compute in E. discriminate.
Defined.

(** The lines of the report of a returned layout. *)
Lemma generated_report
  (lower upper : string -> string) (rng : Type) (random : rng -> float * rng)
  (scenes key_elements : list string) (mood target_format : string)
  (reading_direction : ReadingDirection) (g g' : rng) (layout : PageLayout.t) :
  generate_layout lower rng random scenes key_elements mood target_format
                  reading_direction g = Ok (layout, g') ->
  let ordered := match reading_direction with
                 | WESTERN => PageLayout.panels layout
                 | MANGA => rev (PageLayout.panels layout)
                 end in
  exists header blocks footer,
    format_lines upper layout = Ok (header ++ blocks ++ footer) /\
    List.length header = 6%nat /\
    List.length blocks = (7 * List.length ordered)%nat /\
    (forall j p, nth_error ordered j = Some p ->
       nth_error blocks (7 * j)
       = Some ("ПАНЕЛЬ " ++ str_of_int (Panel.id p) ++ ":")%string) /\
    List.length footer = 5%nat /\
    nth_error footer 3
    = Some ("- Акцент на панели "
            ++ str_of_int (match reading_direction with
                           | WESTERN => 1
                           | MANGA => Z.of_nat (List.length (PageLayout.panels layout))
                           end))%string.
Proof.
  intros H ordered.
  destruct (generated_reading_order _ _ _ _ _ _ _ _ _ _ _ H) as [Hwestern Hmanga].
  pose proof (generated_composition _ _ _ _ _ _ _ _ _ _ _ H) as Hc.
  taken_apart H.
  pose proof (format_limit_range target_format) as Hlimit.
  set (panels := PageLayout.panels layout) in *.
  assert (Hk : (1 <= List.length panels <= 9)%nat).
  { rewrite Hlength. destruct scenes as [| s0 scenes']; [congruence |].
    cbn [List.length]. lia. }
  assert (Hid : forall j p, nth_error panels j = Some p ->
            Panel.id p = Z.of_nat j + 1).
  { intros j p Hj. destruct (Hpanels j p Hj) as (r & _ & Hat).
    unfold Spec.panel_at in Hat. tauto. }
  assert (Htotal : Z.abs (PageLayout.total_panels layout) < int_max_str).
  { apply small_below_int_max_str. rewrite Hlayout. cbn [PageLayout.total_panels].
    lia. }
  assert (Hids : Forall (fun p => Z.abs (Panel.id p) < int_max_str) panels).
  { apply Forall_forall. intros p Hp. apply In_nth_error in Hp.
    destruct Hp as [j Hj]. apply small_below_int_max_str. rewrite (Hid j p Hj).
    assert (j < List.length panels)%nat by (apply nth_error_Some; congruence).
    lia. }
  destruct (format_lines_Ok upper layout _ Htotal Hids Hc)
    as (header & blocks & footer & accent & Hlines & Hheader & Hblocks & Hheads
        & Hfooter & Haccent).
  assert (Hdir : PageLayout.reading_direction layout = reading_direction)
    by (rewrite Hlayout; reflexivity).
  rewrite Hdir in Hblocks, Hheads, Haccent.
  fold panels in Hblocks, Hheads, Haccent.
  assert (Hordered : _sort_panels_by_reading_order panels reading_direction
                     = ordered)
    by (unfold ordered; destruct reading_direction; assumption).
  rewrite Hordered in Hblocks, Hheads, Haccent.
  exists header, blocks, footer.
  split; [exact Hlines |]. split; [exact Hheader |].
  split; [exact Hblocks |]. split; [exact Hheads |].
  split; [rewrite Hfooter; reflexivity |].
  rewrite Hfooter. cbn [nth_error]. do 3 f_equal. rewrite Haccent.
  unfold ordered. destruct reading_direction.
  - destruct panels as [| first rest] eqn:Ep; [simpl in Hk; lia |].
    now rewrite (Hid 0%nat first eq_refl).
  - destruct (rev panels) as [| first rest] eqn:Er.
    + apply (f_equal (@List.length _)) in Er. rewrite length_rev in Er.
      simpl in Er. lia.
    + assert (Hfirst : nth_error (rev panels) 0 = Some first) by now rewrite Er.
      rewrite nth_error_rev in Hfirst.
      destruct (Nat.ltb_spec 0 (List.length panels)) as [_ | Hout]; [| lia].
      rewrite (Hid _ first Hfirst). f_equal. lia.
Qed.

(** X23: the report of a returned layout.  [format_layout] returns on every
    layout that [generate_layout] returns.  Its report has [11 + 7 * k]
    lines for [k] panels; the blocks of the panels come in the order of the
    scenes for WESTERN and in the reverse order for MANGA; and the accent
    line names panel 1 for WESTERN and panel [k] for MANGA, whichever panel
    is the climax. *)
Theorem report_of_a_returned_layout
  (lower upper : string -> string) (rng : Type) (random : rng -> float * rng)
  (scenes key_elements : list string) (mood target_format : string)
  (reading_direction : ReadingDirection) (g g' : rng) (layout : PageLayout.t) :
  generate_layout lower rng random scenes key_elements mood target_format
                  reading_direction g = Ok (layout, g') ->
  let k := List.length (PageLayout.panels layout) in
  exists lines,
    format_lines upper layout = Ok lines /\
    format_layout upper layout = Ok (join newline lines) /\
    List.length lines = (11 + 7 * k)%nat /\
    (forall j, (j < k)%nat ->
       nth_error lines (6 + 7 * j)
       = Some ("ПАНЕЛЬ "
               ++ str_of_int (match reading_direction with
                              | WESTERN => Z.of_nat j + 1
                              | MANGA => Z.of_nat (k - j)
                              end)
               ++ ":")%string) /\
    nth_error lines (9 + 7 * k)
    = Some ("- Акцент на панели "
            ++ str_of_int (match reading_direction with
                           | WESTERN => 1
                           | MANGA => Z.of_nat k
                           end))%string.
Proof.
  intros H k.
  destruct (generated_report lower upper _ _ _ _ _ _ _ _ _ _ H)
    as (header & blocks & footer & Hlines & Hheader & Hblocks & Hheads
        & Hfooter & Haccent).
  taken_apart H.
  set (panels := PageLayout.panels layout) in *.
  set (ordered := match reading_direction with
                  | WESTERN => panels
                  | MANGA => rev panels
                  end) in *.
  assert (Hordered : List.length ordered = k)
    by (unfold ordered; destruct reading_direction; [| rewrite length_rev]; reflexivity).
  assert (Hid : forall j p, nth_error panels j = Some p ->
            Panel.id p = Z.of_nat j + 1).
  { intros j p Hj. destruct (Hpanels j p Hj) as (r & _ & Hat).
    unfold Spec.panel_at in Hat. tauto. }
  eexists. split; [exact Hlines |]. split.
  - unfold format_layout. rewrite Hlines. reflexivity.
  - split; [| split].
    + rewrite !length_app, Hblocks, Hheader, Hfooter, Hordered.
      lia.
    + intros j Hj.
      rewrite nth_error_app2 by lia. rewrite Hheader.
      replace (6 + 7 * j - 6)%nat with (7 * j)%nat by lia.
      rewrite nth_error_app1 by (rewrite Hblocks; lia).
      destruct (nth_error ordered j) as [p |] eqn:Ep;
        [| apply nth_error_None in Ep; lia].
      rewrite (Hheads j p Ep).
      assert (Hp : Panel.id p = match reading_direction with
                                | WESTERN => Z.of_nat j + 1
                                | MANGA => Z.of_nat (k - j)
                                end).
      { unfold ordered in Ep. destruct reading_direction.
        - exact (Hid j p Ep).
        - rewrite nth_error_rev in Ep.
          destruct (Nat.ltb_spec j (List.length panels)) as [_ | Hout];
            [| discriminate].
          rewrite (Hid _ p Ep). fold k. lia. }
      now rewrite Hp.
    + rewrite nth_error_app2 by lia. rewrite Hheader.
      rewrite nth_error_app2 by (rewrite Hblocks; lia).
      rewrite Hblocks, Hordered.
      replace (9 + 7 * k - 6 - 7 * k)%nat with 3%nat by lia.
      exact Haccent.
Qed.

Lemma report_of_a_returned_layout_main_script :
  (Example.generate Example.scenes Example.key_elements
                    "эпичный боевик" "веб-комикс" WESTERN [0.9%float]
   = Ok (Example.main_layout, [])) /\
  (let k := List.length (PageLayout.panels Example.main_layout) in
   exists lines,
     format_lines PyText.upper Example.main_layout = Ok lines /\
     format_layout PyText.upper Example.main_layout = Ok (join newline lines) /\
     List.length lines = (11 + 7 * k)%nat /\
     (forall j, (j < k)%nat ->
        nth_error lines (6 + 7 * j)
        = Some ("ПАНЕЛЬ " ++ str_of_int (Z.of_nat j + 1) ++ ":")%string) /\
     nth_error lines (9 + 7 * k)
     = Some ("- Акцент на панели " ++ str_of_int 1)%string).
Proof.
  split; [vm_compute; reflexivity |].
  apply (report_of_a_returned_layout Py.lower PyText.upper Example.draws
           Example.next_draw Example.scenes Example.key_elements
           "эпичный боевик" "веб-комикс" WESTERN [0.9%float] []
           Example.main_layout).
  vm_compute; reflexivity.
Defined.

(** X24: [main] up to its [print].  Whatever [random.random] returns and
    however the texts are lowered and uppercased, [main] raises nothing
    before it calls [print]: [generate_layout] returns the page of four
    panels that the six scenes get with the epic-action mood, stepping the
    generator at most once, [format_layout] returns a report of 39 lines,
    and [print] is called once, with that report.  How [main] ends is how
    that call of [print] ends. *)
Theorem main_reaches_print
  (lower upper : string -> string) (rng : Type) (random : rng -> float * rng)
  (outcome : Type) (print : string -> outcome) (g : rng) :
  exists layout lines g',
    generate_layout lower rng random Example.scenes Example.key_elements
                    "эпичный боевик" "веб-комикс" WESTERN g = Ok (layout, g') /\
    format_lines upper layout = Ok lines /\
    format_layout upper layout = Ok (join newline lines) /\
    main lower upper rng random outcome print g
    = Ok (g', print (join newline lines)) /\
    List.length (PageLayout.panels layout) = 4%nat /\
    List.length lines = 39%nat /\
    (g' = g \/ g' = snd (random g)).
Proof.
  destruct (generate_layout_returns lower rng random Example.scenes
              Example.key_elements "эпичный боевик" "веб-комикс" WESTERN g)
    as (layout & g' & pc & ci & rs & Hcall & Hgen); [discriminate |].
  destruct (generated_report lower upper _ _ _ _ _ _ _ _ _ _ Hcall)
    as (header & blocks & footer & Hlines & Hheader & Hblocks & _ & Hfooter & _).
  destruct Hgen as [Hne Hcount Hrange Hclimax Hlt Hmax Hrects Hslots Hcreated
                    Hlength Hpanels Hlayout].
  assert (Hpc : pc = 4) by (vm_compute in Hcount; congruence).
  assert (Hk : List.length (PageLayout.panels layout) = 4%nat)
    by (rewrite Hlength, Hpc; reflexivity).
  assert (Hreport : format_layout upper layout
                    = Ok (join newline (header ++ blocks ++ footer)))
    by (unfold format_layout; rewrite Hlines; reflexivity).
  exists layout. eexists. exists g'.
  split; [exact Hcall |]. split; [exact Hlines |]. split; [exact Hreport |].
  split; [| split; [exact Hk | split]].
  - unfold main. rewrite Hcall. cbn [bind fst snd].
    rewrite Hreport. reflexivity.
  - rewrite !length_app, Hblocks, Hheader, Hfooter.
    cbn [ReadingDirection_rect ReadingDirection_rec]. rewrite Hk. reflexivity.
  - destruct (create_panels_loop_draws lower rng random Example.scenes ci rs 0 [] g)
      as (news & g0 & Hloop & Hg & _).
    unfold _create_panels, enumerate in Hcreated.
    rewrite Hcreated in Hloop. injection Hloop as _ <-.
    rewrite Hg. destruct (_ && _); [now right | now left].
Qed.

(* ================================================================== *)
(** * Properties of [_create_panels] on any template *)
(* ================================================================== *)

(** X25: [_create_panels] never raises.  For every template, script, climax
    index and generator it builds [min(len(template), len(scenes))] panels,
    whose rectangles are the first slots of the template, unchanged; at most
    one of them is the climax, exactly one when the climax index is below
    the number of panels. *)
Theorem create_panels_never_raises
  (lower : string -> string) (rng : Type) (random : rng -> float * rng)
  (template : list Rect) (scenes : list string) (climax_index : nat) (g : rng) :
  exists panels g',
    _create_panels lower rng random template scenes climax_index g
    = Ok (panels, g') /\
    List.length panels = Nat.min (List.length template) (List.length scenes) /\
    map rect_of panels = firstn (List.length panels) template /\
    Spec.count_climax panels
    = if (climax_index <? List.length panels)%nat then 1%nat else 0%nat.
Proof.
  destruct (create_panels_spec lower rng random scenes climax_index template g)
    as (panels & g' & Hcall & Hlen & Hnth).
  exists panels, g'. split; [exact Hcall |]. split; [exact Hlen |]. split.
  - rewrite (panels_rects lower scenes climax_index template panels Hlen Hnth).
    rewrite Hlen.
    destruct (Nat.le_gt_cases (List.length template) (List.length scenes))
      as [Hle | Hgt].
    + rewrite Nat.min_l by lia. now rewrite !firstn_all2 by lia.
    + rewrite Nat.min_r by lia. reflexivity.
  - exact (climax_count lower scenes climax_index template panels Hnth).
Qed.

(* ================================================================== *)
(** * Properties of the remaining helpers *)
(* ================================================================== *)

Lemma StronglySorted_ForallOrdPairs {A : Type} (R : A -> A -> Prop) (l : list A) :
  StronglySorted R l -> ForallOrdPairs R l.
Proof.
  induction 1 as [| a l Hs IH Ha]; constructor; assumption.
Qed.

(** X26: sorting for a reading order is idempotent.  On panels whose
    coordinates are not NaN, [_sort_panels_by_reading_order] leaves its own
    result unchanged when it is applied to it again, for either
    direction. *)
Theorem reading_order_sort_is_idempotent
  (panels : list Panel.t) (direction : ReadingDirection) :
  Forall (fun p => Spec.comparable p = true) panels ->
  _sort_panels_by_reading_order
    (_sort_panels_by_reading_order panels direction) direction
  = _sort_panels_by_reading_order panels direction.
Proof.
  intros Hc. destruct (reading_orders_sorted panels Hc) as [Hw Hm].
  destruct direction; cbn [_sort_panels_by_reading_order].
  - change (sorted Spec.western_lt (sorted Spec.western_lt panels)
            = sorted Spec.western_lt panels).
    apply sorted_ascending. now apply StronglySorted_ForallOrdPairs.
  - change (sorted Spec.manga_lt (sorted Spec.manga_lt panels)
            = sorted Spec.manga_lt panels).
    apply sorted_ascending. now apply StronglySorted_ForallOrdPairs.
Qed.

Lemma reading_order_sort_is_idempotent_stacked_panels :
  Forall (fun p => Spec.comparable p = true) Example.stacked_panels /\
  (_sort_panels_by_reading_order
     (_sort_panels_by_reading_order Example.stacked_panels MANGA) MANGA
   = _sort_panels_by_reading_order Example.stacked_panels MANGA).
Proof.
  assert (H : Forall (fun p => Spec.comparable p = true) Example.stacked_panels)
    by (repeat (apply Forall_cons; [vm_compute; reflexivity |]);
        apply Forall_nil).
  split; [exact H |].
  exact (reading_order_sort_is_idempotent Example.stacked_panels MANGA H).
Defined.

(** X27: [AspectRatio.ratio] is defined on every member and compares with 1
    as the width compares with the height: it never divides by zero, it is
    above 1 exactly for the members that are wider than high and below 1
    exactly for those that are higher than wide. *)
Theorem aspect_ratio_is_defined (a : AspectRatio) :
  exists ratio,
    AspectRatio_ratio a = Ok ratio /\
    (PrimFloat.ltb 1 ratio = true <->
     snd (AspectRatio_value a) < fst (AspectRatio_value a)) /\
    (PrimFloat.ltb ratio 1 = true <->
     fst (AspectRatio_value a) < snd (AspectRatio_value a)).
Proof.
  destruct a; eexists; (split; [vm_compute; reflexivity |]);
    split; split; intros H; vm_compute in H |- *; congruence.
Qed.
